(** * The libsql facade: error normalisation and transaction sequencing

    A shallow embedding of the JavaScript facade that sits in front of the
    native libsql binding: [convertError], [Database.prepare],
    [Database.exec], [Database.transaction], [Database.pragma], the
    execution verbs of [Statement] and the methods that do no more than
    hand over to the engine.

    The native engine, the user's callbacks and the code a read of a
    property can run are external: they are interfaces ([Host], [Engine],
    [Reads]) whose every behaviour is allowed.  The built-ins the facade
    relies on ([JSON.parse], [typeof], property reads,
    [Object.defineProperties]) are modelled on ECMAScript. *)

From Stdlib Require Import ZArith NArith List Ascii String Bool Lia.
From Stdlib Require Import Decimal DecimalFacts DecimalN.
From stdpp Require Import base option list gmap.

Local Open Scope N_scope.

(** ** Strings

    A JavaScript string is a sequence of UTF-16 code units; a code unit is
    a number below 65536.  Literals of the source are written [js "..."]. *)

Abbreviation jsstring := (list N).

Definition js (s : string) : jsstring :=
  map N_of_ascii (list_ascii_of_string s).

(** ** Numbers

    A number is kept as the decimal numeral that denotes it,
    [(-1)^neg * m * 10^e], next to the two infinities and NaN.  Rounding to
    binary64 is not modelled, except where the facade can observe it: the
    test against zero of [ToBoolean]. *)

Inductive number : Type :=
  | Finite (neg : bool) (m : N) (e : Z)
  | Infinite (neg : bool)
  | NaN.

Definition number_of_Z (z : Z) : number :=
  Finite (z <? 0)%Z (Z.abs_N z) 0.

(** The numerals that binary64 rounds to zero: those of magnitude at most
    [2^-1075], half the least subnormal (the tie goes to the even
    neighbour, zero). *)
Definition rounds_to_zero (m : N) (e : Z) : bool :=
  (m =? 0) || ((e <? 0)%Z && (Z.of_N m * 2 ^ 1075 <=? 10 ^ (- e))%Z).

Definition number_truthy (x : number) : bool :=
  match x with
  | Finite _ m e => negb (rounds_to_zero m e)
  | Infinite _ => true
  | NaN => false
  end.

(** ** JSON values: what [JSON.parse] builds

    Plain data has no identity that the facade could observe, so it is kept
    as a tree.  An object lists its own properties in insertion order, each
    key once. *)

#[warning="-register-all"]
Inductive json : Type :=
  | JNull
  | JBool (b : bool)
  | JNumber (x : number)
  | JString (s : jsstring)
  | JArray (items : list json)
  | JObject (members : list (jsstring * json)).

Definition jsstring_eqb (a b : jsstring) : bool :=
  bool_decide (a = b).

Fixpoint member_get {A : Type} (ms : list (jsstring * A)) (k : jsstring) : option A :=
  match ms with
  | [] => None
  | (k', v) :: rest => if jsstring_eqb k' k then Some v else member_get rest k
  end.

(** [CreateDataProperty]: an existing key keeps its place and takes the new
    value, a new key goes last. *)
Fixpoint member_set {A : Type} (ms : list (jsstring * A)) (k : jsstring) (v : A)
  : list (jsstring * A) :=
  match ms with
  | [] => [(k, v)]
  | (k', v') :: rest =>
      if jsstring_eqb k' k then (k', v) :: rest else (k', v') :: member_set rest k v
  end.

(** ** [JSON.parse]  *)

Module JSON.

(** Result of a parsing function: the value and the unread input, a syntax
    error, or the recursion budget ran out. *)
Inductive presult (A : Type) : Type :=
  | POk (a : A) (rest : jsstring)
  | PError
  | POutOfFuel.
Arguments POk {A} a rest.
Arguments PError {A}.
Arguments POutOfFuel {A}.

Definition is_ws (c : N) : bool :=
  (c =? 32) || (c =? 9) || (c =? 10) || (c =? 13).

Fixpoint skip_ws (s : jsstring) : jsstring :=
  match s with
  | c :: rest => if is_ws c then skip_ws rest else s
  | [] => []
  end.

(** *** Numerals *)

Definition digit_of (c : N) : option (uint -> uint) :=
  if c =? 48 then Some D0 else if c =? 49 then Some D1
  else if c =? 50 then Some D2 else if c =? 51 then Some D3
  else if c =? 52 then Some D4 else if c =? 53 then Some D5
  else if c =? 54 then Some D6 else if c =? 55 then Some D7
  else if c =? 56 then Some D8 else if c =? 57 then Some D9
  else None.

(** The longest run of decimal digits at the head of the input. *)
Fixpoint read_digits (s : jsstring) : uint * jsstring :=
  match s with
  | c :: rest =>
      match digit_of c with
      | Some d => let '(u, r) := read_digits rest in (d u, r)
      | None => (Nil, s)
      end
  | [] => (Nil, [])
  end.

(** [int = "0" | digit1-9 *digit] *)
Definition read_int (s : jsstring) : option (uint * jsstring) :=
  match s with
  | c :: rest =>
      if c =? 48 then Some (D0 Nil, rest)
      else match read_digits s with
           | (Nil, _) => None
           | (u, r) => Some (u, r)
           end
  | [] => None
  end.

(** [frac = "." 1*digit]; absent when no dot follows. *)
Definition read_frac (s : jsstring) : option (uint * jsstring) :=
  match s with
  | c :: rest =>
      if c =? 46 then
        match read_digits rest with
        | (Nil, _) => None
        | (u, r) => Some (u, r)
        end
      else Some (Nil, s)
  | [] => Some (Nil, [])
  end.

(** [exp = ("e" | "E") ["+" | "-"] 1*digit]; absent when no e follows. *)
Definition read_exp (s : jsstring) : option (Z * jsstring) :=
  match s with
  | c :: rest =>
      if (c =? 101) || (c =? 69) then
        let '(sgn, rest') :=
          match rest with
          | d :: rest' =>
              if d =? 45 then (true, rest')
              else if d =? 43 then (false, rest')
              else (false, rest)
          | [] => (false, rest)
          end in
        match read_digits rest' with
        | (Nil, _) => None
        | (u, r) =>
            let n := Z.of_N (N.of_uint u) in
            Some (if sgn then (- n)%Z else n, r)
        end
      else Some (0%Z, s)
  | [] => Some (0%Z, [])
  end.

(** [number = ["-"] int [frac] [exp]] *)
Definition parse_number (s : jsstring) : presult number :=
  let '(neg, s1) :=
    match s with
    | c :: rest => if c =? 45 then (true, rest) else (false, s)
    | [] => (false, s)
    end in
  match read_int s1 with
  | None => PError
  | Some (i, s2) =>
      match read_frac s2 with
      | None => PError
      | Some (f, s3) =>
          match read_exp s3 with
          | None => PError
          | Some (e, s4) =>
              POk (Finite neg (N.of_uint (Decimal.app i f))
                          (e - Z.of_nat (nb_digits f))%Z) s4
          end
      end
  end.

(** *** String literals *)

Definition hex_of (c : N) : option N :=
  if (48 <=? c) && (c <=? 57) then Some (c - 48)
  else if (97 <=? c) && (c <=? 102) then Some (c - 87)
  else if (65 <=? c) && (c <=? 70) then Some (c - 55)
  else None.

Definition hex4 (a b c d : N) : option N :=
  match hex_of a, hex_of b, hex_of c, hex_of d with
  | Some x, Some y, Some z, Some w => Some (((x * 16 + y) * 16 + z) * 16 + w)
  | _, _, _, _ => None
  end.

(** The character a two-character escape stands for. *)
Definition simple_escape (c : N) : option N :=
  if c =? 34 then Some 34          (* quotation mark *)
  else if c =? 92 then Some 92     (* reverse solidus *)
  else if c =? 47 then Some 47     (* solidus *)
  else if c =? 98 then Some 8      (* b: backspace *)
  else if c =? 102 then Some 12    (* f: form feed *)
  else if c =? 110 then Some 10    (* n: line feed *)
  else if c =? 114 then Some 13    (* r: carriage return *)
  else if c =? 116 then Some 9     (* t: tab *)
  else None.

Definition cons_unit (c : N) (r : option (jsstring * jsstring))
  : option (jsstring * jsstring) :=
  match r with
  | Some (s, rest) => Some (c :: s, rest)
  | None => None
  end.

(** The characters of a string literal, read after its opening quote up to
    and including the closing one. *)
Fixpoint read_chars (s : jsstring) : option (jsstring * jsstring) :=
  match s with
  | [] => None
  | c :: rest =>
      if c =? 34 then Some ([], rest)
      else if c =? 92 then
        match rest with
        | [] => None
        | e :: rest1 =>
            if e =? 117 then
              match rest1 with
              | h1 :: h2 :: h3 :: h4 :: rest2 =>
                  match hex4 h1 h2 h3 h4 with
                  | Some u => cons_unit u (read_chars rest2)
                  | None => None
                  end
              | _ => None
              end
            else
              match simple_escape e with
              | Some u => cons_unit u (read_chars rest1)
              | None => None
              end
        end
      else if c <? 32 then None
      else cons_unit c (read_chars rest)
  end.

Definition parse_string (s : jsstring) : presult jsstring :=
  match s with
  | c :: rest =>
      if c =? 34 then
        match read_chars rest with
        | Some (str, rest') => POk str rest'
        | None => PError
        end
      else PError
  | [] => PError
  end.

(** *** Values *)

Fixpoint expect (word s : jsstring) : option jsstring :=
  match word, s with
  | [], _ => Some s
  | w :: word', c :: rest => if c =? w then expect word' rest else None
  | _ :: _, [] => None
  end.

Definition parse_literal (word : jsstring) (v : json) (s : jsstring) : presult json :=
  match expect word s with
  | Some rest => POk v rest
  | None => PError
  end.

Fixpoint parse_value (fuel : nat) (s : jsstring) {struct fuel} : presult json :=
  match fuel with
  | O => POutOfFuel
  | S n =>
      match skip_ws s with
      | [] => PError
      | c :: rest =>
          if c =? 123 then                                  (* { *)
            match skip_ws rest with
            | d :: rest' =>
                if d =? 125 then POk (JObject []) rest'
                else parse_members n [] (d :: rest')
            | [] => PError
            end
          else if c =? 91 then                              (* [ *)
            match skip_ws rest with
            | d :: rest' =>
                if d =? 93 then POk (JArray []) rest'
                else parse_elements n [] (d :: rest')
            | [] => PError
            end
          else if c =? 34 then
            match parse_string (c :: rest) with
            | POk str r => POk (JString str) r
            | PError => PError
            | POutOfFuel => POutOfFuel
            end
          else if c =? 116 then parse_literal (js "true") (JBool true) (c :: rest)
          else if c =? 102 then parse_literal (js "false") (JBool false) (c :: rest)
          else if c =? 110 then parse_literal (js "null") JNull (c :: rest)
          else
            match parse_number (c :: rest) with
            | POk x r => POk (JNumber x) r
            | PError => PError
            | POutOfFuel => POutOfFuel
            end
      end
  end

with parse_elements (fuel : nat) (acc : list json) (s : jsstring) {struct fuel}
  : presult json :=
  match fuel with
  | O => POutOfFuel
  | S n =>
      match parse_value n s with
      | POk v rest =>
          match skip_ws rest with
          | c :: rest' =>
              if c =? 44 then parse_elements n (acc ++ [v]) rest'
              else if c =? 93 then POk (JArray (acc ++ [v])) rest'
              else PError
          | [] => PError
          end
      | PError => PError
      | POutOfFuel => POutOfFuel
      end
  end

with parse_members (fuel : nat) (acc : list (jsstring * json)) (s : jsstring)
  {struct fuel} : presult json :=
  match fuel with
  | O => POutOfFuel
  | S n =>
      match parse_string (skip_ws s) with
      | POk k rest =>
          match skip_ws rest with
          | c :: rest1 =>
              if c =? 58 then
                match parse_value n rest1 with
                | POk v rest2 =>
                    match skip_ws rest2 with
                    | d :: rest3 =>
                        if d =? 44 then parse_members n (member_set acc k v) rest3
                        else if d =? 125 then POk (JObject (member_set acc k v)) rest3
                        else PError
                    | [] => PError
                    end
                | PError => PError
                | POutOfFuel => POutOfFuel
                end
              else PError
          | [] => PError
          end
      | PError => PError
      | POutOfFuel => POutOfFuel
      end
  end.

(** Every recursive call follows at least one character read, or is the
    first call for a value inside an array or object; twice the length of
    the text is budget enough ([parse_value_fuel] below). *)
Definition fuel_for (s : jsstring) : nat := S (S (2 * length s)).

Definition parse (s : jsstring) : option json :=
  match parse_value (fuel_for s) s with
  | POk v rest =>
      match skip_ws rest with
      | [] => Some v
      | _ :: _ => None
      end
  | PError => None
  | POutOfFuel => None
  end.

(** *** [JSON.stringify] on plain data

    [None] marks a value outside what is modelled: a finite number that is
    not a safe integer (its digits depend on binary64) and an object with a
    numeral for a key (such keys are enumerated out of insertion order). *)

Definition hex_digit (n : N) : N :=
  if n <? 10 then 48 + n else 87 + n.

Definition unicode_escape (c : N) : jsstring :=
  [92; 117; hex_digit (c / 4096 mod 16); hex_digit (c / 256 mod 16);
   hex_digit (c / 16 mod 16); hex_digit (c mod 16)].

Definition escape_unit (c : N) : jsstring :=
  if c =? 8 then [92; 98]
  else if c =? 9 then [92; 116]
  else if c =? 10 then [92; 110]
  else if c =? 12 then [92; 102]
  else if c =? 13 then [92; 114]
  else if c =? 34 then [92; 34]
  else if c =? 92 then [92; 92]
  else if c <? 32 then unicode_escape c
  else [c].

Definition is_high_surrogate (c : N) : bool := (55296 <=? c) && (c <=? 56319).
Definition is_low_surrogate (c : N) : bool := (56320 <=? c) && (c <=? 57343).

(** [QuoteJSONString] without its quotes: a surrogate pair is copied, a
    lone surrogate is escaped. *)
Fixpoint quote_units (s : jsstring) : jsstring :=
  match s with
  | [] => []
  | c :: rest =>
      if is_high_surrogate c then
        match rest with
        | d :: rest' =>
            if is_low_surrogate d then c :: d :: quote_units rest'
            else unicode_escape c ++ quote_units rest
        | [] => unicode_escape c
        end
      else if is_low_surrogate c then unicode_escape c ++ quote_units rest
      else escape_unit c ++ quote_units rest
  end.

Definition quote (s : jsstring) : jsstring :=
  34 :: quote_units s ++ [34].

Fixpoint digits_of_uint (u : uint) : jsstring :=
  match u with
  | Nil => []
  | D0 u' => 48 :: digits_of_uint u'
  | D1 u' => 49 :: digits_of_uint u'
  | D2 u' => 50 :: digits_of_uint u'
  | D3 u' => 51 :: digits_of_uint u'
  | D4 u' => 52 :: digits_of_uint u'
  | D5 u' => 53 :: digits_of_uint u'
  | D6 u' => 54 :: digits_of_uint u'
  | D7 u' => 55 :: digits_of_uint u'
  | D8 u' => 56 :: digits_of_uint u'
  | D9 u' => 57 :: digits_of_uint u'
  end.

Definition digits_of_N (n : N) : jsstring := digits_of_uint (N.to_uint n).

(** [Number::toString] on the safe integers; minus zero prints as zero. *)
Definition number_to_string (x : number) : option jsstring :=
  match x with
  | Finite neg m e =>
      if (e =? 0)%Z && (m <? 2 ^ 53) then
        Some ((if neg && negb (m =? 0) then [45] else []) ++ digits_of_N m)
      else None
  | Infinite neg => Some (if neg then js "-Infinity" else js "Infinity")
  | NaN => Some (js "NaN")
  end.

Definition is_numeral (k : jsstring) : bool :=
  match k with
  | [] => false
  | _ :: _ => forallb (fun c => (48 <=? c) && (c <=? 57)) k
  end.

Fixpoint join (sep : jsstring) (parts : list jsstring) : jsstring :=
  match parts with
  | [] => []
  | [p] => p
  | p :: rest => p ++ sep ++ join sep rest
  end.

(** The texts of the parts of an array or object, unless one is outside
    what is modelled. *)
Fixpoint collect {A : Type} (f : A -> option jsstring) (l : list A)
  : option (list jsstring) :=
  match l with
  | [] => Some []
  | x :: l' =>
      match f x, collect f l' with
      | Some p, Some ps => Some (p :: ps)
      | _, _ => None
      end
  end.

Fixpoint stringify (v : json) : option jsstring :=
  match v with
  | JNull => Some (js "null")
  | JBool true => Some (js "true")
  | JBool false => Some (js "false")
  | JNumber (Finite neg m e) => number_to_string (Finite neg m e)
  | JNumber _ => Some (js "null")
  | JString s => Some (quote s)
  | JArray items =>
      match collect stringify items with
      | Some parts => Some ([91] ++ join [44] parts ++ [93])
      | None => None
      end
  | JObject members =>
      match
        collect (fun member : jsstring * json =>
                   let '(k, x) := member in
                   if is_numeral k then None
                   else match stringify x with
                        | Some p => Some (quote k ++ [58] ++ p)
                        | None => None
                        end)
                members
      with
      | Some parts => Some ([123] ++ join [44] parts ++ [125])
      | None => None
      end
  end.

End JSON.


(** ** Values, objects and the heap *)

Abbreviation loc := positive.

(** Plain data ([VData]: null, booleans, numbers, strings and the arrays
    and objects made of them) is kept by value.  What has an identity that
    a caller can observe (an [Error] instance, a function) is a reference
    into the heap.  A [Database] and a [Statement] of the facade hold one
    field, the native handle, assigned by the constructor and never again:
    they are kept as the record of that field. *)
Inductive value : Type :=
  | VUndefined
  | VData (d : json)
  | VRef (l : loc)
  | VDatabase (db : value)
  | VStatement (stmt : value).

Definition VNull : value := VData JNull.
Definition VStr (s : jsstring) : value := VData (JString s).
Definition VInt (z : Z) : value := VData (JNumber (number_of_Z z)).

(** A data property with its attributes. *)
Record property : Type := Property {
  p_value : value;
  p_writable : bool;
  p_enumerable : bool;
  p_configurable : bool
}.

(** The code of a function object.  [WrapTxn db fn mode] is the arrow
    function that [wrapTxn(mode)] returns inside [transaction(fn)] of [db],
    with the three variables it closes over. *)
Inductive closure : Type :=
  | UserCode
  | WrapTxn (db fn : value) (mode : jsstring).

Inductive constructor : Type :=
  | CObject
  | CError
  | CSyntaxError
  | CTypeError
  | CSqliteError.

Inductive kind : Type :=
  | Instance (c : constructor)
  | Function (c : closure).

Record object : Type := Object {
  o_kind : kind;
  o_props : list (jsstring * property)
}.

Inductive completion (A : Type) : Type :=
  | Normal (a : A)
  | Throw (e : value).
Arguments Normal {A} a.
Arguments Throw {A} e.

(** The state a call runs in: the heap of objects, and everything the
    engine and the user's code keep ([W]). *)
Record env (W : Type) : Type := Env {
  heap : gmap loc object;
  world : W
}.
Arguments Env {W} heap world.
Arguments heap {W} e.
Arguments world {W} e.

(** What the facade does at its boundary, in order: the calls it makes
    into the native engine and into the user's function. *)
Inductive verb : Type := Run | Get | Iterate | All.

Inductive event : Type :=
  | EExec (db sql : value)
  | EPrepare (db sql : value)
  | EStmt (v : verb) (stmt : value) (args : list value)
  | EPluck (stmt mode : value)
  | ECall (fn : value) (args : list value).

(** The native engine (index.js) and the user's functions.  Any of them may
    return, throw any value, and change the state as it likes. *)
Class Host (W : Type) : Type := {
  native_exec : value -> value -> env W -> env W * completion value;
  native_prepare : value -> value -> env W -> env W * completion value;
  native_stmt : verb -> value -> list value -> env W -> env W * completion value;
  native_pluck : value -> value -> env W -> env W * completion value;
  call : value -> list value -> env W -> env W * completion value
}.

(** ** Computations of the facade

    A computation maps the state it starts in to the boundary events it
    produced, the state it ends in and a completion: a returned value or a
    thrown one. *)
Record outcome (W A : Type) : Type := Outcome {
  trace : list event;
  final : env W;
  result : completion A
}.
Arguments Outcome {W A} trace final result.
Arguments trace {W A} o.
Arguments final {W A} o.
Arguments result {W A} o.

Definition M (W A : Type) : Type := env W -> outcome W A.

Definition ret {W A} (a : A) : M W A :=
  fun e => Outcome [] e (Normal a).

Definition throw {W A} (v : value) : M W A :=
  fun e => Outcome [] e (Throw v).

Definition bind {W A B} (m : M W A) (f : A -> M W B) : M W B :=
  fun e =>
    let o := m e in
    match result o with
    | Normal a =>
        let o' := f a (final o) in
        Outcome (trace o ++ trace o') (final o') (result o')
    | Throw v => Outcome (trace o) (final o) (Throw v)
    end.

(** [try { m } catch (err) { handler err }] *)
Definition try_catch {W A} (m : M W A) (handler : value -> M W A) : M W A :=
  fun e =>
    let o := m e in
    match result o with
    | Normal a => o
    | Throw v =>
        let o' := handler v (final o) in
        Outcome (trace o ++ trace o') (final o') (result o')
    end.

Declare Scope js_scope.
Delimit Scope js_scope with js.
Notation "'do' x <- m ; k" := (bind m (fun x => k))
  (at level 10, x name, m at level 100, k at level 200) : js_scope.
Local Open Scope js_scope.

(** A call across the boundary: one event, then whatever the host does. *)
Definition boundary {W A} (ev : event) (f : env W -> env W * completion A) : M W A :=
  fun e => let '(e', r) := f e in Outcome [ev] e' r.

Definition alloc {W} (o : object) : M W value :=
  fun e =>
    let l := fresh (dom (heap e)) in
    Outcome [] (Env (<[l := o]> (heap e)) (world e)) (Normal (VRef l)).

(** ** Built-ins *)

Definition data_property (v : value) : property :=
  Property v true true true.

(** [new Error(message)] and its subclasses: [message] is an own property,
    writable and configurable, not enumerable. *)
Definition new_error {W} (c : constructor) (message : jsstring) : M W value :=
  alloc (Object (Instance c) [(js "message", Property (VStr message) true false true)]).

Definition throw_new {W A} (c : constructor) (message : jsstring) : M W A :=
  do err <- new_error c message; throw err.

(** A numeral in canonical form is an index into an array or a string. *)
Definition index_of (name : jsstring) : option nat :=
  match JSON.read_digits name with
  | (Nil, _) => None
  | (u, []) =>
      if jsstring_eqb (JSON.digits_of_N (N.of_uint u)) name
      then Some (N.to_nat (N.of_uint u)) else None
  | (_, _ :: _) => None
  end.

(** Reading property [name] of a value that is neither undefined nor null
    ([None] for these two).  Prototype chains are flattened into the object;
    the methods every object inherits are not modelled, nor are accessor
    properties. *)
Definition lookup_prop (h : gmap loc object) (v : value) (name : jsstring)
  : option value :=
  match v with
  | VUndefined => None
  | VData JNull => None
  | VData (JObject members) =>
      Some (match member_get members name with
            | Some d => VData d
            | None => VUndefined
            end)
  | VData (JArray items) =>
      Some (if jsstring_eqb name (js "length") then VInt (Z.of_nat (length items))
            else match index_of name with
                 | Some i => match items !! i with
                             | Some d => VData d
                             | None => VUndefined
                             end
                 | None => VUndefined
                 end)
  | VData (JString s) =>
      Some (if jsstring_eqb name (js "length") then VInt (Z.of_nat (length s))
            else match index_of name with
                 | Some i => match s !! i with
                             | Some c => VStr [c]
                             | None => VUndefined
                             end
                 | None => VUndefined
                 end)
  | VData (JBool _) => Some VUndefined
  | VData (JNumber _) => Some VUndefined
  | VRef l =>
      Some (match h !! l with
            | Some o => match member_get (o_props o) name with
                        | Some p => p_value p
                        | None => VUndefined
                        end
            | None => VUndefined
            end)
  | VDatabase db =>
      Some (if jsstring_eqb name (js "db") then db else VUndefined)
  | VStatement stmt =>
      Some (if jsstring_eqb name (js "stmt") then stmt else VUndefined)
  end.

(** [v.name]: a TypeError when [v] is undefined or null. *)
Definition get_prop {W} (v : value) (name : jsstring) : M W value :=
  fun e =>
    match lookup_prop (heap e) v name with
    | Some x => ret x e
    | None =>
        throw_new CTypeError
          (js "Cannot read properties of undefined or null (reading '"
             ++ name ++ js "')") e
    end.

(** The results of [typeof]: "undefined", "object", "boolean", "number",
    "string" and "function". *)
Inductive type_tag : Type :=
  | TUndefined | TObject | TBoolean | TNumber | TString | TFunction.

Definition type_of (h : gmap loc object) (v : value) : type_tag :=
  match v with
  | VUndefined => TUndefined
  | VData JNull => TObject
  | VData (JBool _) => TBoolean
  | VData (JNumber _) => TNumber
  | VData (JString _) => TString
  | VData (JArray _) => TObject
  | VData (JObject _) => TObject
  | VRef l =>
      match h !! l with
      | Some (Object (Function _) _) => TFunction
      | _ => TObject
      end
  | VDatabase _ => TObject
  | VStatement _ => TObject
  end.

Definition typeof {W} (v : value) : M W type_tag :=
  fun e => ret (type_of (heap e) v) e.

Definition is_string (t : type_tag) : bool :=
  match t with TString => true | _ => false end.
Definition is_object (t : type_tag) : bool :=
  match t with TObject => true | _ => false end.
Definition is_function (t : type_tag) : bool :=
  match t with TFunction => true | _ => false end.

(** [ToBoolean] *)
Definition truthy (v : value) : bool :=
  match v with
  | VUndefined => false
  | VData JNull => false
  | VData (JBool b) => b
  | VData (JNumber x) => number_truthy x
  | VData (JString s) => negb (jsstring_eqb s [])
  | VData (JArray _) => true
  | VData (JObject _) => true
  | VRef _ => true
  | VDatabase _ => true
  | VStatement _ => true
  end.

(** [v == null] *)
Definition nullish (v : value) : bool :=
  match v with
  | VUndefined => true
  | VData JNull => true
  | _ => false
  end.

(** [JSON.parse(text)] for a string [text]; a SyntaxError otherwise. *)
Definition JSON_parse {W} (text : jsstring) : M W value :=
  match JSON.parse text with
  | Some d => ret (VData d)
  | None => throw_new CSyntaxError (js "Unexpected token in JSON")
  end.

(** [SameValue].  Plain arrays and objects are kept by value, so two of
    them count as two objects. *)
Definition number_same (x y : number) : bool :=
  match x, y with
  | NaN, NaN => true
  | Infinite a, Infinite b => Bool.eqb a b
  | Finite n1 m1 e1, Finite n2 m2 e2 =>
      let e := Z.min e1 e2 in
      Bool.eqb n1 n2
      && (Z.of_N m1 * 10 ^ (e1 - e) =? Z.of_N m2 * 10 ^ (e2 - e))%Z
  | _, _ => false
  end.

Fixpoint same_value (a b : value) : bool :=
  match a, b with
  | VUndefined, VUndefined => true
  | VData JNull, VData JNull => true
  | VData (JBool x), VData (JBool y) => Bool.eqb x y
  | VData (JNumber x), VData (JNumber y) => number_same x y
  | VData (JString x), VData (JString y) => jsstring_eqb x y
  | VRef l, VRef l' => Pos.eqb l l'
  | VDatabase x, VDatabase y => same_value x y
  | VStatement x, VStatement y => same_value x y
  | _, _ => false
  end.

(** A property descriptor as [Object.defineProperties] reads it from
    [{ value: v }] or [{ value: v, enumerable: true }]: absent fields are
    [None]. *)
Record descriptor : Type := Descriptor {
  d_value : option value;
  d_writable : option bool;
  d_enumerable : option bool;
  d_configurable : option bool
}.

Definition asks (field : option bool) (b : bool) : bool :=
  match field with
  | Some x => Bool.eqb x b
  | None => false
  end.

(** [ValidateAndApplyPropertyDescriptor] for data properties of an
    extensible object; [None] is the rejection that makes
    [DefinePropertyOrThrow] throw. *)
Definition apply_descriptor (current : option property) (d : descriptor)
  : option property :=
  match current with
  | None =>
      Some (Property (default VUndefined (d_value d))
                     (default false (d_writable d))
                     (default false (d_enumerable d))
                     (default false (d_configurable d)))
  | Some p =>
      let updated :=
        Property (default (p_value p) (d_value d))
                 (default (p_writable p) (d_writable d))
                 (default (p_enumerable p) (d_enumerable d))
                 (default (p_configurable p) (d_configurable d)) in
      if p_configurable p then Some updated
      else if asks (d_configurable d) true
              || asks (d_enumerable d) (negb (p_enumerable p))
              || (negb (p_writable p)
                  && (asks (d_writable d) true
                      || match d_value d with
                         | Some v => negb (same_value v (p_value p))
                         | None => false
                         end))
      then None
      else Some updated
  end.

Definition define_property {W} (target : value) (key : jsstring) (d : descriptor)
  : M W value :=
  fun e =>
    match target with
    | VRef l =>
        match heap e !! l with
        | Some o =>
            match apply_descriptor (member_get (o_props o) key) d with
            | Some p =>
                Outcome []
                  (Env (<[l := Object (o_kind o) (member_set (o_props o) key p)]> (heap e))
                       (world e))
                  (Normal target)
            | None =>
                throw_new CTypeError (js "Cannot redefine property: " ++ key) e
            end
        | None => throw_new CTypeError (js "Object.defineProperties called on non-object") e
        end
    | _ => throw_new CTypeError (js "Object.defineProperties called on non-object") e
    end.

(** [Object.defineProperties(target, properties)], the properties in the
    order of the object literal. *)
Fixpoint Object_defineProperties {W} (target : value)
  (properties : list (jsstring * descriptor)) : M W value :=
  match properties with
  | [] => ret target
  | (key, d) :: rest =>
      do _ <- define_property target key d;
      Object_defineProperties target rest
  end.

(** A function object as an arrow function with a rest parameter is born:
    [length] 0 and an empty [name], both configurable and read-only. *)
Definition function_object (c : closure) : object :=
  Object (Function c)
    [(js "length", Property (VInt 0) false false true);
     (js "name", Property (VStr []) false false true)].

Definition new_function {W} (c : closure) : M W value :=
  alloc (function_object c).

(** Modelled from the spec: the constructor [SqliteError], whose file
    (sqlite-error.js) is not among the sources.  The spec gives the error it
    builds three fields, [message] (a string), [code] (the symbolic name of
    the engine's error) and [rawCode] (its number), taken from the three
    arguments; the statements about it below are for strings in the first
    two. *)
Definition new_SqliteError {W} (message code rawCode : value) : M W value :=
  alloc (Object (Instance CSqliteError)
           [(js "message", Property message true false true);
            (js "code", data_property code);
            (js "rawCode", data_property rawCode)]).

(** ** The facade *)

(** [if (options == null) options = {};] *)
Definition default_options (options : value) : value :=
  if nullish options then VData (JObject []) else options.

(** [data && data.libsqlError] for the value [JSON.parse] built. *)
Definition marker_of (d : json) : value :=
  if truthy (VData d)
  then default VUndefined (lookup_prop ∅ (VData d) (js "libsqlError"))
  else VData d.

(** [message] is a string, it is JSON, and the value it encodes bears a
    truthy [libsqlError]. *)
Definition carries_marker (message : value) : bool :=
  match message with
  | VData (JString text) =>
      match JSON.parse text with
      | Some d => truthy (marker_of d)
      | None => false
      end
  | _ => false
  end.

(** What [throw convertError(err)] throws, given how [convertError] came
    out: the value it returned, or what it threw itself. *)
Definition rethrown {W} (o : outcome W value) : value :=
  match result o with
  | Normal e => e
  | Throw e => e
  end.

(** The code of the function object [f] refers to. *)
Definition closure_of (h : gmap loc object) (f : value) : option closure :=
  match f with
  | VRef l =>
      match h !! l with
      | Some (Object (Function c) _) => Some c
      | _ => None
      end
  | _ => None
  end.

(** The own property [key] of the object [v] refers to. *)
Definition own_property (h : gmap loc object) (v : value) (key : jsstring)
  : option property :=
  match v with
  | VRef l =>
      match h !! l with
      | Some o => member_get (o_props o) key
      | None => None
      end
  | _ => None
  end.

(** The constructor the object [v] refers to is an instance of. *)
Definition instance_of (h : gmap loc object) (v : value) : option constructor :=
  match v with
  | VRef l =>
      match h !! l with
      | Some (Object (Instance c) _) => Some c
      | _ => None
      end
  | _ => None
  end.

(** [convertError(err)].  [typeof err.message === 'string'] holds exactly
    when the value read is a string, and the second read of [err.message]
    gives what the first gave.  [None] inside is the path that leaves the
    [try] block without returning. *)
Definition convertError {W} (err : value) : M W value :=
  do message <- get_prop err (js "message");
  match message with
  | VData (JString text) =>
      do converted <-
        try_catch
          (do data <- JSON_parse text;
           do marker <- (if truthy data then get_prop data (js "libsqlError")
                         else ret data);
           if truthy marker then
             do m <- get_prop data (js "message");
             do c <- get_prop data (js "code");
             do r <- get_prop data (js "rawCode");
             do e <- new_SqliteError m c r;
             ret (Some e)
           else ret None)
          (fun _ => ret None);
      match converted with
      | Some e => ret e
      | None => ret err
      end
  | _ => ret err
  end.

(** The first revision of the file (wrapper.js), where every method of the
    facade still throws "not implemented", tests a marker on the error
    itself and parses nothing. *)
Module Wrapper.

Definition convertError {W} (err : value) : M W value :=
  do marker <- get_prop err (js "libsqlError");
  if truthy marker then
    do m <- get_prop err (js "message");
    do c <- get_prop err (js "code");
    do r <- get_prop err (js "rawCode");
    new_SqliteError m c r
  else ret err.

End Wrapper.

(** ** Reads that run code

    What is thrown need not be an object with data properties.  Reading
    the [message] of an object that has an accessor property of that name
    runs the getter, and reading it off a proxy runs the trap of the
    proxy; [JSON.parse], given something that is not a string, converts it
    to a string first, which for an object runs its [toString] or
    [valueOf].  What these do is theirs to say: they return or throw any
    value, call what they like and change the state as they like. *)
Class Reads (W : Type) : Type := {
  get_property : value -> jsstring -> M W value;
  to_text : value -> M W jsstring
}.

(** [convertError] with the reads of [err.message] as the code has them:
    one in the test of the [if], outside the [try], and one in the argument
    of [JSON.parse], inside it.  The value [JSON.parse] builds is plain
    data, read as before.  For an error whose [message] is a data property,
    this is [convertError] above. *)
Module Reading.
Section Reading.
Context {W : Type} `{Reads W}.

(** [JSON.parse(v)] *)
Definition JSON_parse_value (v : value) : M W value :=
  match v with
  | VData (JString text) => JSON_parse text
  | _ => do text <- to_text v; JSON_parse text
  end.

Definition convertError (err : value) : M W value :=
  do message <- get_property err (js "message");
  match message with
  | VData (JString _) =>
      do converted <-
        try_catch
          (do again <- get_property err (js "message");
           do data <- JSON_parse_value again;
           do marker <- (if truthy data then get_prop data (js "libsqlError")
                         else ret data);
           if truthy marker then
             do m <- get_prop data (js "message");
             do c <- get_prop data (js "code");
             do r <- get_prop data (js "rawCode");
             do e <- new_SqliteError m c r;
             ret (Some e)
           else ret None)
          (fun _ => ret None);
      match converted with
      | Some e => ret e
      | None => ret err
      end
  | _ => ret err
  end.

End Reading.
End Reading.

Section Facade.
Context {W : Type} `{Host W}.

(** [Database.prototype.exec] *)
Definition Database_exec (this sql : value) : M W value :=
  try_catch
    (do db <- get_prop this (js "db");
     do _ <- boundary (EExec db sql) (native_exec db sql);
     ret VUndefined)
    (fun err => do e <- convertError err; throw e).

(** [Database.prototype.prepare] *)
Definition Database_prepare (this sql : value) : M W value :=
  try_catch
    (do db <- get_prop this (js "db");
     do stmt <- boundary (EPrepare db sql) (native_prepare db sql);
     ret (VStatement stmt))
    (fun err => do e <- convertError err; throw e).

(** [run], [get], [iterate] and [all] of [Statement] differ in the native
    method they call. *)
Definition Statement_execute (v : verb) (this : value) (bindParameters : list value)
  : M W value :=
  try_catch
    (do stmt <- get_prop this (js "stmt");
     boundary (EStmt v stmt bindParameters) (native_stmt v stmt bindParameters))
    (fun err => do e <- convertError err; throw e).

Definition Statement_run := Statement_execute Run.
Definition Statement_get := Statement_execute Get.
Definition Statement_iterate := Statement_execute Iterate.
Definition Statement_all := Statement_execute All.

(** [Statement.prototype.pluck] *)
Definition Statement_pluck (this pluckMode : value) : M W value :=
  do stmt <- get_prop this (js "stmt");
  do _ <- boundary (EPluck stmt pluckMode) (native_pluck stmt pluckMode);
  ret this.

(** The arrow function [wrapTxn(mode)] returns, applied to
    [bindParameters].  [fn] is the user's to run, whatever it is. *)
Definition wrapTxn (db fn : value) (mode : jsstring) (bindParameters : list value)
  : M W value :=
  do _ <- Database_exec db (VStr (js "BEGIN " ++ mode));
  try_catch
    (do result <- boundary (ECall fn bindParameters) (call fn bindParameters);
     do _ <- Database_exec db (VStr (js "COMMIT"));
     ret result)
    (fun err =>
       do _ <- Database_exec db (VStr (js "ROLLBACK"));
       throw err).

(** Calling a function object: a transaction function runs [wrapTxn],
    any other function is the host's. *)
Definition invoke (f : value) (args : list value) : M W value :=
  fun e =>
    match f with
    | VRef l =>
        match heap e !! l with
        | Some (Object (Function (WrapTxn db fn mode)) _) => wrapTxn db fn mode args e
        | Some (Object (Function UserCode) _) => boundary (ECall f args) (call f args) e
        | _ => throw_new CTypeError (js "not a function") e
        end
    | _ => throw_new CTypeError (js "not a function") e
    end.

Definition value_descriptor (v : value) : descriptor :=
  Descriptor (Some v) None None None.

(** The object literal [properties] of [transaction]. *)
Definition variant_properties (this default_ deferred immediate exclusive : value)
  : list (jsstring * descriptor) :=
  [(js "default", value_descriptor default_);
   (js "deferred", value_descriptor deferred);
   (js "immediate", value_descriptor immediate);
   (js "exclusive", value_descriptor exclusive);
   (js "database", Descriptor (Some this) None (Some true) None)].

(** [Database.prototype.transaction] *)
Definition Database_transaction (this fn : value) : M W value :=
  do t <- typeof fn;
  if negb (is_function t) then
    throw_new CTypeError (js "Expected first argument to be a function")
  else
    do default_ <- new_function (WrapTxn this fn (js ""));
    do deferred <- new_function (WrapTxn this fn (js "DEFERRED"));
    do immediate <- new_function (WrapTxn this fn (js "IMMEDIATE"));
    do exclusive <- new_function (WrapTxn this fn (js "EXCLUSIVE"));
    let properties :=
      variant_properties this default_ deferred immediate exclusive in
    do _ <- Object_defineProperties default_ properties;
    do _ <- Object_defineProperties deferred properties;
    do _ <- Object_defineProperties immediate properties;
    do _ <- Object_defineProperties exclusive properties;
    ret default_.

(** [Database.prototype.pragma].  The template literal is the
    concatenation, [source] being a string there. *)
Definition Database_pragma (this source options : value) : M W value :=
  let options := default_options options in
  match source with
  | VData (JString src) =>
      do to <- typeof options;
      if negb (is_object to) then
        throw_new CTypeError (js "Expected second argument to be an options object")
      else
        do simple <- get_prop options (js "simple");
        do stmt <- Database_prepare this (VStr (js "PRAGMA " ++ src));
        if truthy simple then
          do plucked <- Statement_pluck stmt VUndefined;
          Statement_get plucked []
        else Statement_all stmt []
  | _ => throw_new CTypeError (js "Expected first argument to be a string")
  end.

(** The six places where the facade calls the engine inside a [try]
    whose [catch] throws [convertError(err)]: what is called on the
    facade, the field that holds the native handle, the native call and
    the event it leaves. *)
Inductive entry : Type :=
  | Exec (this sql : value)
  | Prepare (this sql : value)
  | Execute (v : verb) (this : value) (bindParameters : list value).

Definition facade_call (c : entry) : M W value :=
  match c with
  | Exec this sql => Database_exec this sql
  | Prepare this sql => Database_prepare this sql
  | Execute v this args => Statement_execute v this args
  end.

Definition receiver (c : entry) : value :=
  match c with
  | Exec this _ => this
  | Prepare this _ => this
  | Execute _ this _ => this
  end.

Definition handle_field (c : entry) : jsstring :=
  match c with
  | Exec _ _ => js "db"
  | Prepare _ _ => js "db"
  | Execute _ _ _ => js "stmt"
  end.

Definition engine_call (c : entry) (handle : value)
  : env W -> env W * completion value :=
  match c with
  | Exec _ sql => native_exec handle sql
  | Prepare _ sql => native_prepare handle sql
  | Execute v _ args => native_stmt v handle args
  end.

Definition engine_event (c : entry) (handle : value) : event :=
  match c with
  | Exec _ sql => EExec handle sql
  | Prepare _ sql => EPrepare handle sql
  | Execute v _ args => EStmt v handle args
  end.

End Facade.

(** ** Shapes the statements below speak of *)

(** The properties an object with properties [ps] ends with when
    [Object.defineProperties] is given [properties]; [None] when a
    definition is rejected. *)
Fixpoint define_all (ps : list (jsstring * property))
  (properties : list (jsstring * descriptor)) : option (list (jsstring * property)) :=
  match properties with
  | [] => Some ps
  | (key, d) :: rest =>
      match apply_descriptor (member_get ps key) d with
      | Some p => define_all (member_set ps key p) rest
      | None => None
      end
  end.

(** A transaction function once [Object.defineProperties] has run on it. *)
Definition linked_object (c : closure) (this default_ deferred immediate exclusive : value)
  : object :=
  Object (Function c)
    [(js "length", Property (VInt 0) false false true);
     (js "name", Property (VStr []) false false true);
     (js "default", Property default_ false false false);
     (js "deferred", Property deferred false false false);
     (js "immediate", Property immediate false false false);
     (js "exclusive", Property exclusive false false false);
     (js "database", Property this false true false)].

(** [o], run from [e], threw a new TypeError with [message] and without
    [code] or [rawCode], having made no call across the boundary and left
    the world and the objects of the heap as they were. *)
Definition argument_error {W} (o : outcome W value) (e : env W) (message : jsstring)
  : Prop :=
  trace o = []
  /\ world (final o) = world e
  /\ heap e ⊆ heap (final o)
  /\ exists l,
       result o = Throw (VRef l)
       /\ heap e !! l = None
       /\ instance_of (heap (final o)) (VRef l) = Some CTypeError
       /\ own_property (heap (final o)) (VRef l) (js "message")
          = Some (Property (VStr message) true false true)
       /\ own_property (heap (final o)) (VRef l) (js "code") = None
       /\ own_property (heap (final o)) (VRef l) (js "rawCode") = None.

(** [o], run from [e], returned a new [SqliteError] with the three fields
    given. *)
Definition converted {W} (o : outcome W value) (e : env W)
  (message code rawCode : value) : Prop :=
  exists l,
    result o = Normal (VRef l)
    /\ heap e !! l = None
    /\ instance_of (heap (final o)) (VRef l) = Some CSqliteError
    /\ lookup_prop (heap (final o)) (VRef l) (js "message") = Some message
    /\ lookup_prop (heap (final o)) (VRef l) (js "code") = Some code
    /\ lookup_prop (heap (final o)) (VRef l) (js "rawCode") = Some rawCode.

(** The function [v] carries the four transaction functions and the
    connection as properties that cannot be written. *)
Definition linked (h : gmap loc object) (v this default_ deferred immediate exclusive : value)
  : Prop :=
  own_property h v (js "default") = Some (Property default_ false false false)
  /\ own_property h v (js "deferred") = Some (Property deferred false false false)
  /\ own_property h v (js "immediate") = Some (Property immediate false false false)
  /\ own_property h v (js "exclusive") = Some (Property exclusive false false false)
  /\ own_property h v (js "database") = Some (Property this false true false).

(** ** The error payload of the engine *)

(** The object the engine encodes in the message of a structured error,
    [{ libsqlError: true, message, code, rawCode }]. *)
Definition payload (message code : jsstring) (rawCode : Z) : json :=
  JObject [(js "libsqlError", JBool true);
           (js "message", JString message);
           (js "code", JString code);
           (js "rawCode", JNumber (number_of_Z rawCode))].

(** The text [JSON.stringify] writes for an integer. *)
Definition integer_text (z : Z) : jsstring :=
  (if (z <? 0)%Z then [45] else []) ++ JSON.digits_of_N (Z.abs_N z).

(** The text [JSON.stringify] writes for the payload. *)
Definition payload_text (message code : jsstring) (rawCode : Z) : jsstring :=
  [123] ++ JSON.quote (js "libsqlError") ++ [58] ++ js "true" ++ [44]
  ++ JSON.quote (js "message") ++ [58] ++ JSON.quote message ++ [44]
  ++ JSON.quote (js "code") ++ [58] ++ JSON.quote code ++ [44]
  ++ JSON.quote (js "rawCode") ++ [58] ++ integer_text rawCode ++ [125].

(** The input does not go on with a digit. *)
Definition no_digit_ahead (x : jsstring) : Prop :=
  match x with
  | [] => True
  | c :: _ => JSON.digit_of c = None
  end.

(** The input goes on with something a numeral cannot contain. *)
Definition number_ends (x : jsstring) : Prop :=
  match x with
  | [] => True
  | c :: _ => JSON.digit_of c = None /\ c <> 46 /\ c <> 101 /\ c <> 69
  end.


(** ** Values that [JSON.stringify] writes and [JSON.parse] reads back

    The integers that are safe in binary64 (no minus zero), and the arrays
    and objects made of them, of strings, booleans and null; an object has
    no key twice and no numeral for a key. *)

Definition number_stable (x : number) : bool :=
  match x with
  | Finite neg m e => (e =? 0)%Z && (m <? 2 ^ 53) && negb (neg && (m =? 0))
  | Infinite _ => false
  | NaN => false
  end.

Definition key_in (k : jsstring) (seen : list jsstring) : bool :=
  existsb (jsstring_eqb k) seen.

Fixpoint members_ok (ok : json -> bool) (seen : list jsstring)
  (l : list (jsstring * json)) : bool :=
  match l with
  | [] => true
  | (k, x) :: l' =>
      negb (JSON.is_numeral k) && negb (key_in k seen) && ok x
      && members_ok ok (k :: seen) l'
  end.

Fixpoint stable (v : json) : bool :=
  match v with
  | JNull => true
  | JBool _ => true
  | JNumber x => number_stable x
  | JString _ => true
  | JArray items => forallb stable items
  | JObject members => members_ok stable [] members
  end.

(** A recursion budget that is enough to parse the text of [v]. *)
Fixpoint need (v : json) : nat :=
  match v with
  | JArray items => S (list_sum (map (fun x => S (need x)) items))
  | JObject members =>
      S (list_sum (map (fun member : jsstring * json => S (need (snd member))) members))
  | _ => 1%nat
  end.

(** A text that starts where a value starts: not with white space, and not
    with a bracket that closes. *)
Definition starts_value (text : jsstring) : Prop :=
  match text with
  | [] => False
  | c :: _ => JSON.is_ws c = false /\ c <> 93 /\ c <> 125
  end.

(** The text of [v] is read back as [v], whatever follows it that a numeral
    cannot contain. *)
Definition reads_back (v : json) (text : jsstring) : Prop :=
  starts_value text
  /\ (need v <= 2 * length text)%nat
  /\ forall (n : nat) (x : jsstring),
       (need v <= n)%nat -> number_ends x ->
       JSON.parse_value n (text ++ x) = JSON.POk v x.

(** The text of a member: the quoted key, a colon, the text of the value. *)
Definition member_reads (member : jsstring * json) (part : jsstring) : Prop :=
  exists p, part = JSON.quote (fst member) ++ 58 :: p /\ reads_back (snd member) p.

(** ** Example hosts and states *)

Module Examples.

(** An engine that counts the calls it serves.  [exec] fails on the
    statements [exec_fails] picks, [prepare], the execution verbs and the
    user's function come out as given. *)
Definition scripted (exec_fails : jsstring -> option value)
  (prepared executed called : completion value) : Host nat :=
  {| native_exec := fun _ sql e =>
       (Env (heap e) (S (world e)),
        match sql with
        | VData (JString s) =>
            match exec_fails s with
            | Some err => Throw err
            | None => Normal VUndefined
            end
        | _ => Normal VUndefined
        end);
     native_prepare := fun _ _ e => (Env (heap e) (S (world e)), prepared);
     native_stmt := fun _ _ _ e => (Env (heap e) (S (world e)), executed);
     native_pluck := fun _ _ e => (Env (heap e) (S (world e)), Normal VUndefined);
     call := fun _ _ e => (e, called) |}.

Definition never : jsstring -> option value := fun _ => None.

Definition only (statement : jsstring) (err : value) : jsstring -> option value :=
  fun s => if jsstring_eqb s statement then Some err else None.

(** The user's function, an error of the user's and two errors of the
    engine: a structured one and a bare one. *)
Definition user_fn : value := VRef 1.
Definition boom : value := VRef 2.
Definition busy : value := VRef 3.
Definition fault : value := VRef 4.

Definition busy_text : jsstring :=
  payload_text (js "database is locked") (js "SQLITE_BUSY") 5.

Definition objects : gmap loc object :=
  <[4%positive := Object (Instance CError)
                   [(js "message", Property (VStr (js "out of memory")) true false true)]]>
 (<[3%positive := Object (Instance CError)
                   [(js "message", Property (VStr busy_text) true false true)]]>
 (<[2%positive := Object (Instance CError)
                   [(js "message", Property (VStr (js "boom")) true false true)]]>
 (<[1%positive := Object (Function UserCode) []]> ∅))).

Definition start : env nat := Env objects 0%nat.

Definition connection : value := VDatabase (VInt 1).
Definition statement : value := VStatement (VInt 2).

(** The engine accepts everything and the user's function returns 42. *)
Definition quiet : Host nat :=
  scripted never (Normal (VInt 2)) (Normal (VInt 7)) (Normal (VInt 42)).

(** The engine refuses COMMIT. *)
Definition commit_fails : Host nat :=
  scripted (only (js "COMMIT") busy) (Normal (VInt 2)) (Normal (VInt 7))
           (Normal (VInt 42)).

(** The engine refuses BEGIN. *)
Definition begin_fails : Host nat :=
  scripted (only (js "BEGIN IMMEDIATE") busy) (Normal (VInt 2)) (Normal (VInt 7))
           (Normal (VInt 42)).

(** The user's function throws. *)
Definition fn_throws : Host nat :=
  scripted never (Normal (VInt 2)) (Normal (VInt 7)) (Throw boom).

(** The user's function throws and the engine refuses ROLLBACK. *)
Definition rollback_fails : Host nat :=
  scripted (only (js "ROLLBACK") fault) (Normal (VInt 2)) (Normal (VInt 7))
           (Throw boom).

(** The engine fails every statement with a structured error. *)
Definition statements_fail : Host nat :=
  scripted never (Throw busy) (Throw busy) (Normal (VInt 42)).

(** The engine throws null. *)
Definition throws_null : Host nat :=
  scripted never (Throw VNull) (Throw VNull) (Normal (VInt 42)).

(** The state after [transaction(user_fn)] on [connection], and the four
    functions it made. *)
Definition made : outcome nat value :=
  Database_transaction connection user_fn start.

Definition ready : env nat := final made.

Definition default_variant : value := rethrown made.

Definition immediate_variant : value :=
  default VUndefined (lookup_prop (heap ready) default_variant (js "immediate")).

End Examples.

(** An object whose [message] is an accessor property: the getter throws
    [boom].  Every other read is the read of a data property, and
    conversion to a string fails. *)
Module ReadExamples.
Import Examples.

Definition guarded : value := VRef 7.

Definition guarded_objects : gmap loc object :=
  <[7%positive := Object (Instance CObject) []]> objects.

Definition guarded_start : env nat := Env guarded_objects 0%nat.

Definition getter_throws : Reads nat :=
  {| get_property := fun v name =>
       if same_value v guarded && jsstring_eqb name (js "message")
       then throw boom
       else get_prop v name;
     to_text := fun _ =>
       throw_new CTypeError (js "Cannot convert object to primitive value") |}.

End ReadExamples.

(** ** Methods that hand over to the engine

    [interrupt], [close] and [defaultSafeIntegers] of [Database] and [raw],
    [interrupt], [columns] and [safeIntegers] of [Statement] call the native
    method of their name on the handle, with no [try] around the call.  They
    are kept as what they do to the state and what they complete with: the
    native method, like every call of the engine, may return, throw any
    value and change the state as it likes. *)
Class Engine (W : Type) : Type := {
  native_interrupt : value -> env W -> env W * completion value;
  native_close : value -> env W -> env W * completion value;
  native_defaultSafeIntegers : value -> value -> env W -> env W * completion value;
  native_raw : value -> value -> env W -> env W * completion value;
  native_stmt_interrupt : value -> env W -> env W * completion value;
  native_columns : value -> env W -> env W * completion value;
  native_safeIntegers : value -> value -> env W -> env W * completion value
}.

Definition T (W A : Type) : Type := env W -> env W * completion A.

(** A computation of the facade, without the calls it made. *)
Definition settled {W A} (m : M W A) : T W A :=
  fun e => (final (m e), result (m e)).

(** [this.field.method(...)]: the field is read, then the engine runs. *)
Definition hand_over {W} (this : value) (field : jsstring)
  (method : value -> T W value) : T W value :=
  fun e =>
    match settled (get_prop this field) e with
    | (e', Normal handle) => method handle e'
    | (e', Throw err) => (e', Throw err)
    end.

(** [m; return v;] *)
Definition then_return {W} (m : T W value) (v : value) : T W value :=
  fun e =>
    match m e with
    | (e', Normal _) => (e', Normal v)
    | (e', Throw err) => (e', Throw err)
    end.

(** [first; second] *)
Definition and_then {W} (first : T W value) (second : value -> T W value) : T W value :=
  fun e =>
    match first e with
    | (e', Normal v) => second v e'
    | (e', Throw err) => (e', Throw err)
    end.

Section Handover.
Context {W : Type} `{Engine W}.

(** [Database.prototype.interrupt] *)
Definition Database_interrupt (this : value) : T W value :=
  then_return (hand_over this (js "db") native_interrupt) VUndefined.

(** [Database.prototype.close] *)
Definition Database_close (this : value) : T W value :=
  then_return (hand_over this (js "db") native_close) VUndefined.

(** [Database.prototype.defaultSafeIntegers] *)
Definition Database_defaultSafeIntegers (this toggle : value) : T W value :=
  then_return
    (hand_over this (js "db") (fun db => native_defaultSafeIntegers db toggle)) this.

(** [Statement.prototype.raw] *)
Definition Statement_raw (this raw : value) : T W value :=
  then_return (hand_over this (js "stmt") (fun stmt => native_raw stmt raw)) this.

(** [Statement.prototype.interrupt] *)
Definition Statement_interrupt (this : value) : T W value :=
  then_return (hand_over this (js "stmt") native_stmt_interrupt) this.

(** [Statement.prototype.columns] *)
Definition Statement_columns (this : value) : T W value :=
  hand_over this (js "stmt") native_columns.

(** [Statement.prototype.safeIntegers] *)
Definition Statement_safeIntegers (this toggle : value) : T W value :=
  then_return
    (hand_over this (js "stmt") (fun stmt => native_safeIntegers stmt toggle)) this.

End Handover.

(** The four names under which a transaction function is reached, each
    with the mode it begins its transaction in. *)
Definition variants : list (jsstring * jsstring) :=
  [(js "default", js "");
   (js "deferred", js "DEFERRED");
   (js "immediate", js "IMMEDIATE");
   (js "exclusive", js "EXCLUSIVE")].

(** What the facade hands back when the native call of an entry returned
    [x]: nothing for [exec], a [Statement] around [x] for [prepare], [x]
    itself for the execution verbs. *)
Definition handed_back (c : entry) (x : value) : value :=
  match c with
  | Exec _ _ => VUndefined
  | Prepare _ _ => VStatement x
  | Execute _ _ _ => x
  end.

(** Hosts for the properties below. *)
Module MoreExamples.
Import Examples.

(** An engine that refuses to turn pluck mode on. *)
Definition pluck_fails : Host nat :=
  {| native_exec := fun _ _ e => (Env (heap e) (S (world e)), Normal VUndefined);
     native_prepare := fun _ _ e => (Env (heap e) (S (world e)), Normal (VInt 2));
     native_stmt := fun _ _ _ e => (Env (heap e) (S (world e)), Normal (VInt 7));
     native_pluck := fun _ _ e => (Env (heap e) (S (world e)), Throw busy);
     call := fun _ _ e => (e, Normal (VInt 42)) |}.

(** An engine whose hand-over methods count the calls and return nothing,
    except [close], which fails with a structured error, and [columns]. *)
Definition counting : Engine nat :=
  {| native_interrupt := fun _ e => (Env (heap e) (S (world e)), Normal VUndefined);
     native_close := fun _ e => (Env (heap e) (S (world e)), Throw busy);
     native_defaultSafeIntegers :=
       fun _ _ e => (Env (heap e) (S (world e)), Normal VUndefined);
     native_raw := fun _ _ e => (Env (heap e) (S (world e)), Normal VUndefined);
     native_stmt_interrupt := fun _ e => (Env (heap e) (S (world e)), Normal VUndefined);
     native_columns :=
       fun _ e => (Env (heap e) (S (world e)),
                   Normal (VData (JArray [JString (js "id"); JString (js "name")])));
     native_safeIntegers :=
       fun _ _ e => (Env (heap e) (S (world e)), Normal VUndefined) |}.

(** An error of the engine whose payload bears 1 for a marker and no
    [rawCode], and an error that bears the marker itself, as the first
    revision of [convertError] expects it. *)
Definition unusual_text : jsstring :=
  [123] ++ JSON.quote (js "libsqlError") ++ js ":1,"
  ++ JSON.quote (js "message") ++ [58] ++ JSON.quote (js "disk full") ++ [44]
  ++ JSON.quote (js "code") ++ [58] ++ JSON.quote (js "SQLITE_FULL") ++ [125].

Definition unusual : value := VRef 5.
Definition marked : value := VRef 6.

Definition more_objects : gmap loc object :=
  <[6%positive := Object (Instance CError)
                   [(js "message", Property (VStr (js "disk full")) true false true);
                    (js "libsqlError", data_property (VData (JBool true)));
                    (js "code", data_property (VStr (js "SQLITE_FULL")));
                    (js "rawCode", data_property (VInt 13))]]>
 (<[5%positive := Object (Instance CError)
                   [(js "message", Property (VStr unusual_text) true false true)]]>
  objects).

Definition later : env nat := Env more_objects 0%nat.

End MoreExamples.


(** * Proofs *)

(** ** [JSON.parse] reads back what [JSON.stringify] wrote *)

Module JSONFacts.
Import JSON.

Lemma hex_of_hex_digit (n : N) : n < 16 -> hex_of (hex_digit n) = Some n.
Proof.
  intros Hn. unfold hex_digit, hex_of.
  destruct (N.ltb_spec n 10) as [Hlt | Hge].
  - replace ((48 <=? 48 + n) && (48 + n <=? 57)) with true.
    + f_equal. lia.
    + symmetry. apply andb_true_iff. split; apply N.leb_le; lia.
  - replace ((48 <=? 87 + n) && (87 + n <=? 57)) with false.
    + replace ((97 <=? 87 + n) && (87 + n <=? 102)) with true.
      * f_equal. lia.
      * symmetry. apply andb_true_iff. split; apply N.leb_le; lia.
    + symmetry. apply andb_false_iff. right. apply N.leb_gt. lia.
Qed.

Lemma nibbles_reassemble (c : N) :
  c < 65536 ->
  ((c / 4096 mod 16 * 16 + c / 256 mod 16) * 16 + c / 16 mod 16) * 16 + c mod 16 = c.
Proof.
  intros Hc.
  replace (c / 4096) with (c / 16 / 16 / 16) by (rewrite !N.Div0.div_div; reflexivity).
  replace (c / 256) with (c / 16 / 16) by (rewrite !N.Div0.div_div; reflexivity).
  pose proof (N.div_mod c 16 ltac:(discriminate)) as H0.
  pose proof (N.div_mod (c / 16) 16 ltac:(discriminate)) as H1.
  pose proof (N.div_mod (c / 16 / 16) 16 ltac:(discriminate)) as H2.
  pose proof (N.div_mod (c / 16 / 16 / 16) 16 ltac:(discriminate)) as H3.
  assert (c / 16 / 16 / 16 / 16 = 0) as H4.
  { rewrite !N.Div0.div_div. apply N.div_small. exact Hc. }
  lia.
Qed.

Lemma hex4_unicode_escape (c : N) :
  c < 65536 ->
  hex4 (hex_digit (c / 4096 mod 16)) (hex_digit (c / 256 mod 16))
       (hex_digit (c / 16 mod 16)) (hex_digit (c mod 16)) = Some c.
Proof.
  intros Hc. unfold hex4.
  rewrite !hex_of_hex_digit by (apply N.mod_lt; discriminate).
  f_equal. apply nibbles_reassemble, Hc.
Qed.

Lemma read_chars_unicode_escape (c : N) (x : jsstring) :
  c < 65536 ->
  read_chars (unicode_escape c ++ x) = cons_unit c (read_chars x).
Proof.
  intros Hc. unfold unicode_escape.
  cbn [app read_chars].
  change (92 =? 34) with false. change (92 =? 92) with true.
  change (117 =? 117) with true. cbv iota.
  rewrite hex4_unicode_escape by exact Hc. reflexivity.
Qed.

(** A unit that [escape_unit] copies is read as itself. *)
Lemma read_chars_literal (c : N) (x : jsstring) :
  c <> 34 -> c <> 92 -> 32 <= c ->
  read_chars (c :: x) = cons_unit c (read_chars x).
Proof.
  intros H34 H92 H32. cbn [read_chars].
  rewrite (proj2 (N.eqb_neq c 34) H34), (proj2 (N.eqb_neq c 92) H92).
  rewrite (proj2 (N.ltb_ge c 32) H32). reflexivity.
Qed.

Lemma read_chars_escape_unit (c : N) (x : jsstring) :
  read_chars (escape_unit c ++ x) = cons_unit c (read_chars x).
Proof.
  unfold escape_unit.
  repeat match goal with
         | |- context [if ?a =? ?b then _ else _] =>
             destruct (N.eqb_spec a b) as [-> | ?]; [reflexivity |]
         end.
  destruct (N.ltb_spec c 32) as [Hlt | Hge].
  - apply read_chars_unicode_escape. lia.
  - apply read_chars_literal; assumption.
Qed.

Lemma read_chars_surrogate (c : N) (x : jsstring) :
  55296 <= c <= 57343 ->
  read_chars (c :: x) = cons_unit c (read_chars x).
Proof. intros Hc. apply read_chars_literal; lia. Qed.

Lemma surrogate_range (c : N) :
  is_high_surrogate c || is_low_surrogate c = true -> 55296 <= c <= 57343.
Proof.
  unfold is_high_surrogate, is_low_surrogate.
  rewrite orb_true_iff, !andb_true_iff, !N.leb_le. lia.
Qed.

Lemma read_chars_quote_units (s x : jsstring) :
  read_chars (quote_units s ++ 34 :: x) = Some (s, x).
Proof.
  remember (length s) as n eqn:Hn.
  revert s Hn. induction (lt_wf n) as [n _ IH]. intros s Hn.
  destruct s as [| c rest]; [reflexivity |].
  cbn [quote_units].
  destruct (is_high_surrogate c) eqn:Hhi.
  - assert (55296 <= c <= 57343) as Hc
        by (apply surrogate_range; rewrite Hhi; reflexivity).
    destruct rest as [| d rest'].
    + rewrite read_chars_unicode_escape by lia. reflexivity.
    + destruct (is_low_surrogate d) eqn:Hlo.
      * assert (55296 <= d <= 57343) as Hd
            by (apply surrogate_range; rewrite Hlo; apply orb_true_r).
        cbn [app]. rewrite !read_chars_surrogate by assumption.
        rewrite (IH (length rest')) with (s := rest'); [reflexivity | | reflexivity].
        subst n. cbn [length]. lia.
      * rewrite <- app_assoc, read_chars_unicode_escape by lia.
        rewrite (IH (length (d :: rest'))) with (s := d :: rest');
          [reflexivity | | reflexivity].
        subst n. cbn [length]. lia.
  - assert (read_chars (quote_units rest ++ 34 :: x) = Some (rest, x)) as Hrest.
    { apply (IH (length rest)); [| reflexivity]. subst n. cbn [length]. lia. }
    destruct (is_low_surrogate c) eqn:Hlo.
    + assert (55296 <= c <= 57343) as Hc
          by (apply surrogate_range; rewrite Hlo; apply orb_true_r).
      rewrite <- app_assoc, read_chars_unicode_escape by lia.
      rewrite Hrest. reflexivity.
    + rewrite <- app_assoc, read_chars_escape_unit, Hrest. reflexivity.
Qed.

Lemma parse_string_quote (s x : jsstring) :
  parse_string (quote s ++ x) = POk s x.
Proof.
  unfold quote. cbn [app parse_string]. change (34 =? 34) with true. cbv iota.
  rewrite <- app_assoc. cbn [app].
  rewrite read_chars_quote_units. reflexivity.
Qed.

End JSONFacts.

Module NumberFacts.
Import JSON.

Lemma read_digits_stop (x : jsstring) :
  no_digit_ahead x -> read_digits x = (Nil, x).
Proof.
  destruct x as [| c x]; [reflexivity |].
  cbn [no_digit_ahead read_digits]. intros ->. reflexivity.
Qed.

Lemma read_digits_digits (u : uint) (x : jsstring) :
  no_digit_ahead x -> read_digits (digits_of_uint u ++ x) = (u, x).
Proof.
  intros Hx. induction u as [| u IH | u IH | u IH | u IH | u IH
                             | u IH | u IH | u IH | u IH | u IH];
    cbn [digits_of_uint app];
    [ apply read_digits_stop, Hx | .. ];
    cbn [read_digits]; rewrite IH; reflexivity.
Qed.

(** The numeral of a positive number does not start with a zero. *)
Lemma to_uint_head (p : positive) :
  Pos.to_uint p <> Nil /\ forall u, Pos.to_uint p <> D0 u.
Proof.
  split; [apply DecimalPos.Unsigned.to_uint_nonnil |].
  intros u Hu.
  pose proof (DecimalPos.Unsigned.to_of (Pos.to_uint p)) as Hn.
  rewrite DecimalPos.Unsigned.of_to in Hn. cbn [N.to_uint] in Hn.
  rewrite Hu in Hn. rewrite unorm_D0 in Hn.
  unfold unorm in Hn. destruct (nzhead u) eqn:Hz;
    try (symmetry in Hn; revert Hn; rewrite <- Hz; apply nzhead_nonzero).
  injection Hn as Hn. subst u.
  exact (DecimalPos.Unsigned.to_uint_nonzero p Hu).
Qed.

Lemma read_int_digits (n : N) (x : jsstring) :
  no_digit_ahead x -> read_int (digits_of_N n ++ x) = Some (N.to_uint n, x).
Proof.
  intros Hx. unfold digits_of_N.
  destruct n as [| p]; [reflexivity |].
  cbn [N.to_uint]. destruct (to_uint_head p) as [Hnil Hzero].
  pose proof (read_digits_digits (Pos.to_uint p) x Hx) as Hread.
  destruct (Pos.to_uint p) as [| u | u | u | u | u | u | u | u | u | u];
    try (exfalso; apply Hnil; reflexivity);
    try (exfalso; apply (Hzero u); reflexivity);
    cbn [digits_of_uint app] in *; unfold read_int;
    match goal with
    | |- context [?a =? 48] => change (a =? 48) with false
    end; cbv iota; rewrite Hread; reflexivity.
Qed.

Lemma number_to_string_integer (z : Z) :
  (Z.abs z < 2 ^ 53)%Z ->
  number_to_string (number_of_Z z) = Some (integer_text z).
Proof.
  intros Hz. unfold number_to_string, number_of_Z, integer_text.
  change (0 =? 0)%Z with true.
  replace (Z.abs_N z <? 2 ^ 53) with true by (symmetry; apply N.ltb_lt; lia).
  cbn [andb]. do 2 f_equal.
  destruct (Z.ltb_spec z 0); [| reflexivity].
  replace (Z.abs_N z =? 0) with false by (symmetry; apply N.eqb_neq; lia).
  reflexivity.
Qed.

Lemma parse_number_integer (z : Z) (x : jsstring) :
  number_ends x ->
  parse_number (integer_text z ++ x) = POk (number_of_Z z) x.
Proof.
  intros Hx.
  assert (no_digit_ahead x) as Hd by (destruct x; [exact I | apply Hx]).
  assert (read_frac x = Some (Nil, x)) as Hfrac.
  { destruct x as [| c x]; [reflexivity |]. destruct Hx as (_ & H46 & _).
    cbn [read_frac]. rewrite (proj2 (N.eqb_neq c 46) H46). reflexivity. }
  assert (read_exp x = Some (0%Z, x)) as Hexp.
  { destruct x as [| c x]; [reflexivity |]. destruct Hx as (_ & _ & H101 & H69).
    cbn [read_exp].
    rewrite (proj2 (N.eqb_neq c 101) H101), (proj2 (N.eqb_neq c 69) H69).
    reflexivity. }
  assert (forall s, s = digits_of_N (Z.abs_N z) ++ x ->
            match read_int s with
            | Some (i, s2) =>
                match read_frac s2 with
                | Some (f, s3) =>
                    match read_exp s3 with
                    | Some (e, s4) =>
                        POk (Finite (z <? 0)%Z (N.of_uint (Decimal.app i f))
                               (e - Z.of_nat (nb_digits f))%Z) s4
                    | None => PError
                    end
                | None => PError
                end
            | None => PError
            end = POk (number_of_Z z) x) as Hbody.
  { intros s ->. rewrite read_int_digits by exact Hd.
    rewrite Hfrac, Hexp, DecimalFacts.app_nil_r, DecimalN.Unsigned.of_to. reflexivity. }
  unfold parse_number, integer_text.
  destruct (Z.ltb_spec z 0) as [Hneg | Hpos].
  - cbn [app]. change (45 =? 45) with true. cbv iota.
    apply (Hbody _ eq_refl).
  - cbn [app].
    pose proof (read_int_digits (Z.abs_N z) x Hd) as Hr.
    specialize (Hbody _ eq_refl).
    destruct (digits_of_N (Z.abs_N z) ++ x) as [| c s]; [exact Hbody |].
    destruct (N.eqb_spec c 45) as [-> | _]; [discriminate Hr | exact Hbody].
Qed.

End NumberFacts.

Module PayloadFacts.
Import JSON JSONFacts NumberFacts.

Lemma parse_value_string (n : nat) (s x : jsstring) :
  parse_value (S n) (quote s ++ x) = POk (JString s) x.
Proof.
  pose proof (parse_string_quote s x) as Hq.
  unfold quote in *. cbn [app] in *. cbn [parse_value skip_ws].
  change (is_ws 34) with false. cbv iota.
  change (34 =? 123) with false. change (34 =? 91) with false.
  change (34 =? 34) with true. cbv iota.
  rewrite Hq. reflexivity.
Qed.

Lemma parse_value_true (n : nat) (x : jsstring) :
  parse_value (S n) (js "true" ++ x) = POk (JBool true) x.
Proof.
  reflexivity.
Qed.

Lemma digits_head (u : uint) :
  u <> Nil ->
  exists c s, digits_of_uint u = c :: s /\ 48 <= c <= 57.
Proof.
  destruct u; [congruence | ..]; intros _; cbn [digits_of_uint];
    eexists _, _; (split; [reflexivity | lia]).
Qed.

Lemma integer_text_head (z : Z) :
  exists c s, integer_text z = c :: s /\ (c = 45 \/ 48 <= c <= 57).
Proof.
  unfold integer_text. destruct (z <? 0)%Z.
  - eexists _, _. split; [reflexivity | left; reflexivity].
  - cbn [app]. unfold digits_of_N.
    destruct (digits_head (N.to_uint (Z.abs_N z))) as (c & s & Hc & Hr).
    + destruct (Z.abs_N z); [discriminate | apply DecimalPos.Unsigned.to_uint_nonnil].
    + exists c, s. split; [exact Hc | right; exact Hr].
Qed.

Lemma parse_value_integer (n : nat) (z : Z) (x : jsstring) :
  number_ends x ->
  parse_value (S n) (integer_text z ++ x) = POk (JNumber (number_of_Z z)) x.
Proof.
  intros Hx. pose proof (parse_number_integer z x Hx) as Hp.
  destruct (integer_text_head z) as (c & s & Hc & Hr).
  rewrite Hc in *. cbn [app] in *. cbn [parse_value skip_ws].
  assert (is_ws c = false) as ->.
  { unfold is_ws. rewrite !orb_false_iff, !N.eqb_neq. lia. }
  cbv iota.
  repeat match goal with
         | |- context [c =? ?k] =>
             rewrite (proj2 (N.eqb_neq c k)) by lia
         end.
  rewrite Hp. reflexivity.
Qed.

Lemma skip_ws_quote (s x : jsstring) : skip_ws (quote s ++ x) = quote s ++ x.
Proof. reflexivity. Qed.

(** One member of an object, followed by a comma. *)
Lemma parse_members_next (n : nat) acc (k vtext rest : jsstring) (v : json) :
  parse_value n (vtext ++ 44 :: rest) = POk v (44 :: rest) ->
  parse_members (S n) acc (quote k ++ 58 :: vtext ++ 44 :: rest)
  = parse_members n (member_set acc k v) rest.
Proof.
  intros Hv. cbn [parse_members]. rewrite skip_ws_quote, parse_string_quote.
  cbn [skip_ws]. change (is_ws 58) with false. cbv iota.
  change (58 =? 58) with true. cbv iota. rewrite Hv.
  cbn [skip_ws]. change (is_ws 44) with false. cbv iota.
  change (44 =? 44) with true. reflexivity.
Qed.

(** The last member of an object. *)
Lemma parse_members_last (n : nat) acc (k vtext rest : jsstring) (v : json) :
  parse_value n (vtext ++ 125 :: rest) = POk v (125 :: rest) ->
  parse_members (S n) acc (quote k ++ 58 :: vtext ++ 125 :: rest)
  = POk (JObject (member_set acc k v)) rest.
Proof.
  intros Hv. cbn [parse_members]. rewrite skip_ws_quote, parse_string_quote.
  cbn [skip_ws]. change (is_ws 58) with false. cbv iota.
  change (58 =? 58) with true. cbv iota. rewrite Hv.
  cbn [skip_ws]. change (is_ws 125) with false. cbv iota.
  change (125 =? 44) with false. change (125 =? 125) with true. reflexivity.
Qed.

Lemma stringify_payload (m c : jsstring) (r : Z) :
  (Z.abs r < 2 ^ 53)%Z ->
  stringify (payload m c r) = Some (payload_text m c r).
Proof.
  intros Hr. pose proof (number_to_string_integer r Hr) as Hn.
  unfold payload, payload_text, number_of_Z in *. cbn [stringify collect].
  change (is_numeral (js "libsqlError")) with false.
  change (is_numeral (js "message")) with false.
  change (is_numeral (js "code")) with false.
  change (is_numeral (js "rawCode")) with false.
  cbv iota. rewrite Hn. cbn [join].
  repeat (progress cbn [app] || rewrite <- app_assoc). reflexivity.
Qed.

Lemma parse_value_object (n : nat) (k x : jsstring) :
  parse_value (S n) (123 :: quote k ++ x) = parse_members n [] (quote k ++ x).
Proof. reflexivity. Qed.

Lemma parse_payload_text (m c : jsstring) (r : Z) :
  parse (payload_text m c r) = Some (payload m c r).
Proof.
  unfold parse.
  assert (exists n, fuel_for (payload_text m c r) = S (S (S (S (S (S n))))))
    as [n ->].
  { assert (exists t, payload_text m c r = 123 :: 34 :: t) as [t Ht]
      by (eexists; reflexivity).
    exists (2 * length t)%nat. rewrite Ht. unfold fuel_for. cbn [length]. lia. }
  unfold payload_text. cbn [app].
  rewrite parse_value_object.
  rewrite (parse_members_next _ _ _ _ _ (JBool true)) by apply parse_value_true.
  rewrite (parse_members_next _ _ _ _ _ (JString m)) by apply parse_value_string.
  rewrite (parse_members_next _ _ _ _ _ (JString c)) by apply parse_value_string.
  rewrite (parse_members_last _ _ _ _ _ (JNumber (number_of_Z r)))
    by (apply parse_value_integer; cbn; repeat split; discriminate).
  reflexivity.
Qed.

End PayloadFacts.

(** ** The recursion budget of [JSON.parse] is enough *)

Module FuelFacts.
Import JSON.

Lemma skip_ws_length (s : jsstring) : (length (skip_ws s) <= length s)%nat.
Proof.
  induction s as [| c s IH]; cbn [skip_ws length]; [lia |].
  destruct (is_ws c); cbn [length]; lia.
Qed.

Lemma cons_unit_inv c r str rest :
  cons_unit c r = Some (str, rest) ->
  exists str', r = Some (str', rest) /\ str = c :: str'.
Proof.
  destruct r as [[str' rest'] |]; cbn; [| discriminate].
  intros [= <- <-]. eauto.
Qed.

Lemma read_chars_length (s str rest : jsstring) :
  read_chars s = Some (str, rest) -> (length rest < length s)%nat.
Proof.
  remember (length s) as n eqn:Hn. revert s str rest Hn.
  induction (lt_wf n) as [n _ IH]. intros s str rest Hn.
  destruct s as [| c s]; [discriminate |]. cbn [read_chars].
  destruct (c =? 34).
  { intros [= <- <-]. subst n. cbn [length]. lia. }
  destruct (c =? 92).
  - destruct s as [| x s]; [discriminate |].
    destruct (x =? 117).
    + destruct s as [| h1 [| h2 [| h3 [| h4 s]]]]; try discriminate.
      destruct (hex4 h1 h2 h3 h4); [| discriminate].
      intros Hc. apply cons_unit_inv in Hc as (str' & Hr & _).
      apply (IH (length s)) in Hr; subst n; cbn [length] in *; [lia | lia | reflexivity].
    + destruct (simple_escape x); [| discriminate].
      intros Hc. apply cons_unit_inv in Hc as (str' & Hr & _).
      apply (IH (length s)) in Hr; subst n; cbn [length] in *; [lia | lia | reflexivity].
  - destruct (c <? 32); [discriminate |].
    intros Hc. apply cons_unit_inv in Hc as (str' & Hr & _).
    apply (IH (length s)) in Hr; subst n; cbn [length] in *; [lia | lia | reflexivity].
Qed.

Lemma parse_string_length (s str rest : jsstring) :
  parse_string s = POk str rest -> (length rest < length s)%nat.
Proof.
  destruct s as [| c s]; [discriminate |]. cbn [parse_string].
  destruct (c =? 34); [| discriminate].
  destruct (read_chars s) as [[str' rest'] |] eqn:Hr; [| discriminate].
  intros [= <- <-]. apply read_chars_length in Hr. cbn [length]. lia.
Qed.

Lemma read_digits_length (s : jsstring) :
  (length (snd (read_digits s)) <= length s)%nat.
Proof.
  induction s as [| c s IH]; cbn [read_digits]; [cbn; lia |].
  destruct (digit_of c) as [d |]; [| cbn; lia].
  destruct (read_digits s) as [u r]. cbn [snd length] in *. lia.
Qed.

Lemma parse_number_length (s : jsstring) (x : number) (rest : jsstring) :
  parse_number s = POk x rest -> (length rest <= length s)%nat.
Proof.
  unfold parse_number.
  set (p := match s with
            | c :: rest0 => if c =? 45 then (true, rest0) else (false, s)
            | [] => (false, s)
            end).
  assert (length (snd p) <= length s)%nat as Hp.
  { subst p. destruct s as [| c s]; [cbn; lia |].
    destruct (c =? 45); cbn [snd length]; lia. }
  destruct p as [neg s1]. cbn [snd] in Hp.
  destruct (read_int s1) as [[i s2] |] eqn:Hi; [| discriminate].
  assert (length s2 <= length s1)%nat as H2.
  { unfold read_int in Hi. destruct s1 as [| c s1]; [discriminate |].
    destruct (c =? 48).
    - injection Hi as <- <-. cbn [length]. lia.
    - pose proof (read_digits_length (c :: s1)) as Hd.
      destruct (read_digits (c :: s1)) as [u r]. cbn [snd] in Hd.
      destruct u; try discriminate; injection Hi as <- <-; exact Hd. }
  destruct (read_frac s2) as [[f s3] |] eqn:Hf; [| discriminate].
  assert (length s3 <= length s2)%nat as H3.
  { unfold read_frac in Hf. destruct s2 as [| c s2]; [injection Hf as <- <-; lia |].
    destruct (c =? 46).
    - pose proof (read_digits_length s2) as Hd.
      destruct (read_digits s2) as [u r]. cbn [snd] in Hd.
      destruct u; try discriminate; injection Hf as <- <-; cbn [length]; lia.
    - injection Hf as <- <-. lia. }
  destruct (read_exp s3) as [[ex s4] |] eqn:He; [| discriminate].
  assert (length s4 <= length s3)%nat as H4.
  { unfold read_exp in He. destruct s3 as [| c s3]; [injection He as <- <-; lia |].
    destruct ((c =? 101) || (c =? 69)); [| injection He as <- <-; lia].
    set (q := match s3 with
              | d :: rest' =>
                  if d =? 45 then (true, rest')
                  else if d =? 43 then (false, rest') else (false, s3)
              | [] => (false, s3)
              end) in He.
    assert (length (snd q) <= length s3)%nat as Hq.
    { subst q. destruct s3 as [| d s3]; [cbn; lia |].
      destruct (d =? 45); [cbn [snd length]; lia |].
      destruct (d =? 43); cbn [snd length]; lia. }
    destruct q as [sgn s3']. cbn [snd] in Hq.
    pose proof (read_digits_length s3') as Hd.
    destruct (read_digits s3') as [u r]. cbn [snd] in Hd.
    destruct u; try discriminate; injection He as <- <-; cbn [length]; lia. }
  intros [= <- <-]. lia.
Qed.

Lemma expect_length (word s rest : jsstring) :
  expect word s = Some rest -> (length rest <= length s)%nat.
Proof.
  revert s. induction word as [| w word IH]; intros s; cbn [expect].
  - intros [= <-]. lia.
  - destruct s as [| c s]; [discriminate |].
    destruct (c =? w); [| discriminate].
    intros Hr. apply IH in Hr. cbn [length]. lia.
Qed.

Lemma parse_literal_length word v s v' rest :
  parse_literal word v s = POk v' rest -> (length rest <= length s)%nat.
Proof.
  unfold parse_literal. destruct (expect word s) eqn:He; [| discriminate].
  intros [= <- <-]. exact (expect_length _ _ _ He).
Qed.

(** No parsing function hands back more input than it was given. *)
Lemma parse_lengths (n : nat) :
  (forall s v rest, parse_value n s = POk v rest -> (length rest <= length s)%nat)
  /\ (forall acc s v rest,
        parse_elements n acc s = POk v rest -> (length rest <= length s)%nat)
  /\ (forall acc s v rest,
        parse_members n acc s = POk v rest -> (length rest <= length s)%nat).
Proof.
  induction n as [| n (IHv & IHe & IHm)]; [repeat split; discriminate |].
  repeat split.
  - intros s v rest. cbn [parse_value].
    pose proof (skip_ws_length s) as Hs.
    destruct (skip_ws s) as [| c s1]; [discriminate |]. cbn [length] in Hs.
    destruct (c =? 123).
    { pose proof (skip_ws_length s1) as Hs1.
      destruct (skip_ws s1) as [| d s2]; [discriminate |]. cbn [length] in Hs1.
      destruct (d =? 125).
      - intros [= <- <-]. lia.
      - intros Hm. apply IHm in Hm. cbn [length] in Hm. lia. }
    destruct (c =? 91).
    { pose proof (skip_ws_length s1) as Hs1.
      destruct (skip_ws s1) as [| d s2]; [discriminate |]. cbn [length] in Hs1.
      destruct (d =? 93).
      - intros [= <- <-]. lia.
      - intros He. apply IHe in He. cbn [length] in He. lia. }
    destruct (c =? 34).
    { destruct (parse_string (c :: s1)) as [str r | |] eqn:Hp; try discriminate.
      intros [= <- <-]. apply parse_string_length in Hp. cbn [length] in Hp. lia. }
    destruct (c =? 116).
    { intros Hl. apply parse_literal_length in Hl. cbn [length] in Hl. lia. }
    destruct (c =? 102).
    { intros Hl. apply parse_literal_length in Hl. cbn [length] in Hl. lia. }
    destruct (c =? 110).
    { intros Hl. apply parse_literal_length in Hl. cbn [length] in Hl. lia. }
    destruct (parse_number (c :: s1)) as [x r | |] eqn:Hp; try discriminate.
    intros [= <- <-]. apply parse_number_length in Hp. cbn [length] in Hp. lia.
  - intros acc s v rest. cbn [parse_elements].
    destruct (parse_value n s) as [x r | |] eqn:Hv; try discriminate.
    apply IHv in Hv. pose proof (skip_ws_length r) as Hr.
    destruct (skip_ws r) as [| c r1]; [discriminate |]. cbn [length] in Hr.
    destruct (c =? 44).
    { intros He. apply IHe in He. lia. }
    destruct (c =? 93); [| discriminate].
    intros [= <- <-]. lia.
  - intros acc s v rest. cbn [parse_members].
    pose proof (skip_ws_length s) as Hs.
    destruct (parse_string (skip_ws s)) as [k r | |] eqn:Hk; try discriminate.
    apply parse_string_length in Hk. pose proof (skip_ws_length r) as Hr.
    destruct (skip_ws r) as [| c r1]; [discriminate |]. cbn [length] in Hr.
    destruct (c =? 58); [| discriminate].
    destruct (parse_value n r1) as [x r2 | |] eqn:Hv; try discriminate.
    apply IHv in Hv. pose proof (skip_ws_length r2) as Hr2.
    destruct (skip_ws r2) as [| d r3]; [discriminate |]. cbn [length] in Hr2.
    destruct (d =? 44).
    { intros Hm. apply IHm in Hm. lia. }
    destruct (d =? 125); [| discriminate].
    intros [= <- <-]. lia.
Qed.

Lemma parse_string_fuel (s : jsstring) : parse_string s <> POutOfFuel.
Proof.
  destruct s as [| c s]; [discriminate |]. cbn [parse_string].
  destruct (c =? 34); [| discriminate].
  destruct (read_chars s) as [[str rest] |]; discriminate.
Qed.

Lemma parse_number_fuel (s : jsstring) : parse_number s <> POutOfFuel.
Proof.
  unfold parse_number.
  destruct (match s with
            | c :: rest0 => if c =? 45 then (true, rest0) else (false, s)
            | [] => (false, s)
            end) as [neg s1].
  destruct (read_int s1) as [[i s2] |]; [| discriminate].
  destruct (read_frac s2) as [[f s3] |]; [| discriminate].
  destruct (read_exp s3) as [[ex s4] |]; discriminate.
Qed.

Lemma parse_literal_fuel word v s : parse_literal word v s <> POutOfFuel.
Proof. unfold parse_literal. destruct (expect word s); discriminate. Qed.

(** With a budget of twice the length of the input and one more, no
    parsing function runs out. *)
Lemma parse_fuel (n : nat) :
  (forall s, (2 * length s + 1 <= n)%nat -> parse_value n s <> POutOfFuel)
  /\ (forall acc s, (2 * length s + 2 <= n)%nat -> parse_elements n acc s <> POutOfFuel)
  /\ (forall acc s, (2 * length s + 2 <= n)%nat -> parse_members n acc s <> POutOfFuel).
Proof.
  induction n as [| n (IHv & IHe & IHm)]; [repeat split; intros; lia |].
  destruct (parse_lengths n) as (Lv & _ & _).
  repeat split.
  - intros s Hn. cbn [parse_value].
    pose proof (skip_ws_length s) as Hs.
    destruct (skip_ws s) as [| c s1]; [discriminate |]. cbn [length] in Hs.
    destruct (c =? 123).
    { pose proof (skip_ws_length s1) as Hs1.
      destruct (skip_ws s1) as [| d s2]; [discriminate |]. cbn [length] in Hs1.
      destruct (d =? 125); [discriminate |].
      apply IHm. cbn [length]. lia. }
    destruct (c =? 91).
    { pose proof (skip_ws_length s1) as Hs1.
      destruct (skip_ws s1) as [| d s2]; [discriminate |]. cbn [length] in Hs1.
      destruct (d =? 93); [discriminate |].
      apply IHe. cbn [length]. lia. }
    destruct (c =? 34).
    { pose proof (parse_string_fuel (c :: s1)).
      destruct (parse_string (c :: s1)); congruence. }
    destruct (c =? 116); [apply parse_literal_fuel |].
    destruct (c =? 102); [apply parse_literal_fuel |].
    destruct (c =? 110); [apply parse_literal_fuel |].
    pose proof (parse_number_fuel (c :: s1)).
    destruct (parse_number (c :: s1)); congruence.
  - intros acc s Hn. cbn [parse_elements].
    pose proof (IHv s ltac:(lia)) as Hv.
    destruct (parse_value n s) as [x r | |] eqn:Hp; [| discriminate | congruence].
    apply Lv in Hp. pose proof (skip_ws_length r) as Hr.
    destruct (skip_ws r) as [| c r1]; [discriminate |]. cbn [length] in Hr.
    destruct (c =? 44); [apply IHe; lia |].
    destruct (c =? 93); discriminate.
  - intros acc s Hn. cbn [parse_members].
    pose proof (skip_ws_length s) as Hs.
    pose proof (parse_string_fuel (skip_ws s)) as Hk.
    destruct (parse_string (skip_ws s)) as [k r | |] eqn:Hp; [| discriminate | congruence].
    apply parse_string_length in Hp. pose proof (skip_ws_length r) as Hr.
    destruct (skip_ws r) as [| c r1]; [discriminate |]. cbn [length] in Hr.
    destruct (c =? 58); [| discriminate].
    pose proof (IHv r1 ltac:(lia)) as Hv.
    destruct (parse_value n r1) as [x r2 | |] eqn:Hp2; [| discriminate | congruence].
    apply Lv in Hp2. pose proof (skip_ws_length r2) as Hr2.
    destruct (skip_ws r2) as [| d r3]; [discriminate |]. cbn [length] in Hr2.
    destruct (d =? 44); [apply IHm; lia |].
    destruct (d =? 125); discriminate.
Qed.

(** [JSON.parse] never gives up for lack of budget: [None] is a syntax
    error in the text. *)
Lemma parse_value_fuel (s : jsstring) :
  parse_value (fuel_for s) s <> POutOfFuel.
Proof.
  destruct (parse_fuel (fuel_for s)) as (Hv & _ & _).
  apply Hv. unfold fuel_for. lia.
Qed.

End FuelFacts.

(** ** [JSON.parse] after [JSON.stringify] *)

Module RoundTrip.
Import JSON JSONFacts NumberFacts PayloadFacts.

Lemma json_induction (P : json -> Prop) :
  P JNull ->
  (forall b, P (JBool b)) ->
  (forall x, P (JNumber x)) ->
  (forall s, P (JString s)) ->
  (forall items, Forall P items -> P (JArray items)) ->
  (forall members, Forall (fun member => P (snd member)) members -> P (JObject members)) ->
  forall v, P v.
Proof.
  intros Hnull Hbool Hnum Hstr Harr Hobj.
  fix induction_on 1. intros [| b | x | s | items | members].
  - exact Hnull.
  - apply Hbool.
  - apply Hnum.
  - apply Hstr.
  - apply Harr.
    induction items as [| v items IH]; constructor; [apply induction_on | exact IH].
  - apply Hobj.
    induction members as [| [k v] members IH]; constructor;
      [apply induction_on | exact IH].
Qed.

Lemma number_ends_after (c : N) (x : jsstring) :
  c = 44 \/ c = 93 \/ c = 125 -> number_ends (c :: x).
Proof. intros [-> | [-> | ->]]; cbn; repeat split; discriminate. Qed.

Lemma reads_back_literal (word : jsstring) (v : json) :
  (word = js "null" /\ v = JNull)
  \/ (word = js "true" /\ v = JBool true)
  \/ (word = js "false" /\ v = JBool false) ->
  reads_back v word.
Proof.
  intros [[-> ->] | [[-> ->] | [-> ->]]];
    (split; [cbn; repeat split; discriminate |]);
    (split; [cbn; lia |]);
    intros [| n] x Hn _; cbn [need] in Hn; try lia; reflexivity.
Qed.

Lemma reads_back_string (s : jsstring) : reads_back (JString s) (quote s).
Proof.
  split; [cbn; repeat split; discriminate |].
  split; [cbn; lia |].
  intros [| n] x Hn _; cbn [need] in Hn; [lia |]. apply parse_value_string.
Qed.

Lemma stable_number (x : number) :
  number_stable x = true ->
  exists z, x = number_of_Z z /\ number_to_string x = Some (integer_text z).
Proof.
  destruct x as [neg m e | |]; try discriminate. cbn [number_stable].
  rewrite !andb_true_iff, negb_true_iff, andb_false_iff.
  intros [[He Hm] Hz]. apply Z.eqb_eq in He. apply N.ltb_lt in Hm. subst e.
  exists (if neg then (- Z.of_N m)%Z else Z.of_N m).
  assert (Finite neg m 0 = number_of_Z (if neg then (- Z.of_N m)%Z else Z.of_N m)) as Hx.
  { unfold number_of_Z. destruct neg.
    - destruct Hz as [Hz | Hz]; [discriminate |]. apply N.eqb_neq in Hz.
      replace (- Z.of_N m <? 0)%Z with true by (symmetry; apply Z.ltb_lt; lia).
      f_equal. lia.
    - replace (Z.of_N m <? 0)%Z with false by (symmetry; apply Z.ltb_ge; lia).
      f_equal. lia. }
  split; [exact Hx |]. rewrite Hx. apply number_to_string_integer.
  destruct neg; lia.
Qed.

Lemma reads_back_integer (z : Z) : reads_back (JNumber (number_of_Z z)) (integer_text z).
Proof.
  destruct (integer_text_head z) as (c & s & Hc & Hr).
  split; [| split].
  - rewrite Hc. cbn. unfold is_ws. rewrite !orb_false_iff, !N.eqb_neq. lia.
  - rewrite Hc. cbn. lia.
  - intros [| n] x Hn Hx; cbn [need] in Hn; [lia |].
    apply parse_value_integer, Hx.
Qed.

Lemma starts_value_app (t y : jsstring) : starts_value t -> starts_value (t ++ y).
Proof. destruct t; [contradiction | exact id]. Qed.

Lemma skip_ws_starts (text : jsstring) : starts_value text -> skip_ws text = text.
Proof.
  destruct text as [| c text]; [reflexivity |]. intros (Hws & _).
  cbn [skip_ws]. rewrite Hws. reflexivity.
Qed.

Lemma list_sum_step (a : nat) (l : list nat) : list_sum (a :: l) = (a + list_sum l)%nat.
Proof. reflexivity. Qed.

Lemma join_length (parts : list jsstring) :
  (list_sum (map (fun t => S (length t)) parts) <= S (length (join [44%N] parts)))%nat.
Proof.
  induction parts as [| t parts IH]; [cbn; lia |].
  destruct parts as [| t' parts]; [cbn; lia |].
  change (join [44] (t :: t' :: parts)) with (t ++ [44] ++ join [44] (t' :: parts)).
  cbn [map] in *. rewrite !list_sum_step in *. rewrite !length_app. cbn [length]. lia.
Qed.

(** The elements of an array, from the first to the closing bracket. *)
Lemma parse_elements_join (items : list json) (parts : list jsstring) :
  Forall2 reads_back items parts ->
  items <> [] ->
  forall acc n x,
    (list_sum (map (fun v => S (need v)) items) <= n)%nat ->
    parse_elements n acc (join [44] parts ++ 93 :: x) = POk (JArray (acc ++ items)) x.
Proof.
  induction 1 as [| v t items parts (Hstart & _ & Hv) Hrest IH]; [congruence |].
  intros _ acc n x Hn. cbn [map] in Hn. rewrite list_sum_step in Hn.
  destruct n as [| n]; [lia |]. cbn [parse_elements].
  destruct Hrest as [| v' t' items parts Hv' Hrest].
  - cbn [join].
    rewrite (Hv n (93 :: x)) by (try apply number_ends_after; auto; lia).
    reflexivity.
  - change (join [44] (t :: t' :: parts)) with (t ++ [44] ++ join [44] (t' :: parts)).
    rewrite <- !app_assoc. cbn [app].
    rewrite (Hv n (44 :: join [44] (t' :: parts) ++ 93 :: x))
      by (try apply number_ends_after; auto; lia).
    cbn [skip_ws]. change (is_ws 44) with false. cbv iota.
    change (44 =? 44) with true. cbv iota.
    rewrite (IH ltac:(discriminate) (acc ++ [v]) n x) by lia.
    rewrite <- app_assoc. reflexivity.
Qed.

Lemma reads_back_array (items : list json) (parts : list jsstring) :
  Forall2 reads_back items parts ->
  reads_back (JArray items) ([91] ++ join [44] parts ++ [93]).
Proof.
  intros Hall. split; [cbn; repeat split; discriminate |]. split.
  - cbn [need]. cbn [app length]. rewrite length_app. cbn [length].
    pose proof (join_length parts) as Hj.
    assert (list_sum (map (fun v => S (need v)) items)
            <= 2 * list_sum (map (fun t => S (length t)) parts))%nat as Hs.
    { clear Hj. induction Hall as [| v t items parts (_ & Hl & _) _ IH];
        cbn [map]; rewrite ?list_sum_step; [cbn |]; lia. }
    lia.
  - intros [| n] x Hn Hx; cbn [need] in Hn; [lia |].
    cbn [app]. rewrite <- app_assoc. cbn [app parse_value skip_ws].
    change (is_ws 91) with false. cbv iota.
    change (91 =? 123) with false. change (91 =? 91) with true. cbv iota.
    destruct Hall as [| v t items parts Hv Hrest].
    + reflexivity.
    + assert (starts_value (join [44] (t :: parts) ++ 93 :: x)) as Hstart.
      { destruct Hv as (Hstart & _). destruct parts as [| t' parts].
        - apply starts_value_app, Hstart.
        - change (join [44] (t :: t' :: parts))
            with (t ++ [44] ++ join [44] (t' :: parts)).
          rewrite <- app_assoc. apply starts_value_app, Hstart. }
      rewrite (skip_ws_starts _ Hstart).
      pose proof (parse_elements_join (v :: items) (t :: parts)
                    ltac:(constructor; assumption) ltac:(discriminate) [] n x
                    ltac:(lia)) as Hp.
      destruct (join [44] (t :: parts) ++ 93 :: x) as [| d rest'];
        [contradiction |].
      destruct Hstart as (_ & H93 & _).
      rewrite (proj2 (N.eqb_neq d 93) H93). exact Hp.
Qed.

Lemma member_set_fresh {A : Type} (acc : list (jsstring * A)) (k : jsstring) (v : A) :
  member_get acc k = None -> member_set acc k v = acc ++ [(k, v)].
Proof.
  induction acc as [| [k' v'] acc IH]; cbn [member_get member_set app];
    [reflexivity |].
  destruct (jsstring_eqb k' k); [discriminate |].
  intros H. rewrite IH by exact H. reflexivity.
Qed.

Lemma member_get_fresh {A : Type} (acc : list (jsstring * A)) (k k' : jsstring) (v : A) :
  member_get acc k' = None -> jsstring_eqb k' k = false ->
  member_get (acc ++ [(k, v)]) k' = None.
Proof.
  induction acc as [| [k0 v0] acc IH]; cbn [member_get app].
  - intros _ H. unfold jsstring_eqb in *. apply bool_decide_eq_false in H.
    rewrite bool_decide_eq_false_2 by congruence. reflexivity.
  - destruct (jsstring_eqb k0 k'); [discriminate | exact IH].
Qed.

(** The members of an object, from the first to the closing brace. *)
Lemma parse_members_join (ok : json -> bool) (members : list (jsstring * json))
  (parts : list jsstring) :
  Forall2 member_reads members parts ->
  members <> [] ->
  forall seen acc n x,
    members_ok ok seen members = true ->
    (forall k, key_in k seen = false -> member_get acc k = None) ->
    (list_sum (map (fun member : jsstring * json => S (need (snd member))) members)
     <= n)%nat ->
    parse_members n acc (join [44] parts ++ 125 :: x) = POk (JObject (acc ++ members)) x.
Proof.
  induction 1 as [| [k v] t members parts (p & -> & _ & _ & Hv) Hrest IH];
    [congruence |].
  intros _ seen acc n x Hok Hacc Hn. cbn [map snd fst] in *.
  rewrite list_sum_step in Hn. destruct n as [| n]; [lia |].
  cbn [members_ok] in Hok. rewrite !andb_true_iff, !negb_true_iff in Hok.
  destruct Hok as (((_ & Hk) & _) & Hok).
  pose proof (member_set_fresh acc k v (Hacc k Hk)) as Hset.
  destruct Hrest as [| m' t' members parts Hm' Hrest].
  - cbn [join]. rewrite <- app_assoc. cbn [app]. rewrite <- Hset.
    apply parse_members_last, Hv; [lia | apply number_ends_after; auto].
  - change (join [44] ((quote k ++ 58 :: p) :: t' :: parts))
      with ((quote k ++ 58 :: p) ++ [44] ++ join [44] (t' :: parts)).
    rewrite <- !app_assoc. cbn [app].
    rewrite (parse_members_next n acc k p _ v)
      by (apply Hv; [lia | apply number_ends_after; auto]).
    rewrite Hset.
    rewrite (IH ltac:(discriminate) (k :: seen) (acc ++ [(k, v)]) n x Hok).
    + rewrite <- app_assoc. reflexivity.
    + intros k' Hk'. unfold key_in in Hk'. cbn [existsb] in Hk'.
      apply orb_false_iff in Hk' as [Hne Hseen].
      apply member_get_fresh; [apply Hacc, Hseen | exact Hne].
    + lia.
Qed.

Lemma reads_back_object (members : list (jsstring * json)) (parts : list jsstring) :
  Forall2 member_reads members parts ->
  members_ok stable [] members = true ->
  reads_back (JObject members) ([123] ++ join [44] parts ++ [125]).
Proof.
  intros Hall Hok. split; [cbn; repeat split; discriminate |]. split.
  - cbn [need]. cbn [app length]. rewrite length_app. cbn [length].
    pose proof (join_length parts) as Hj.
    assert (list_sum (map (fun member : jsstring * json => S (need (snd member)))
                          members)
            <= 2 * list_sum (map (fun t => S (length t)) parts))%nat as Hs.
    { clear Hj Hok.
      induction Hall as [| [k v] t members parts (p & -> & _ & Hl & _) _ IH];
        cbn [map fst snd] in *; rewrite ?list_sum_step; [cbn; lia |].
      rewrite length_app. cbn [length]. lia. }
    lia.
  - intros [| n] x Hn Hx; cbn [need] in Hn; [lia |].
    cbn [app]. rewrite <- app_assoc. cbn [app].
    destruct Hall as [| [k v] t members parts Hm Hrest].
    + reflexivity.
    + pose proof (parse_members_join stable ((k, v) :: members) (t :: parts)
                    ltac:(constructor; assumption) ltac:(discriminate) [] [] n x
                    Hok ltac:(reflexivity) ltac:(lia)) as Hp.
      cbn [app] in Hp. rewrite <- Hp.
      destruct Hm as (p & -> & _). cbn [fst].
      destruct parts as [| t' parts].
      * cbn [join]. rewrite <- app_assoc. apply parse_value_object.
      * change (join [44] ((quote k ++ 58 :: p) :: t' :: parts))
          with ((quote k ++ 58 :: p) ++ [44] ++ join [44] (t' :: parts)).
        rewrite <- !app_assoc. apply parse_value_object.
Qed.

(** What [stringify] writes for a stable value is read back as that value. *)
Lemma stringify_reads_back (v : json) :
  stable v = true -> exists text, stringify v = Some text /\ reads_back v text.
Proof.
  induction v as [| b | x | s | items IH | members IH] using json_induction;
    cbn [stable]; intros Hst.
  - exists (js "null"). split; [reflexivity | apply reads_back_literal; auto].
  - destruct b; [exists (js "true") | exists (js "false")];
      (split; [reflexivity | apply reads_back_literal; auto]).
  - destruct (stable_number x Hst) as (z & -> & Hz).
    exists (integer_text z). split; [| apply reads_back_integer].
    unfold number_of_Z in *. exact Hz.
  - exists (quote s). split; [reflexivity | apply reads_back_string].
  - assert (exists parts, collect stringify items = Some parts
                          /\ Forall2 reads_back items parts) as (parts & Hc & Hall).
    { induction IH as [| v items Hv _ IHitems]; [exists []; split; [reflexivity | constructor] |].
      cbn [forallb] in Hst. apply andb_true_iff in Hst as [Hst1 Hst2].
      destruct (Hv Hst1) as (t & Ht & Hr).
      destruct (IHitems Hst2) as (parts & Hc & Hall).
      exists (t :: parts). cbn [collect]. rewrite Ht, Hc.
      split; [reflexivity | constructor; assumption]. }
    exists ([91] ++ join [44] parts ++ [93]). cbn [stringify]. rewrite Hc.
    split; [reflexivity | apply reads_back_array, Hall].
  - assert (forall seen, members_ok stable seen members = true ->
            exists parts,
              collect (fun member : jsstring * json =>
                         let '(k, x) := member in
                         if is_numeral k then None
                         else match stringify x with
                              | Some p => Some (quote k ++ [58] ++ p)
                              | None => None
                              end) members = Some parts
              /\ Forall2 member_reads members parts) as Hparts.
    { clear Hst. induction IH as [| [k v] members Hv _ IHmembers]; intros seen Hok;
        [exists []; split; [reflexivity | constructor] |].
      cbn [members_ok] in Hok. rewrite !andb_true_iff, !negb_true_iff in Hok.
      destruct Hok as (((Hnum & _) & Hst1) & Hok).
      destruct (Hv Hst1) as (t & Ht & Hr).
      destruct (IHmembers _ Hok) as (parts & Hc & Hall).
      exists ((quote k ++ [58] ++ t) :: parts). cbn [collect].
      rewrite Hnum. cbn [snd] in Ht. rewrite Ht, Hc.
      split; [reflexivity |]. constructor; [| exact Hall].
      exists t. split; [reflexivity | exact Hr]. }
    destruct (Hparts [] Hst) as (parts & Hc & Hall).
    exists ([123] ++ join [44] parts ++ [125]). cbn [stringify]. rewrite Hc.
    split; [reflexivity | apply reads_back_object; assumption].
Qed.

(** [JSON.parse (JSON.stringify v)] is [v], for every stable [v]. *)
Theorem parse_stringify (v : json) :
  stable v = true -> exists text, stringify v = Some text /\ parse text = Some v.
Proof.
  intros Hst. destruct (stringify_reads_back v Hst) as (text & Ht & _ & Hl & Hv).
  exists text. split; [exact Ht |]. unfold parse.
  rewrite <- (app_nil_r text) at 2.
  rewrite Hv by (unfold fuel_for; cbn; lia || exact I). reflexivity.
Qed.

End RoundTrip.

(** ** The monad *)

Section MonadFacts.
Context {W : Type}.

Lemma outcome_eta {A} (o : outcome W A) :
  Outcome (trace o) (final o) (result o) = o.
Proof. destruct o; reflexivity. Qed.

Lemma bind_ret {A B} (a : A) (f : A -> M W B) (e : env W) :
  bind (ret a) f e = f a e.
Proof. unfold bind, ret. cbn. apply outcome_eta. Qed.

Lemma bind_thrown {A B} (m : M W A) (f : A -> M W B) (e : env W) (v : value) :
  result (m e) = Throw v ->
  bind m f e = Outcome (trace (m e)) (final (m e)) (Throw v).
Proof. intros Hr. unfold bind. rewrite Hr. reflexivity. Qed.

(** A fresh location is not in the heap, so allocation leaves every
    object that was there as it was. *)
Lemma fresh_unused (h : gmap loc object) : h !! fresh (dom h) = None.
Proof. apply not_elem_of_dom, is_fresh. Qed.

Lemma alloc_extends (h : gmap loc object) (o : object) :
  h ⊆ <[fresh (dom h) := o]> h.
Proof. apply insert_subseteq, fresh_unused. Qed.

Lemma throw_new_outcome {A} (c : constructor) (message : jsstring) (e : env W) :
  @throw_new W A c message e
  = Outcome []
      (Env (<[fresh (dom (heap e)) :=
                Object (Instance c)
                  [(js "message", Property (VStr message) true false true)]]>
              (heap e))
           (world e))
      (Throw (VRef (fresh (dom (heap e))))).
Proof. reflexivity. Qed.

Lemma bind_of_ret {A B} (m : M W A) (f : A -> M W B) (e : env W) (a : A) :
  m e = ret a e -> bind m f e = f a e.
Proof. intros Hm. unfold bind. rewrite Hm. cbn. apply outcome_eta. Qed.

Lemma get_prop_some (v : value) (name : jsstring) (e : env W) (x : value) :
  lookup_prop (heap e) v name = Some x ->
  get_prop v name e = ret x e.
Proof. intros Hl. unfold get_prop. rewrite Hl. reflexivity. Qed.

(** Plain data is read without the heap, and only null has no
    properties. *)
Lemma lookup_prop_data (h h' : gmap loc object) (d : json) (name : jsstring) :
  lookup_prop h (VData d) name = lookup_prop h' (VData d) name.
Proof. destruct d; reflexivity. Qed.

Lemma lookup_prop_total (h : gmap loc object) (v : value) (name : jsstring) :
  nullish v = false -> is_Some (lookup_prop h v name).
Proof.
  destruct v as [| d | l | db | stmt]; [discriminate | | | |];
    try destruct d; try discriminate; intros _; cbn [lookup_prop]; eauto.
Qed.

Lemma truthy_not_nullish (v : value) : truthy v = true -> nullish v = false.
Proof. destruct v as [| d | | |]; try destruct d; cbn; congruence. Qed.

Lemma marker_read (d : json) (e : env W) :
  (if truthy (VData d) then get_prop (VData d) (js "libsqlError") else ret (VData d)) e
  = ret (marker_of d) e.
Proof.
  unfold marker_of. destruct (truthy (VData d)) eqn:Ht; [| reflexivity].
  destruct (lookup_prop_total (heap e) (VData d) (js "libsqlError")
              (truthy_not_nullish _ Ht)) as [x Hx].
  rewrite (get_prop_some _ _ _ _ Hx).
  rewrite (lookup_prop_data _ (heap e)), Hx. reflexivity.
Qed.

End MonadFacts.

(** ** [convertError] *)

Section ConvertErrorFacts.
Context {W : Type}.
Implicit Types (e : env W) (err : value).

(** The path through [convertError] that builds a [SqliteError]. *)
Lemma convertError_structured e err text d m c r :
  lookup_prop (heap e) err (js "message") = Some (VStr text) ->
  JSON.parse text = Some d ->
  truthy (marker_of d) = true ->
  lookup_prop (heap e) (VData d) (js "message") = Some m ->
  lookup_prop (heap e) (VData d) (js "code") = Some c ->
  lookup_prop (heap e) (VData d) (js "rawCode") = Some r ->
  convertError err e = new_SqliteError m c r e.
Proof.
  intros Hmsg Hparse Hmark Hm Hc Hr.
  unfold convertError.
  rewrite (bind_of_ret _ _ _ _ (get_prop_some _ _ _ _ Hmsg)).
  unfold VStr at 1. cbv iota. unfold JSON_parse. rewrite Hparse.
  unfold bind at 1. unfold try_catch.
  rewrite bind_ret, (bind_of_ret _ _ _ _ (marker_read d e)), Hmark.
  rewrite (bind_of_ret _ _ _ _ (get_prop_some _ _ _ _ Hm)).
  rewrite (bind_of_ret _ _ _ _ (get_prop_some _ _ _ _ Hc)).
  rewrite (bind_of_ret _ _ _ _ (get_prop_some _ _ _ _ Hr)).
  reflexivity.
Qed.

Lemma truthy_marker_data (d : json) :
  truthy (marker_of d) = true -> truthy (VData d) = true.
Proof.
  unfold marker_of. destruct (truthy (VData d)) eqn:Ht; [reflexivity |].
  rewrite Ht. discriminate.
Qed.

Lemma carries_marker_false (msg : value) :
  carries_marker msg = false <->
  (forall text, msg <> VStr text)
  \/ (exists text, msg = VStr text /\ JSON.parse text = None)
  \/ (exists text d,
        msg = VStr text /\ JSON.parse text = Some d /\ truthy (marker_of d) = false).
Proof.
  unfold carries_marker, VStr. split.
  - intros Hc. destruct msg as [| d | l | db | stmt]; try (left; discriminate).
    destruct d as [| b | x | text | items | members]; try (left; discriminate).
    right. destruct (JSON.parse text) as [d |] eqn:Hp; eauto 6.
  - intros [Hn | [(text & -> & ->) | (text & d & -> & -> & Hm)]]; try assumption;
      try reflexivity.
    destruct msg as [| d | l | db | stmt]; try reflexivity.
    destruct d as [| b | x | text | items | members]; try reflexivity.
    exfalso. exact (Hn text eq_refl).
Qed.

(** Every path through [convertError] but the one that builds a
    [SqliteError] returns [err]; a failed parse leaves a SyntaxError
    behind that nothing refers to. *)
Lemma convertError_unmarked e err msg :
  lookup_prop (heap e) err (js "message") = Some msg ->
  carries_marker msg = false ->
  result (convertError err e) = Normal err
  /\ trace (convertError err e) = []
  /\ world (final (convertError err e)) = world e
  /\ heap e ⊆ heap (final (convertError err e)).
Proof.
  intros Hmsg Hno. unfold convertError.
  rewrite (bind_of_ret _ _ _ _ (get_prop_some _ _ _ _ Hmsg)).
  assert (forall o : outcome W value,
            o = ret err e ->
            result o = Normal err /\ trace o = [] /\ world (final o) = world e
            /\ heap e ⊆ heap (final o)) as Hret.
  { intros o ->. cbn. auto. }
  destruct msg as [| d | l | db | stmt]; try (apply Hret; reflexivity).
  destruct d as [| b | x | text | items | members]; try (apply Hret; reflexivity).
  unfold carries_marker in Hno. unfold JSON_parse.
  destruct (JSON.parse text) as [d |] eqn:Hparse.
  - apply Hret. unfold bind at 1. unfold try_catch.
    rewrite bind_ret, (bind_of_ret _ _ _ _ (marker_read d e)), Hno.
    reflexivity.
  - unfold bind at 1. unfold try_catch, bind at 1.
    rewrite throw_new_outcome. cbn [result final trace ret app heap world].
    repeat split. apply alloc_extends.
Qed.

Lemma convertError_marked e err msg :
  lookup_prop (heap e) err (js "message") = Some msg ->
  carries_marker msg = true ->
  exists m c r, convertError err e = new_SqliteError m c r e.
Proof.
  intros Hmsg Hyes. unfold carries_marker in Hyes.
  destruct msg as [| d | l | db | stmt]; try discriminate.
  destruct d as [| b | x | text | items | members]; try discriminate.
  destruct (JSON.parse text) as [d |] eqn:Hparse; [| discriminate].
  pose proof (truthy_not_nullish _ (truthy_marker_data _ Hyes)) as Hnn.
  destruct (lookup_prop_total (heap e) (VData d) (js "message") Hnn) as [m Hm].
  destruct (lookup_prop_total (heap e) (VData d) (js "code") Hnn) as [c Hc].
  destruct (lookup_prop_total (heap e) (VData d) (js "rawCode") Hnn) as [r Hr].
  exists m, c, r.
  exact (convertError_structured e err text d m c r Hmsg Hparse Hyes Hm Hc Hr).
Qed.

Lemma get_prop_none (v : value) (name : jsstring) e :
  lookup_prop (heap e) v name = None ->
  get_prop v name e
  = throw_new CTypeError
      (js "Cannot read properties of undefined or null (reading '"
         ++ name ++ js "')") e.
Proof. intros Hnone. unfold get_prop. rewrite Hnone. reflexivity. Qed.

Lemma convertError_nullish e err :
  lookup_prop (heap e) err (js "message") = None ->
  convertError err e
  = throw_new CTypeError
      (js "Cannot read properties of undefined or null (reading '"
         ++ js "message" ++ js "')") e.
Proof.
  intros Hnone. unfold convertError.
  rewrite (bind_thrown _ _ _ (VRef (fresh (dom (heap e)))))
    by (rewrite (get_prop_none _ _ _ Hnone), throw_new_outcome; reflexivity).
  rewrite (get_prop_none _ _ _ Hnone), throw_new_outcome. reflexivity.
Qed.

Lemma lookup_prop_none (h : gmap loc object) (v : value) (name : jsstring) :
  lookup_prop h v name = None <-> nullish v = true.
Proof.
  destruct v as [| d | l | db | stmt]; try destruct d; cbn; split; congruence.
Qed.

(** [convertError] makes no call across the boundary and leaves the world
    and the objects of the heap as they are. *)
Lemma convertError_silent e err :
  trace (convertError err e) = []
  /\ world (final (convertError err e)) = world e
  /\ heap e ⊆ heap (final (convertError err e)).
Proof.
  destruct (lookup_prop (heap e) err (js "message")) as [msg |] eqn:Hmsg.
  - destruct (carries_marker msg) eqn:Hcm.
    + destruct (convertError_marked e err msg Hmsg Hcm) as (m & c & r & ->).
      unfold new_SqliteError, alloc. cbn [result final trace heap world].
      repeat split. apply alloc_extends.
    + destruct (convertError_unmarked e err msg Hmsg Hcm) as (_ & ? & ? & ?).
      auto.
  - rewrite (convertError_nullish e err Hmsg), throw_new_outcome.
    cbn [result final trace heap world]. repeat split. apply alloc_extends.
Qed.

End ConvertErrorFacts.

(** ** Calls into the engine *)

Section FacadeFacts.
Context {W : Type} `{Host W}.
Implicit Types (e : env W) (err this : value).

Lemma bind_outcome_normal {A B} (m : M W A) (f : A -> M W B) e t e' (a : A) :
  m e = Outcome t e' (Normal a) ->
  bind m f e = Outcome (t ++ trace (f a e')) (final (f a e')) (result (f a e')).
Proof. intros Hm. unfold bind. rewrite Hm. reflexivity. Qed.

Lemma bind_outcome_throw {A B} (m : M W A) (f : A -> M W B) e t e' v :
  m e = Outcome t e' (Throw v) ->
  bind m f e = Outcome t e' (Throw v).
Proof. intros Hm. unfold bind. rewrite Hm. reflexivity. Qed.

Lemma try_catch_outcome_normal {A} (m : M W A) (h : value -> M W A) e t e' (a : A) :
  m e = Outcome t e' (Normal a) ->
  try_catch m h e = Outcome t e' (Normal a).
Proof. intros Hm. unfold try_catch. rewrite Hm. reflexivity. Qed.

Lemma try_catch_outcome_throw {A} (m : M W A) (h : value -> M W A) e t e' v :
  m e = Outcome t e' (Throw v) ->
  try_catch m h e = Outcome (t ++ trace (h v e')) (final (h v e')) (result (h v e')).
Proof. intros Hm. unfold try_catch. rewrite Hm. reflexivity. Qed.

Lemma boundary_outcome {A} (ev : event) (f : env W -> env W * completion A) e e' r :
  f e = (e', r) -> boundary ev f e = Outcome [ev] e' r.
Proof. intros Hf. unfold boundary. rewrite Hf. reflexivity. Qed.

(** [throw convertError(err)] *)
Lemma rethrow_outcome {A} err e :
  bind (convertError err) (fun x => @throw W A x) e
  = Outcome [] (final (convertError err e)) (Throw (rethrown (convertError err e))).
Proof.
  destruct (convertError_silent e err) as (Ht & _ & _).
  unfold bind, rethrown. destruct (result (convertError err e)); cbn; rewrite Ht; reflexivity.
Qed.

(** The body of the [try] in an entry of the facade, when the native call
    comes out as [r]. *)
Lemma engine_step {A} (v : value) (field : jsstring) (ev : value -> event)
  (f : value -> env W -> env W * completion A) (k : A -> M W value)
  e handle e' (r : completion A) :
  lookup_prop (heap e) v field = Some handle ->
  f handle e = (e', r) ->
  (do h <- get_prop v field; do x <- boundary (ev h) (f h); k x) e
  = match r with
    | Normal a => Outcome ([ev handle] ++ trace (k a e')) (final (k a e')) (result (k a e'))
    | Throw err => Outcome [ev handle] e' (Throw err)
    end.
Proof.
  intros Hl Hf. rewrite (bind_of_ret _ _ _ _ (get_prop_some _ _ _ _ Hl)).
  destruct r as [a | err].
  - apply bind_outcome_normal, boundary_outcome, Hf.
  - apply bind_outcome_throw, boundary_outcome, Hf.
Qed.

Lemma facade_call_throws (c : entry) handle e e' err :
  lookup_prop (heap e) (receiver c) (handle_field c) = Some handle ->
  engine_call c handle e = (e', Throw err) ->
  facade_call c e
  = Outcome [engine_event c handle] (final (convertError err e'))
            (Throw (rethrown (convertError err e'))).
Proof.
  intros Hl Hf.
  destruct c as [this sql | this sql | v this args]; cbn [facade_call receiver
    handle_field engine_call engine_event] in *.
  - unfold Database_exec.
    rewrite (try_catch_outcome_throw _ _ e [EExec handle sql] e' err).
    + rewrite rethrow_outcome. reflexivity.
    + exact (engine_step this (js "db") (fun h => EExec h sql)
               (fun h => native_exec h sql) _ e handle e' (Throw err) Hl Hf).
  - unfold Database_prepare.
    rewrite (try_catch_outcome_throw _ _ e [EPrepare handle sql] e' err).
    + rewrite rethrow_outcome. reflexivity.
    + exact (engine_step this (js "db") (fun h => EPrepare h sql)
               (fun h => native_prepare h sql) _ e handle e' (Throw err) Hl Hf).
  - unfold Statement_execute.
    rewrite (try_catch_outcome_throw _ _ e [EStmt v handle args] e' err).
    + rewrite rethrow_outcome. reflexivity.
    + rewrite (bind_of_ret _ _ _ _ (get_prop_some _ _ _ _ Hl)).
      apply boundary_outcome, Hf.
Qed.

Lemma Database_exec_returns this sql handle e e' u :
  lookup_prop (heap e) this (js "db") = Some handle ->
  native_exec handle sql e = (e', Normal u) ->
  Database_exec this sql e = Outcome [EExec handle sql] e' (Normal VUndefined).
Proof.
  intros Hl Hf. unfold Database_exec. apply try_catch_outcome_normal.
  exact (engine_step this (js "db") (fun h => EExec h sql)
           (fun h => native_exec h sql) _ e handle e' (Normal u) Hl Hf).
Qed.

Lemma Database_exec_throws this sql handle e e' err :
  lookup_prop (heap e) this (js "db") = Some handle ->
  native_exec handle sql e = (e', Throw err) ->
  Database_exec this sql e
  = Outcome [EExec handle sql] (final (convertError err e'))
            (Throw (rethrown (convertError err e'))).
Proof. intros Hl Hf. exact (facade_call_throws (Exec this sql) handle e e' err Hl Hf). Qed.

(** *** Transaction functions *)

Lemma invoke_variant f db fn mode args e :
  closure_of (heap e) f = Some (WrapTxn db fn mode) ->
  invoke f args e = wrapTxn db fn mode args e.
Proof.
  unfold closure_of, invoke. destruct f as [| | l | |]; try discriminate.
  destruct (heap e !! l) as [[[c | c] props] |]; try discriminate.
  intros [= ->]. reflexivity.
Qed.

Lemma database_handle (h : gmap loc object) (conn : value) :
  lookup_prop h (VDatabase conn) (js "db") = Some conn.
Proof. reflexivity. Qed.

Lemma wrapTxn_begin_throws conn fn mode args e e1 err :
  native_exec conn (VStr (js "BEGIN " ++ mode)) e = (e1, Throw err) ->
  wrapTxn (VDatabase conn) fn mode args e
  = Outcome [EExec conn (VStr (js "BEGIN " ++ mode))]
            (final (convertError err e1))
            (Throw (rethrown (convertError err e1))).
Proof.
  intros Hb. unfold wrapTxn. apply bind_outcome_throw.
  exact (Database_exec_throws _ _ conn e e1 err (database_handle _ _) Hb).
Qed.

Lemma wrapTxn_commits conn fn mode args e e1 e2 e3 u1 v u3 :
  native_exec conn (VStr (js "BEGIN " ++ mode)) e = (e1, Normal u1) ->
  call fn args e1 = (e2, Normal v) ->
  native_exec conn (VStr (js "COMMIT")) e2 = (e3, Normal u3) ->
  wrapTxn (VDatabase conn) fn mode args e
  = Outcome [EExec conn (VStr (js "BEGIN " ++ mode)); ECall fn args;
             EExec conn (VStr (js "COMMIT"))] e3 (Normal v).
Proof.
  intros Hb Hf Hc. unfold wrapTxn.
  rewrite (bind_outcome_normal _ _ e _ e1 VUndefined
             (Database_exec_returns _ _ conn e e1 u1 (database_handle _ _) Hb)).
  rewrite (try_catch_outcome_normal _ _ e1
             [ECall fn args; EExec conn (VStr (js "COMMIT"))] e3 v);
    [reflexivity |].
  rewrite (bind_outcome_normal _ _ e1 _ e2 v (boundary_outcome _ _ _ _ _ Hf)).
  rewrite (bind_outcome_normal _ _ e2 _ e3 VUndefined
             (Database_exec_returns _ _ conn e2 e3 u3 (database_handle _ _) Hc)).
  reflexivity.
Qed.

(** COMMIT is issued inside the [try]: when the engine refuses it, the
    [catch] block issues ROLLBACK and throws the failure of COMMIT as
    [exec] threw it, or the failure of ROLLBACK when that is refused too. *)
Lemma wrapTxn_commit_refused conn fn mode args e e1 e2 e3 e4 u1 v failure r :
  native_exec conn (VStr (js "BEGIN " ++ mode)) e = (e1, Normal u1) ->
  call fn args e1 = (e2, Normal v) ->
  native_exec conn (VStr (js "COMMIT")) e2 = (e3, Throw failure) ->
  native_exec conn (VStr (js "ROLLBACK")) (final (convertError failure e3)) = (e4, r) ->
  wrapTxn (VDatabase conn) fn mode args e
  = match r with
    | Normal _ =>
        Outcome [EExec conn (VStr (js "BEGIN " ++ mode)); ECall fn args;
                 EExec conn (VStr (js "COMMIT")); EExec conn (VStr (js "ROLLBACK"))]
                e4 (Throw (rethrown (convertError failure e3)))
    | Throw failure' =>
        Outcome [EExec conn (VStr (js "BEGIN " ++ mode)); ECall fn args;
                 EExec conn (VStr (js "COMMIT")); EExec conn (VStr (js "ROLLBACK"))]
                (final (convertError failure' e4))
                (Throw (rethrown (convertError failure' e4)))
    end.
Proof.
  intros Hb Hf Hc Hr. unfold wrapTxn.
  rewrite (bind_outcome_normal _ _ e _ e1 VUndefined
             (Database_exec_returns _ _ conn e e1 u1 (database_handle _ _) Hb)).
  rewrite (try_catch_outcome_throw _ _ e1
             [ECall fn args; EExec conn (VStr (js "COMMIT"))]
             (final (convertError failure e3))
             (rethrown (convertError failure e3))).
  - destruct r as [u4 | failure'].
    + rewrite (bind_outcome_normal _ _ _ _ e4 VUndefined
                 (Database_exec_returns _ _ conn _ e4 u4 (database_handle _ _) Hr)).
      reflexivity.
    + rewrite (bind_outcome_throw _ _ _ _ _ _
                 (Database_exec_throws _ _ conn _ e4 failure' (database_handle _ _) Hr)).
      reflexivity.
  - rewrite (bind_outcome_normal _ _ e1 _ e2 v (boundary_outcome _ _ _ _ _ Hf)).
    rewrite (bind_outcome_throw _ _ e2 _ _ _
               (Database_exec_throws _ _ conn e2 e3 failure (database_handle _ _) Hc)).
    reflexivity.
Qed.

Lemma wrapTxn_rolls_back conn fn mode args e e1 e2 e3 u1 err r :
  native_exec conn (VStr (js "BEGIN " ++ mode)) e = (e1, Normal u1) ->
  call fn args e1 = (e2, Throw err) ->
  native_exec conn (VStr (js "ROLLBACK")) e2 = (e3, r) ->
  wrapTxn (VDatabase conn) fn mode args e
  = match r with
    | Normal _ =>
        Outcome [EExec conn (VStr (js "BEGIN " ++ mode)); ECall fn args;
                 EExec conn (VStr (js "ROLLBACK"))] e3 (Throw err)
    | Throw failure =>
        Outcome [EExec conn (VStr (js "BEGIN " ++ mode)); ECall fn args;
                 EExec conn (VStr (js "ROLLBACK"))]
                (final (convertError failure e3))
                (Throw (rethrown (convertError failure e3)))
    end.
Proof.
  intros Hb Hf Hr. unfold wrapTxn.
  rewrite (bind_outcome_normal _ _ e _ e1 VUndefined
             (Database_exec_returns _ _ conn e e1 u1 (database_handle _ _) Hb)).
  rewrite (try_catch_outcome_throw _ _ e1 [ECall fn args] e2 err)
    by (apply bind_outcome_throw, boundary_outcome, Hf).
  destruct r as [u3 | failure].
  - rewrite (bind_outcome_normal _ _ e2 _ e3 VUndefined
               (Database_exec_returns _ _ conn e2 e3 u3 (database_handle _ _) Hr)).
    reflexivity.
  - rewrite (bind_outcome_throw _ _ e2 _ _ _
               (Database_exec_throws _ _ conn e2 e3 failure (database_handle _ _) Hr)).
    reflexivity.
Qed.

End FacadeFacts.

Section MoreFacadeFacts.
Context {W : Type} `{Host W}.
Implicit Types (e : env W) (err this fn : value).

Lemma Database_prepare_returns this sql handle e e' stmt :
  lookup_prop (heap e) this (js "db") = Some handle ->
  native_prepare handle sql e = (e', Normal stmt) ->
  Database_prepare this sql e = Outcome [EPrepare handle sql] e' (Normal (VStatement stmt)).
Proof.
  intros Hl Hf. unfold Database_prepare. apply try_catch_outcome_normal.
  exact (engine_step this (js "db") (fun h => EPrepare h sql)
           (fun h => native_prepare h sql) _ e handle e' (Normal stmt) Hl Hf).
Qed.

Lemma Statement_execute_returns v stmt args e e' r :
  native_stmt v stmt args e = (e', Normal r) ->
  Statement_execute v (VStatement stmt) args e = Outcome [EStmt v stmt args] e' (Normal r).
Proof.
  intros Hf. unfold Statement_execute. apply try_catch_outcome_normal.
  rewrite (bind_of_ret _ _ _ stmt) by reflexivity.
  apply boundary_outcome, Hf.
Qed.

Lemma Statement_pluck_returns stmt mode e e' u :
  native_pluck stmt mode e = (e', Normal u) ->
  Statement_pluck (VStatement stmt) mode e
  = Outcome [EPluck stmt mode] e' (Normal (VStatement stmt)).
Proof.
  intros Hf. unfold Statement_pluck.
  rewrite (bind_of_ret _ _ _ stmt) by reflexivity.
  rewrite (bind_outcome_normal _ _ e _ e' u (boundary_outcome _ _ _ _ _ Hf)).
  reflexivity.
Qed.

Lemma throw_new_argument_error (message : jsstring) e :
  argument_error (throw_new CTypeError message e) e message.
Proof.
  rewrite throw_new_outcome. unfold argument_error.
  cbn [trace final result heap world].
  repeat split. { apply alloc_extends. }
  exists (fresh (dom (heap e))). unfold instance_of, own_property.
  rewrite lookup_insert_eq. repeat split. apply fresh_unused.
Qed.

Lemma typeof_outcome (v : value) e :
  typeof v e = ret (type_of (heap e) v) e.
Proof. reflexivity. Qed.

Lemma Database_transaction_rejects this fn e :
  is_function (type_of (heap e) fn) = false ->
  Database_transaction this fn e
  = throw_new CTypeError (js "Expected first argument to be a function") e.
Proof.
  intros Ht. unfold Database_transaction.
  rewrite (bind_of_ret _ _ _ _ (typeof_outcome fn e)), Ht. reflexivity.
Qed.

Lemma Database_pragma_rejects_source this source options e :
  is_string (type_of (heap e) source) = false ->
  Database_pragma this source options e
  = throw_new CTypeError (js "Expected first argument to be a string") e.
Proof.
  intros Ht. unfold Database_pragma.
  destruct source as [| d | | |]; try reflexivity.
  destruct d; try reflexivity. discriminate Ht.
Qed.

Lemma Database_pragma_rejects_options this src options e :
  is_object (type_of (heap e) (default_options options)) = false ->
  Database_pragma this (VStr src) options e
  = throw_new CTypeError (js "Expected second argument to be an options object") e.
Proof.
  intros Ht. unfold Database_pragma, VStr.
  rewrite (bind_of_ret _ _ _ _ (typeof_outcome _ e)), Ht. reflexivity.
Qed.

Lemma is_string_inv (h : gmap loc object) (v : value) :
  is_string (type_of h v) = true -> exists s, v = VStr s.
Proof.
  destruct v as [| d | l | |]; try discriminate.
  - destruct d; try discriminate. eauto.
  - cbn. destruct (h !! l) as [[[c | c] props] |]; discriminate.
Qed.

(** What [pragma] does once its arguments are accepted. *)
Lemma Database_pragma_accepted this src options simple e :
  is_object (type_of (heap e) (default_options options)) = true ->
  lookup_prop (heap e) (default_options options) (js "simple") = Some simple ->
  Database_pragma this (VStr src) options e
  = (do stmt <- Database_prepare this (VStr (js "PRAGMA " ++ src));
     if truthy simple then
       do plucked <- Statement_pluck stmt VUndefined;
       Statement_get plucked []
     else Statement_all stmt []) e.
Proof.
  intros Ht Hs. unfold Database_pragma, VStr.
  rewrite (bind_of_ret _ _ _ _ (typeof_outcome _ e)), Ht. cbn [negb].
  rewrite (bind_of_ret _ _ _ _ (get_prop_some _ _ _ _ Hs)). reflexivity.
Qed.

End MoreFacadeFacts.

Section TransactionFacts.
Context {W : Type}.
Implicit Types (e : env W) (this fn : value) (h : gmap loc object).

Lemma define_property_outcome l kd ps key d p h (w : W) :
  h !! l = Some (Object kd ps) ->
  apply_descriptor (member_get ps key) d = Some p ->
  define_property (VRef l) key d (Env h w)
  = Outcome [] (Env (<[l := Object kd (member_set ps key p)]> h) w) (Normal (VRef l)).
Proof.
  intros Hl Hp. unfold define_property. cbn [heap world]. rewrite Hl.
  cbn [o_props o_kind]. rewrite Hp. reflexivity.
Qed.

Lemma Object_defineProperties_outcome properties l kd ps ps' h (w : W) :
  h !! l = Some (Object kd ps) ->
  define_all ps properties = Some ps' ->
  Object_defineProperties (VRef l) properties (Env h w)
  = Outcome [] (Env (<[l := Object kd ps']> h) w) (Normal (VRef l)).
Proof.
  revert ps h. induction properties as [| [key d] rest IH]; intros ps h Hl Hall.
  - cbn in Hall. injection Hall as <-. cbn [Object_defineProperties].
    rewrite (insert_id h l _ Hl). reflexivity.
  - cbn [define_all] in Hall.
    destruct (apply_descriptor (member_get ps key) d) as [p |] eqn:Hp; [| discriminate].
    cbn [Object_defineProperties].
    rewrite (bind_outcome_normal _ _ _ _ _ _
               (define_property_outcome l kd ps key d p h w Hl Hp)).
    rewrite (IH (member_set ps key p) (<[l := Object kd (member_set ps key p)]> h)
               (lookup_insert_eq _ _ _) Hall).
    cbn [trace final result app]. rewrite insert_insert_eq. reflexivity.
Qed.

Lemma new_function_outcome (c : closure) h (w : W) :
  new_function c (Env h w)
  = Outcome [] (Env (<[fresh (dom h) := function_object c]> h) w)
            (Normal (VRef (fresh (dom h)))).
Proof. reflexivity. Qed.

(** A step that makes no call across the boundary. *)
Lemma bind_silent {A B} (m : M W A) (f : A -> M W B) e e' (a : A) (o : outcome W B) :
  m e = Outcome [] e' (Normal a) ->
  f a e' = o ->
  bind m f e = o.
Proof.
  intros Hm <-. unfold bind. rewrite Hm. cbn. apply outcome_eta.
Qed.

Lemma link_variant (c : closure) this d f i x l h (w : W) :
  h !! l = Some (function_object c) ->
  Object_defineProperties (VRef l) (variant_properties this d f i x) (Env h w)
  = Outcome [] (Env (<[l := linked_object c this d f i x]> h) w) (Normal (VRef l)).
Proof.
  intros Hl.
  exact (Object_defineProperties_outcome (variant_properties this d f i x) l
           (Function c) _ (o_props (linked_object c this d f i x)) h w Hl eq_refl).
Qed.

(** The state [transaction(fn)] leaves, given the four locations it
    allocates. *)
Lemma Database_transaction_outcome this fn h (w : W) l1 l2 l3 l4 h1 h2 h3 h4 :
  is_function (type_of h fn) = true ->
  l1 = fresh (dom h) ->
  h1 = <[l1 := function_object (WrapTxn this fn (js ""))]> h ->
  l2 = fresh (dom h1) ->
  h2 = <[l2 := function_object (WrapTxn this fn (js "DEFERRED"))]> h1 ->
  l3 = fresh (dom h2) ->
  h3 = <[l3 := function_object (WrapTxn this fn (js "IMMEDIATE"))]> h2 ->
  l4 = fresh (dom h3) ->
  h4 = <[l4 := function_object (WrapTxn this fn (js "EXCLUSIVE"))]> h3 ->
  NoDup [l1; l2; l3; l4]
  /\ Forall (fun l => h !! l = None) [l1; l2; l3; l4]
  /\ Database_transaction this fn (Env h w)
     = Outcome []
         (Env (<[l4 := linked_object (WrapTxn this fn (js "EXCLUSIVE")) this
                         (VRef l1) (VRef l2) (VRef l3) (VRef l4)]>
              (<[l3 := linked_object (WrapTxn this fn (js "IMMEDIATE")) this
                         (VRef l1) (VRef l2) (VRef l3) (VRef l4)]>
              (<[l2 := linked_object (WrapTxn this fn (js "DEFERRED")) this
                         (VRef l1) (VRef l2) (VRef l3) (VRef l4)]>
              (<[l1 := linked_object (WrapTxn this fn (js "")) this
                         (VRef l1) (VRef l2) (VRef l3) (VRef l4)]> h4)))) w)
         (Normal (VRef l1)).
Proof.
  intros Ht E1 Eh1 E2 Eh2 E3 Eh3 E4 Eh4.
  assert (h !! l1 = None) as F1 by (subst l1; apply fresh_unused).
  assert (h1 !! l2 = None) as F2 by (subst l2; apply fresh_unused).
  assert (h2 !! l3 = None) as F3 by (subst l3; apply fresh_unused).
  assert (h3 !! l4 = None) as F4 by (subst l4; apply fresh_unused).
  assert (l1 <> l2) as N12.
  { intros E. rewrite <- E, Eh1, lookup_insert_eq in F2. discriminate. }
  assert (l2 <> l3) as N23.
  { intros E. rewrite <- E, Eh2, lookup_insert_eq in F3. discriminate. }
  assert (l1 <> l3) as N13.
  { intros E. rewrite <- E, Eh2, lookup_insert_ne, Eh1, lookup_insert_eq in F3
      by (intros E'; apply N12; congruence). discriminate. }
  assert (l3 <> l4) as N34.
  { intros E. rewrite <- E, Eh3, lookup_insert_eq in F4. discriminate. }
  assert (l2 <> l4) as N24.
  { intros E. rewrite <- E, Eh3, lookup_insert_ne, Eh2, lookup_insert_eq in F4
      by (intros E'; apply N23; congruence). discriminate. }
  assert (l1 <> l4) as N14.
  { intros E. rewrite <- E, Eh3, lookup_insert_ne, Eh2, lookup_insert_ne,
      Eh1, lookup_insert_eq in F4
      by (intros E'; first [apply N13 | apply N12]; congruence). discriminate. }
  split; [| split].
  - repeat constructor; rewrite ?not_elem_of_cons; repeat split;
      first [congruence | apply not_elem_of_nil].
  - repeat constructor; try assumption.
    + rewrite Eh1, lookup_insert_ne in F2 by congruence. exact F2.
    + rewrite Eh2, lookup_insert_ne, Eh1, lookup_insert_ne in F3 by congruence.
      exact F3.
    + rewrite Eh3, lookup_insert_ne, Eh2, lookup_insert_ne, Eh1, lookup_insert_ne
        in F4 by congruence. exact F4.
  - unfold Database_transaction.
    eapply bind_silent; [apply typeof_outcome |]. cbn [heap]. rewrite Ht. cbn [negb].
    eapply bind_silent; [apply new_function_outcome |]. rewrite <- E1, <- Eh1.
    eapply bind_silent; [apply new_function_outcome |]. rewrite <- E2, <- Eh2.
    eapply bind_silent; [apply new_function_outcome |]. rewrite <- E3, <- Eh3.
    eapply bind_silent; [apply new_function_outcome |]. rewrite <- E4, <- Eh4.
    cbv zeta.
    eapply bind_silent.
    { apply (link_variant (WrapTxn this fn (js ""))).
      rewrite Eh4, lookup_insert_ne, Eh3, lookup_insert_ne, Eh2, lookup_insert_ne,
        Eh1, lookup_insert_eq by congruence. reflexivity. }
    eapply bind_silent.
    { apply (link_variant (WrapTxn this fn (js "DEFERRED"))).
      rewrite lookup_insert_ne, Eh4, lookup_insert_ne, Eh3, lookup_insert_ne,
        Eh2, lookup_insert_eq by congruence. reflexivity. }
    eapply bind_silent.
    { apply (link_variant (WrapTxn this fn (js "IMMEDIATE"))).
      rewrite !lookup_insert_ne, Eh4, lookup_insert_ne, Eh3, lookup_insert_eq
        by congruence. reflexivity. }
    eapply bind_silent.
    { apply (link_variant (WrapTxn this fn (js "EXCLUSIVE"))).
      rewrite !lookup_insert_ne, Eh4, lookup_insert_eq by congruence.
      reflexivity. }
    reflexivity.
Qed.

End TransactionFacts.

(** * The properties of the specification *)

Section Claims.
Context {W : Type} `{Host W}.
Implicit Types (e : env W) (err this fn : value).

Lemma stringify_payload_inv (m c : jsstring) (r : Z) (text : jsstring) :
  JSON.stringify (payload m c r) = Some text -> text = payload_text m c r.
Proof.
  intros Hs. destruct (Z_lt_dec (Z.abs r) (2 ^ 53)) as [Hr | Hr].
  - rewrite (PayloadFacts.stringify_payload m c r Hr) in Hs. congruence.
  - exfalso. revert Hs. unfold payload. cbn [JSON.stringify JSON.collect].
    change (JSON.is_numeral (js "libsqlError")) with false.
    change (JSON.is_numeral (js "message")) with false.
    change (JSON.is_numeral (js "code")) with false.
    change (JSON.is_numeral (js "rawCode")) with false.
    cbv iota. unfold number_of_Z, JSON.number_to_string.
    replace (Z.abs_N r <? 2 ^ 53) with false by (symmetry; apply N.ltb_ge; lia).
    discriminate.
Qed.

Lemma new_SqliteError_converted (m c r : value) e :
  converted (new_SqliteError m c r e) e m c r.
Proof.
  exists (fresh (dom (heap e))). unfold new_SqliteError, alloc.
  cbn [result final heap instance_of lookup_prop].
  rewrite lookup_insert_eq. cbn [o_props].
  repeat split. apply fresh_unused.
Qed.

(** C1.  When [err.message] is JSON for an object whose [libsqlError] is
    true, whose [message] is the string [M], whose [code] is the string [C]
    and whose [rawCode] is [R], [convertError] returns a new [SqliteError]
    whose [message] is [M], whose [code] is [C] and whose [rawCode] is [R].
    This is so in particular for the text [JSON.stringify] writes for
    [{ libsqlError: true, message: M, code: C, rawCode: R }] with an
    integer [R]. *)
Theorem convertError_builds_SqliteError e err (text : jsstring) :
  lookup_prop (heap e) err (js "message") = Some (VStr text) ->
  (forall members (m c : jsstring) (r : json),
     JSON.parse text = Some (JObject members) ->
     member_get members (js "libsqlError") = Some (JBool true) ->
     member_get members (js "message") = Some (JString m) ->
     member_get members (js "code") = Some (JString c) ->
     member_get members (js "rawCode") = Some r ->
     converted (convertError err e) e (VStr m) (VStr c) (VData r))
  /\ (forall (message code : jsstring) (rawCode : Z),
        JSON.stringify (payload message code rawCode) = Some text ->
        converted (convertError err e) e (VStr message) (VStr code) (VInt rawCode)).
Proof.
  intros Hmsg. split.
  - intros members m c r Hparse Hmark Hm Hc Hr.
    rewrite (convertError_structured e err text (JObject members)
               (VStr m) (VStr c) (VData r) Hmsg Hparse).
    + apply new_SqliteError_converted.
    + unfold marker_of. cbn [truthy lookup_prop]. rewrite Hmark. reflexivity.
    + cbn [lookup_prop]. rewrite Hm. reflexivity.
    + cbn [lookup_prop]. rewrite Hc. reflexivity.
    + cbn [lookup_prop]. rewrite Hr. reflexivity.
  - intros message code rawCode Htext.
    apply stringify_payload_inv in Htext. subst text.
    rewrite (convertError_structured e err _ (payload message code rawCode)
               (VStr message) (VStr code) (VInt rawCode) Hmsg
               (PayloadFacts.parse_payload_text message code rawCode)
               eq_refl eq_refl eq_refl eq_refl).
    apply new_SqliteError_converted.
Qed.

(** C4.  When [err.message] is not a string, or is not JSON, or encodes a
    value without a truthy [libsqlError], [convertError] returns [err]
    itself; it makes no call, and changes no object of the heap and nothing
    of the world. *)
Theorem convertError_returns_err_itself e err msg :
  lookup_prop (heap e) err (js "message") = Some msg ->
  (forall text, msg <> VStr text)
  \/ (exists text, msg = VStr text /\ JSON.parse text = None)
  \/ (exists text d,
        msg = VStr text /\ JSON.parse text = Some d /\ truthy (marker_of d) = false) ->
  result (convertError err e) = Normal err
  /\ heap e ⊆ heap (final (convertError err e))
  /\ world (final (convertError err e)) = world e
  /\ trace (convertError err e) = [].
Proof.
  intros Hmsg Hno. apply carries_marker_false in Hno.
  destruct (convertError_unmarked e err msg Hmsg Hno) as (? & ? & ? & ?).
  auto.
Qed.

(** C5.  When the native call of [exec], [prepare], [run], [get], [iterate]
    or [all] throws [err], the facade throws what [convertError(err)]
    yields, computed once in the state the engine left: the native call is
    the one event, an error without the marker is thrown as it is, and an
    error with the payload of the engine for its message is replaced by the
    [SqliteError] made from the payload. *)
Theorem engine_error_normalised_once (c : entry) handle e e' err :
  lookup_prop (heap e) (receiver c) (handle_field c) = Some handle ->
  engine_call c handle e = (e', Throw err) ->
  facade_call c e
  = Outcome [engine_event c handle] (final (convertError err e'))
            (Throw (rethrown (convertError err e')))
  /\ world (final (facade_call c e)) = world e'
  /\ heap e' ⊆ heap (final (facade_call c e))
  /\ (forall msg,
        lookup_prop (heap e') err (js "message") = Some msg ->
        carries_marker msg = false ->
        result (facade_call c e) = Throw err)
  /\ (forall (message code : jsstring) (rawCode : Z),
        lookup_prop (heap e') err (js "message")
        = Some (VStr (payload_text message code rawCode)) ->
        exists l,
          result (facade_call c e) = Throw (VRef l)
          /\ heap e' !! l = None
          /\ instance_of (heap (final (facade_call c e))) (VRef l) = Some CSqliteError
          /\ lookup_prop (heap (final (facade_call c e))) (VRef l) (js "message")
             = Some (VStr message)
          /\ lookup_prop (heap (final (facade_call c e))) (VRef l) (js "code")
             = Some (VStr code)
          /\ lookup_prop (heap (final (facade_call c e))) (VRef l) (js "rawCode")
             = Some (VInt rawCode)).
Proof.
  intros Hl Hf. rewrite (facade_call_throws c handle e e' err Hl Hf).
  cbn [final result].
  destruct (convertError_silent e' err) as (_ & Hw & Hh).
  repeat split; try assumption.
  - intros msg Hmsg Hcm.
    destruct (convertError_unmarked e' err msg Hmsg Hcm) as (Hr & _).
    unfold rethrown. rewrite Hr. reflexivity.
  - intros message code rawCode Hmsg.
    rewrite (convertError_structured e' err _ (payload message code rawCode)
               (VStr message) (VStr code) (VInt rawCode) Hmsg
               (PayloadFacts.parse_payload_text message code rawCode)
               eq_refl eq_refl eq_refl eq_refl).
    destruct (new_SqliteError_converted (VStr message) (VStr code) (VInt rawCode) e')
      as (l & Hr & Hfresh & Hi & Hm & Hc & Hrc).
    exists l. unfold rethrown. rewrite Hr. auto 10.
Qed.

Lemma try_catch_never_throws {A} (m : M W (option A)) e :
  exists x, result (try_catch m (fun _ => ret None) e) = Normal x.
Proof. unfold try_catch. destruct (m e) as [t e' [a | v]]; cbn; eauto. Qed.

Lemma bind_result {A B} (m : M W A) (f : A -> M W B) e (a : A) :
  result (m e) = Normal a ->
  result (bind m f e) = result (f a (final (m e))).
Proof. intros Hr. unfold bind. rewrite Hr. reflexivity. Qed.

(** Once the read of [err.message] in the test of the [if] has returned,
    nothing is thrown: what follows either cannot throw or stands inside the
    [try], whose [catch] ignores what it catches. *)
Lemma Reading_convertError_returns (R : Reads W) e err t e1 msg :
  get_property err (js "message") e = Outcome t e1 (Normal msg) ->
  exists v, result (Reading.convertError err e) = Normal v.
Proof.
  intros Hfirst. unfold Reading.convertError.
  rewrite (bind_outcome_normal _ _ e t e1 msg Hfirst). cbn [result].
  destruct msg as [| d | l | db | stmt]; try (eexists; reflexivity).
  destruct d as [| b | x | text | items | members]; try (eexists; reflexivity).
  match goal with
  | |- context [bind (try_catch ?m ?h) _ _] =>
      destruct (try_catch_never_throws m e1) as [converted Hc]
  end.
  rewrite (bind_result _ _ _ _ Hc). destruct converted; eexists; reflexivity.
Qed.

(** C10, as amended.  [convertError] returns, whatever it is given, once the
    read of [err.message] in the test of its [if] has returned: with a
    getter or a proxy that read may throw, and it stands outside the [try].
    When the native call of an entry throws undefined or null, the caller
    gets a new TypeError instead. *)
Theorem convertError_total_but_nullish :
  (forall (R : Reads W) e err t e1 msg,
     get_property err (js "message") e = Outcome t e1 (Normal msg) ->
     exists v, result (Reading.convertError err e) = Normal v)
  /\ (forall (c : entry) handle e e' err,
        lookup_prop (heap e) (receiver c) (handle_field c) = Some handle ->
        engine_call c handle e = (e', Throw err) ->
        nullish err = true ->
        exists l,
          result (facade_call c e) = Throw (VRef l)
          /\ heap e' !! l = None
          /\ instance_of (heap (final (facade_call c e))) (VRef l) = Some CTypeError).
Proof.
  split.
  - exact Reading_convertError_returns.
  - intros c handle e e' err Hl Hf Hn.
    rewrite (facade_call_throws c handle e e' err Hl Hf).
    apply (lookup_prop_none (heap e') err (js "message")) in Hn.
    rewrite (convertError_nullish e' err Hn), throw_new_outcome.
    exists (fresh (dom (heap e'))). unfold rethrown.
    cbn [result final heap instance_of]. rewrite lookup_insert_eq.
    repeat split. apply fresh_unused.
Qed.

(** C2, as amended.  When the engine accepts BEGIN and COMMIT and [fn]
    returns [v], a transaction function of mode [mode] makes three calls,
    [exec("BEGIN " + mode)], [fn(...args)] and [exec("COMMIT")], and returns
    [v]. *)
Theorem transaction_commits f conn fn mode args e e1 e2 e3 u1 v u3 :
  closure_of (heap e) f = Some (WrapTxn (VDatabase conn) fn mode) ->
  native_exec conn (VStr (js "BEGIN " ++ mode)) e = (e1, Normal u1) ->
  call fn args e1 = (e2, Normal v) ->
  native_exec conn (VStr (js "COMMIT")) e2 = (e3, Normal u3) ->
  invoke f args e
  = Outcome [EExec conn (VStr (js "BEGIN " ++ mode)); ECall fn args;
             EExec conn (VStr (js "COMMIT"))] e3 (Normal v).
Proof.
  intros Hf Hb Hc Hm. rewrite (invoke_variant _ _ _ _ _ _ Hf).
  exact (wrapTxn_commits conn fn mode args e e1 e2 e3 u1 v u3 Hb Hc Hm).
Qed.

(** C3.  When [fn] throws [err], a transaction function makes three calls,
    [exec("BEGIN " + mode)], [fn(...args)] and [exec("ROLLBACK")], and no
    COMMIT.  It throws [err] itself when the engine accepts ROLLBACK; when
    ROLLBACK fails, what [exec] throws for that failure goes to the caller
    and [err] is lost. *)
Theorem transaction_rolls_back f conn fn mode args e e1 e2 e3 u1 err r :
  closure_of (heap e) f = Some (WrapTxn (VDatabase conn) fn mode) ->
  native_exec conn (VStr (js "BEGIN " ++ mode)) e = (e1, Normal u1) ->
  call fn args e1 = (e2, Throw err) ->
  native_exec conn (VStr (js "ROLLBACK")) e2 = (e3, r) ->
  invoke f args e
  = match r with
    | Normal _ =>
        Outcome [EExec conn (VStr (js "BEGIN " ++ mode)); ECall fn args;
                 EExec conn (VStr (js "ROLLBACK"))] e3 (Throw err)
    | Throw failure =>
        Outcome [EExec conn (VStr (js "BEGIN " ++ mode)); ECall fn args;
                 EExec conn (VStr (js "ROLLBACK"))]
                (final (convertError failure e3))
                (Throw (rethrown (convertError failure e3)))
    end.
Proof.
  intros Hf Hb Hc Hr. rewrite (invoke_variant _ _ _ _ _ _ Hf).
  exact (wrapTxn_rolls_back conn fn mode args e e1 e2 e3 u1 err r Hb Hc Hr).
Qed.

(** C7.  When the engine refuses BEGIN, a transaction function throws what
    [exec] throws for that failure; the BEGIN is its only call: [fn] is not
    called, and neither COMMIT nor ROLLBACK is issued. *)
Theorem transaction_begin_refused f conn fn mode args e e1 err :
  closure_of (heap e) f = Some (WrapTxn (VDatabase conn) fn mode) ->
  native_exec conn (VStr (js "BEGIN " ++ mode)) e = (e1, Throw err) ->
  invoke f args e
  = Outcome [EExec conn (VStr (js "BEGIN " ++ mode))]
            (final (convertError err e1))
            (Throw (rethrown (convertError err e1))).
Proof.
  intros Hf Hb. rewrite (invoke_variant _ _ _ _ _ _ Hf).
  exact (wrapTxn_begin_throws conn fn mode args e e1 err Hb).
Qed.

End Claims.

Section VariantClaims.
Context {W : Type}.
Implicit Types (e : env W) (this fn : value) (h : gmap loc object).

(** C9.  For a function [fn], [transaction(fn)] makes four new function
    objects, one for each of the modes "", DEFERRED, IMMEDIATE and
    EXCLUSIVE, and returns the first.  Each of the four has the four as its
    properties [default], [deferred], [immediate] and [exclusive] and the
    connection as [database], none of them writable. *)
Theorem transaction_links_four_variants this fn e :
  is_function (type_of (heap e) fn) = true ->
  exists l1 l2 l3 l4,
    let o := Database_transaction this fn e in
    NoDup [l1; l2; l3; l4]
    /\ Forall (fun l => heap e !! l = None) [l1; l2; l3; l4]
    /\ result o = Normal (VRef l1)
    /\ trace o = []
    /\ world (final o) = world e
    /\ heap e ⊆ heap (final o)
    /\ closure_of (heap (final o)) (VRef l1) = Some (WrapTxn this fn (js ""))
    /\ closure_of (heap (final o)) (VRef l2) = Some (WrapTxn this fn (js "DEFERRED"))
    /\ closure_of (heap (final o)) (VRef l3) = Some (WrapTxn this fn (js "IMMEDIATE"))
    /\ closure_of (heap (final o)) (VRef l4) = Some (WrapTxn this fn (js "EXCLUSIVE"))
    /\ Forall (fun l => linked (heap (final o)) (VRef l) this
                          (VRef l1) (VRef l2) (VRef l3) (VRef l4))
              [l1; l2; l3; l4].
Proof.
  intros Ht. destruct e as [h w]. cbn [heap world] in *.
  remember (fresh (dom h)) as l1 eqn:E1.
  remember (<[l1 := function_object (WrapTxn this fn (js ""))]> h) as h1 eqn:Eh1.
  remember (fresh (dom h1)) as l2 eqn:E2.
  remember (<[l2 := function_object (WrapTxn this fn (js "DEFERRED"))]> h1) as h2 eqn:Eh2.
  remember (fresh (dom h2)) as l3 eqn:E3.
  remember (<[l3 := function_object (WrapTxn this fn (js "IMMEDIATE"))]> h2) as h3 eqn:Eh3.
  remember (fresh (dom h3)) as l4 eqn:E4.
  remember (<[l4 := function_object (WrapTxn this fn (js "EXCLUSIVE"))]> h3) as h4 eqn:Eh4.
  destruct (Database_transaction_outcome this fn h w l1 l2 l3 l4 h1 h2 h3 h4 Ht
              E1 Eh1 E2 Eh2 E3 Eh3 E4 Eh4) as (ND & Fr & Heq).
  exists l1, l2, l3, l4. cbv zeta. rewrite Heq.
  clear Heq E1 E2 E3 E4.
  cbn [result trace final heap world].
  split; [exact ND |]. split; [exact Fr |].
  apply Forall_cons in Fr as [F1 Fr]. apply Forall_cons in Fr as [F2 Fr].
  apply Forall_cons in Fr as [F3 Fr]. apply Forall_cons in Fr as [F4 _].
  apply NoDup_cons in ND as [N1 ND]. apply NoDup_cons in ND as [N2 ND].
  apply NoDup_cons in ND as [N3 _].
  apply not_elem_of_cons in N1 as [N12 N1]. apply not_elem_of_cons in N1 as [N13 N1].
  apply not_elem_of_cons in N1 as [N14 _].
  apply not_elem_of_cons in N2 as [N23 N2]. apply not_elem_of_cons in N2 as [N24 _].
  apply not_elem_of_cons in N3 as [N34 _].
  unfold closure_of, linked, own_property.
  repeat split.
  - subst h4 h3 h2 h1. repeat apply insert_subseteq_r; try assumption; reflexivity.
  - rewrite !lookup_insert_ne, lookup_insert_eq by congruence. reflexivity.
  - rewrite !lookup_insert_ne, lookup_insert_eq by congruence. reflexivity.
  - rewrite !lookup_insert_ne, lookup_insert_eq by congruence. reflexivity.
  - rewrite lookup_insert_eq. reflexivity.
  - repeat constructor;
      rewrite ?lookup_insert_eq; rewrite ?lookup_insert_ne, ?lookup_insert_eq
        by congruence; reflexivity.
Qed.

End VariantClaims.

Section ArgumentClaims.
Context {W : Type} `{Host W}.
Implicit Types (e : env W) (this fn : value).

(** C8.  [transaction] given something that is not a function, and [pragma]
    given a source that is not a string or options that are not an object
    (by the test of the code: [typeof options !== 'object'] once undefined
    and null have been replaced by [{}]), throw a new TypeError that has a
    [message] and neither [code] nor [rawCode]; no call has been made across
    the boundary, and the world and the objects of the heap are as they
    were. *)
Theorem argument_errors_come_first this e :
  (forall fn,
     is_function (type_of (heap e) fn) = false ->
     argument_error (Database_transaction this fn e) e
       (js "Expected first argument to be a function"))
  /\ (forall source options,
        is_string (type_of (heap e) source) = false ->
        argument_error (Database_pragma this source options e) e
          (js "Expected first argument to be a string"))
  /\ (forall source options,
        is_object (type_of (heap e) (default_options options)) = false ->
        argument_error (Database_pragma this source options e) e
          (if is_string (type_of (heap e) source)
           then js "Expected second argument to be an options object"
           else js "Expected first argument to be a string")).
Proof.
  split; [| split].
  - intros fn Ht. rewrite (Database_transaction_rejects this fn e Ht).
    apply throw_new_argument_error.
  - intros source options Ht.
    rewrite (Database_pragma_rejects_source this source options e Ht).
    apply throw_new_argument_error.
  - intros source options Ht.
    destruct (is_string (type_of (heap e) source)) eqn:Hs.
    + apply is_string_inv in Hs as [src ->].
      rewrite (Database_pragma_rejects_options this src options e Ht).
      apply throw_new_argument_error.
    + rewrite (Database_pragma_rejects_source this source options e Hs).
      apply throw_new_argument_error.
Qed.

(** C6.  [pragma(source, options)] with a string for [source] and, for
    [options], undefined, null (both stand for [{}]) or an object prepares
    "PRAGMA " + source and nothing else.  When [options.simple] is truthy it
    turns pluck mode on and returns what [get()] returns, otherwise it
    returns what [all()] returns.  With any other [source] or [options] it
    throws a TypeError. *)
Theorem pragma_prepares_and_reads this conn e :
  lookup_prop (heap e) this (js "db") = Some conn ->
  (forall src options simple,
     is_object (type_of (heap e) (default_options options)) = true ->
     lookup_prop (heap e) (default_options options) (js "simple") = Some simple ->
     (forall e1 err,
        native_prepare conn (VStr (js "PRAGMA " ++ src)) e = (e1, Throw err) ->
        Database_pragma this (VStr src) options e
        = Outcome [EPrepare conn (VStr (js "PRAGMA " ++ src))]
                  (final (convertError err e1))
                  (Throw (rethrown (convertError err e1))))
     /\ (forall e1 e2 e3 stmt u v,
           truthy simple = true ->
           native_prepare conn (VStr (js "PRAGMA " ++ src)) e = (e1, Normal stmt) ->
           native_pluck stmt VUndefined e1 = (e2, Normal u) ->
           native_stmt Get stmt [] e2 = (e3, Normal v) ->
           Database_pragma this (VStr src) options e
           = Outcome [EPrepare conn (VStr (js "PRAGMA " ++ src));
                      EPluck stmt VUndefined; EStmt Get stmt []] e3 (Normal v))
     /\ (forall e1 e2 stmt rows,
           truthy simple = false ->
           native_prepare conn (VStr (js "PRAGMA " ++ src)) e = (e1, Normal stmt) ->
           native_stmt All stmt [] e1 = (e2, Normal rows) ->
           Database_pragma this (VStr src) options e
           = Outcome [EPrepare conn (VStr (js "PRAGMA " ++ src));
                      EStmt All stmt []] e2 (Normal rows)))
  /\ default_options VUndefined = VData (JObject [])
  /\ default_options VNull = VData (JObject [])
  /\ (forall source options,
        is_string (type_of (heap e) source) = false ->
        argument_error (Database_pragma this source options e) e
          (js "Expected first argument to be a string"))
  /\ (forall src options,
        is_object (type_of (heap e) (default_options options)) = false ->
        argument_error (Database_pragma this (VStr src) options e) e
          (js "Expected second argument to be an options object")).
Proof.
  intros Hdb. split; [| split; [reflexivity | split; [reflexivity | split]]].
  - intros src options simple Hto Hsimple.
    rewrite (Database_pragma_accepted this src options simple e Hto Hsimple).
    split; [| split].
    + intros e1 err Hp. apply bind_outcome_throw.
      exact (facade_call_throws (Prepare this (VStr (js "PRAGMA " ++ src)))
               conn e e1 err Hdb Hp).
    + intros e1 e2 e3 stmt u v Ht Hp Hpl Hg.
      rewrite (bind_outcome_normal _ _ _ _ _ _
                 (Database_prepare_returns this _ conn e e1 stmt Hdb Hp)).
      rewrite Ht.
      rewrite (bind_outcome_normal _ _ _ _ _ _
                 (Statement_pluck_returns stmt VUndefined e1 e2 u Hpl)).
      unfold Statement_get.
      rewrite (Statement_execute_returns Get stmt [] e2 e3 v Hg). reflexivity.
    + intros e1 e2 stmt rows Ht Hp Ha.
      rewrite (bind_outcome_normal _ _ _ _ _ _
                 (Database_prepare_returns this _ conn e e1 stmt Hdb Hp)).
      rewrite Ht. unfold Statement_all.
      rewrite (Statement_execute_returns All stmt [] e1 e2 rows Ha). reflexivity.
  - intros source options Ht.
    rewrite (Database_pragma_rejects_source this source options e Ht).
    apply throw_new_argument_error.
  - intros src options Ht.
    rewrite (Database_pragma_rejects_options this src options e Ht).
    apply throw_new_argument_error.
Qed.

End ArgumentClaims.

(** * Further properties of the facade *)

(** ** [convertError] *)

Section Silence.
Context {W : Type}.









(** For an error whose properties are data properties, the two reads of
    [err.message] give the same, and [Reading.convertError] is
    [convertError]. *)
Lemma Reading_convertError_plain (R : Reads W) err e :
  (forall v name e', get_property v name e' = get_prop v name e') ->
  Reading.convertError err e = convertError err e.
Proof.
  intros Hplain. unfold Reading.convertError, convertError.
  destruct (lookup_prop (heap e) err (js "message")) as [msg |] eqn:Hmsg.
  - rewrite (bind_of_ret _ _ _ msg)
      by (rewrite Hplain; apply get_prop_some, Hmsg).
    rewrite (bind_of_ret (get_prop err (js "message")) _ _ msg)
      by (apply get_prop_some, Hmsg).
    destruct msg as [| d | l | db | stmt]; try reflexivity.
    destruct d as [| b | x | text | items | members]; try reflexivity.
    assert (forall {A B} (m m' : M W A) (f : A -> M W B),
              m e = m' e -> bind m f e = bind m' f e) as Hleft.
    { intros A B m m' f Hm. unfold bind. rewrite Hm. reflexivity. }
    apply Hleft. unfold try_catch.
    rewrite (bind_of_ret (get_property err (js "message")) _ _ (VStr text))
      by (rewrite Hplain; apply get_prop_some, Hmsg).
    reflexivity.
  - rewrite (bind_thrown _ _ _ (VRef (fresh (dom (heap e)))))
      by (rewrite Hplain, (get_prop_none _ _ _ Hmsg), throw_new_outcome; reflexivity).
    rewrite (bind_thrown (get_prop err (js "message")) _ _ (VRef (fresh (dom (heap e)))))
      by (rewrite (get_prop_none _ _ _ Hmsg), throw_new_outcome; reflexivity).
    rewrite Hplain. reflexivity.
Qed.

End Silence.

Section ConvertErrorCoverage.
Context {W : Type}.
Implicit Types (e : env W) (err : value).




(** X3.  The marker is tested for truth, not compared with [true], and
    [rawCode] may be missing: when [err.message] is JSON for an object with
    a truthy [libsqlError], a string [message] and a string [code],
    [convertError] returns a new [SqliteError] with that message and code,
    whose [rawCode] is the one of the object, undefined when it has none. *)
Theorem convertError_accepts_any_truthy_marker e err text members marker (m c : jsstring) :
  lookup_prop (heap e) err (js "message") = Some (VStr text) ->
  JSON.parse text = Some (JObject members) ->
  member_get members (js "libsqlError") = Some marker ->
  truthy (VData marker) = true ->
  member_get members (js "message") = Some (JString m) ->
  member_get members (js "code") = Some (JString c) ->
  converted (convertError err e) e (VStr m) (VStr c)
    (match member_get members (js "rawCode") with
     | Some r => VData r
     | None => VUndefined
     end).
Proof.
  intros Hmsg Hparse Hmark Ht Hm Hc.
  rewrite (convertError_structured e err text (JObject members)
             (VStr m) (VStr c)
             (match member_get members (js "rawCode") with
              | Some r => VData r
              | None => VUndefined
              end) Hmsg Hparse).
  - apply new_SqliteError_converted.
  - unfold marker_of. cbn [truthy lookup_prop default]. rewrite Hmark. exact Ht.
  - cbn [lookup_prop]. rewrite Hm. reflexivity.
  - cbn [lookup_prop]. rewrite Hc. reflexivity.
  - reflexivity.
Qed.

End ConvertErrorCoverage.

(** ** The first revision of [convertError] (wrapper.js) *)

Section FirstRevision.
Context {W : Type}.
Implicit Types (e : env W) (err : value).

Lemma Wrapper_convertError_unmarked e err marker :
  lookup_prop (heap e) err (js "libsqlError") = Some marker ->
  truthy marker = false ->
  Wrapper.convertError err e = Outcome [] e (Normal err).
Proof.
  intros Hl Ht. unfold Wrapper.convertError.
  rewrite (bind_of_ret _ _ _ _ (get_prop_some _ _ _ _ Hl)), Ht. reflexivity.
Qed.

Lemma Wrapper_convertError_marked e err marker m c r :
  lookup_prop (heap e) err (js "libsqlError") = Some marker ->
  truthy marker = true ->
  lookup_prop (heap e) err (js "message") = Some m ->
  lookup_prop (heap e) err (js "code") = Some c ->
  lookup_prop (heap e) err (js "rawCode") = Some r ->
  Wrapper.convertError err e = new_SqliteError m c r e.
Proof.
  intros Hl Ht Hm Hc Hr. unfold Wrapper.convertError.
  rewrite (bind_of_ret _ _ _ _ (get_prop_some _ _ _ _ Hl)), Ht.
  rewrite (bind_of_ret _ _ _ _ (get_prop_some _ _ _ _ Hm)).
  rewrite (bind_of_ret _ _ _ _ (get_prop_some _ _ _ _ Hc)).
  rewrite (bind_of_ret _ _ _ _ (get_prop_some _ _ _ _ Hr)).
  reflexivity.
Qed.

Lemma Wrapper_convertError_nullish e err :
  lookup_prop (heap e) err (js "libsqlError") = None ->
  Wrapper.convertError err e
  = throw_new CTypeError
      (js "Cannot read properties of undefined or null (reading '"
         ++ js "libsqlError" ++ js "')") e.
Proof.
  intros Hnone. unfold Wrapper.convertError.
  rewrite (bind_thrown _ _ _ (VRef (fresh (dom (heap e)))))
    by (rewrite (get_prop_none _ _ _ Hnone), throw_new_outcome; reflexivity).
  rewrite (get_prop_none _ _ _ Hnone), throw_new_outcome. reflexivity.
Qed.

(** X4.  The first revision looks for the marker on the error itself.  An
    error whose [libsqlError] is falsy, or missing, comes back as it is, the
    state untouched.  An error whose [libsqlError] is truthy, with a string
    [message] and a string [code], is replaced by a new [SqliteError] that
    takes the three fields of the error.  Undefined and null make it throw a
    TypeError.  No call is made across the boundary in any case, and no
    object of the heap is changed. *)
Theorem first_revision_reads_the_marker_off_the_error e err :
  (forall marker,
     lookup_prop (heap e) err (js "libsqlError") = Some marker ->
     truthy marker = false ->
     Wrapper.convertError err e = Outcome [] e (Normal err))
  /\ (forall marker (m c : jsstring) r,
        lookup_prop (heap e) err (js "libsqlError") = Some marker ->
        truthy marker = true ->
        lookup_prop (heap e) err (js "message") = Some (VStr m) ->
        lookup_prop (heap e) err (js "code") = Some (VStr c) ->
        lookup_prop (heap e) err (js "rawCode") = Some r ->
        converted (Wrapper.convertError err e) e (VStr m) (VStr c) r)
  /\ (nullish err = true ->
      exists l,
        result (Wrapper.convertError err e) = Throw (VRef l)
        /\ heap e !! l = None
        /\ instance_of (heap (final (Wrapper.convertError err e))) (VRef l)
           = Some CTypeError)
  /\ trace (Wrapper.convertError err e) = []
  /\ world (final (Wrapper.convertError err e)) = world e
  /\ heap e ⊆ heap (final (Wrapper.convertError err e)).
Proof.
  split; [exact (Wrapper_convertError_unmarked e err) |].
  split.
  { intros marker m c r Hl Ht Hm Hc Hr.
    rewrite (Wrapper_convertError_marked e err marker _ _ _ Hl Ht Hm Hc Hr).
    apply new_SqliteError_converted. }
  split.
  { intros Hn. apply (lookup_prop_none (heap e) err (js "libsqlError")) in Hn.
    rewrite (Wrapper_convertError_nullish e err Hn), throw_new_outcome.
    exists (fresh (dom (heap e))). cbn [result final heap instance_of].
    rewrite lookup_insert_eq. repeat split. apply fresh_unused. }
  destruct (lookup_prop (heap e) err (js "libsqlError")) as [marker |] eqn:Hl.
  - destruct (truthy marker) eqn:Ht.
    + assert (nullish err = false) as Hnn.
      { destruct (nullish err) eqn:Hn; [| reflexivity].
        apply (lookup_prop_none (heap e) err (js "libsqlError")) in Hn. congruence. }
      destruct (lookup_prop_total (heap e) err (js "message") Hnn) as [m Hm].
      destruct (lookup_prop_total (heap e) err (js "code") Hnn) as [c Hc].
      destruct (lookup_prop_total (heap e) err (js "rawCode") Hnn) as [r Hr].
      rewrite (Wrapper_convertError_marked e err marker m c r Hl Ht Hm Hc Hr).
      unfold new_SqliteError, alloc. cbn [result final trace heap world].
      repeat split. apply alloc_extends.
    + rewrite (Wrapper_convertError_unmarked e err marker Hl Ht).
      cbn [result final trace]. repeat split. reflexivity.
  - rewrite (Wrapper_convertError_nullish e err Hl), throw_new_outcome.
    cbn [result final trace heap world]. repeat split. apply alloc_extends.
Qed.

(** X5.  The two revisions disagree on the errors of the engine.  An error
    that carries the payload of the engine in its message and no marker of
    its own goes through the first revision unchanged, its message still the
    JSON text; the later revision replaces it by the [SqliteError] made from
    the payload. *)
Theorem revisions_differ_on_engine_errors e err marker (message code : jsstring)
  (rawCode : Z) :
  lookup_prop (heap e) err (js "libsqlError") = Some marker ->
  truthy marker = false ->
  lookup_prop (heap e) err (js "message")
  = Some (VStr (payload_text message code rawCode)) ->
  Wrapper.convertError err e = Outcome [] e (Normal err)
  /\ converted (convertError err e) e (VStr message) (VStr code) (VInt rawCode)
  /\ result (convertError err e) <> Normal err.
Proof.
  intros Hl Ht Hmsg. split; [exact (Wrapper_convertError_unmarked e err marker Hl Ht) |].
  rewrite (convertError_structured e err _ (payload message code rawCode)
             (VStr message) (VStr code) (VInt rawCode) Hmsg
             (PayloadFacts.parse_payload_text message code rawCode)
             eq_refl eq_refl eq_refl eq_refl).
  split; [apply new_SqliteError_converted |].
  unfold new_SqliteError, alloc. cbn [result]. intros [= <-].
  pose proof (fresh_unused (heap e)) as Hfresh.
  cbn [lookup_prop] in Hmsg. rewrite Hfresh in Hmsg. discriminate.
Qed.

End FirstRevision.

(** ** What the entries hand back *)

Section EntryCoverage.
Context {W : Type} `{Host W}.
Implicit Types (e : env W) (err this : value).

(** X6.  When the native call of [exec], [prepare], [run], [get], [iterate]
    or [all] returns, the facade has made that one call, with the statement
    text or the bind parameters as it was given them, and left the state as
    the engine left it.  [exec] returns undefined whatever the engine
    returned, [prepare] returns a [Statement] around what the engine
    returned, and the four verbs return what the engine returned. *)
Theorem entries_hand_back_the_engine_result (c : entry) handle e e' x :
  lookup_prop (heap e) (receiver c) (handle_field c) = Some handle ->
  engine_call c handle e = (e', Normal x) ->
  facade_call c e = Outcome [engine_event c handle] e' (Normal (handed_back c x)).
Proof.
  intros Hl Hf.
  destruct c as [this sql | this sql | v this args]; cbn [facade_call receiver
    handle_field engine_call engine_event handed_back] in *.
  - exact (Database_exec_returns this sql handle e e' x Hl Hf).
  - exact (Database_prepare_returns this sql handle e e' x Hl Hf).
  - unfold Statement_execute. apply try_catch_outcome_normal.
    rewrite (bind_of_ret _ _ _ _ (get_prop_some _ _ _ _ Hl)).
    apply boundary_outcome, Hf.
Qed.

(** X7.  [db.prepare(sql).verb(...args)] makes two calls: the engine
    prepares [sql], and the verb runs on the statement the engine returned
    for it.  What the verb returns is returned; what it throws is converted. *)
Theorem prepared_statement_runs_on_its_handle this conn sql (v : verb) args
  e e1 e2 stmt r :
  lookup_prop (heap e) this (js "db") = Some conn ->
  native_prepare conn sql e = (e1, Normal stmt) ->
  native_stmt v stmt args e1 = (e2, r) ->
  (do s <- Database_prepare this sql; Statement_execute v s args) e
  = match r with
    | Normal x => Outcome [EPrepare conn sql; EStmt v stmt args] e2 (Normal x)
    | Throw err =>
        Outcome [EPrepare conn sql; EStmt v stmt args]
                (final (convertError err e2))
                (Throw (rethrown (convertError err e2)))
    end.
Proof.
  intros Hl Hp Hs.
  rewrite (bind_outcome_normal _ _ _ _ _ _
             (Database_prepare_returns this sql conn e e1 stmt Hl Hp)).
  destruct r as [x | err].
  - rewrite (Statement_execute_returns v stmt args e1 e2 x Hs). reflexivity.
  - pose proof (facade_call_throws (Execute v (VStatement stmt) args) stmt e1 e2 err
                  eq_refl Hs) as Hx.
    cbn [facade_call engine_event] in Hx. rewrite Hx. reflexivity.
Qed.

Lemma Statement_pluck_throws this stmt mode e e' err :
  lookup_prop (heap e) this (js "stmt") = Some stmt ->
  native_pluck stmt mode e = (e', Throw err) ->
  Statement_pluck this mode e = Outcome [EPluck stmt mode] e' (Throw err).
Proof.
  intros Hl Hf. unfold Statement_pluck.
  rewrite (bind_of_ret _ _ _ _ (get_prop_some _ _ _ _ Hl)).
  apply bind_outcome_throw, boundary_outcome, Hf.
Qed.

(** X8.  [pluck] makes one native call, with the mode as it was given.  When
    the engine returns, [pluck] returns the statement it was called on,
    whatever the engine returned.  When the engine throws, [pluck] throws
    the same value and the state is as the engine left it: the error does
    not go through [convertError], and no [SqliteError] is made. *)
Theorem pluck_hands_over this stmt mode e e' r :
  lookup_prop (heap e) this (js "stmt") = Some stmt ->
  native_pluck stmt mode e = (e', r) ->
  Statement_pluck this mode e
  = Outcome [EPluck stmt mode] e'
      (match r with
       | Normal _ => Normal this
       | Throw err => Throw err
       end).
Proof.
  intros Hl Hf. destruct r as [u | err].
  - unfold Statement_pluck.
    rewrite (bind_of_ret _ _ _ _ (get_prop_some _ _ _ _ Hl)).
    rewrite (bind_outcome_normal _ _ e _ e' u (boundary_outcome _ _ _ _ _ Hf)).
    reflexivity.
  - exact (Statement_pluck_throws this stmt mode e e' err Hl Hf).
Qed.

(** X9.  The failures inside [pragma], once the statement is prepared.  With
    a truthy [simple], an error thrown by the engine when pluck mode is
    turned on reaches the caller as it was thrown, [get] not being called;
    an error thrown by [get] is converted.  Without, an error thrown by
    [all] is converted. *)
Theorem pragma_failures this conn src options simple e e1 stmt :
  lookup_prop (heap e) this (js "db") = Some conn ->
  is_object (type_of (heap e) (default_options options)) = true ->
  lookup_prop (heap e) (default_options options) (js "simple") = Some simple ->
  native_prepare conn (VStr (js "PRAGMA " ++ src)) e = (e1, Normal stmt) ->
  (truthy simple = true ->
   forall e2 err,
     native_pluck stmt VUndefined e1 = (e2, Throw err) ->
     Database_pragma this (VStr src) options e
     = Outcome [EPrepare conn (VStr (js "PRAGMA " ++ src)); EPluck stmt VUndefined]
               e2 (Throw err))
  /\ (truthy simple = true ->
      forall e2 e3 u err,
        native_pluck stmt VUndefined e1 = (e2, Normal u) ->
        native_stmt Get stmt [] e2 = (e3, Throw err) ->
        Database_pragma this (VStr src) options e
        = Outcome [EPrepare conn (VStr (js "PRAGMA " ++ src)); EPluck stmt VUndefined;
                   EStmt Get stmt []]
                  (final (convertError err e3))
                  (Throw (rethrown (convertError err e3))))
  /\ (truthy simple = false ->
      forall e2 err,
        native_stmt All stmt [] e1 = (e2, Throw err) ->
        Database_pragma this (VStr src) options e
        = Outcome [EPrepare conn (VStr (js "PRAGMA " ++ src)); EStmt All stmt []]
                  (final (convertError err e2))
                  (Throw (rethrown (convertError err e2)))).
Proof.
  intros Hdb Hto Hsimple Hp.
  rewrite (Database_pragma_accepted this src options simple e Hto Hsimple).
  rewrite (bind_outcome_normal _ _ _ _ _ _
             (Database_prepare_returns this _ conn e e1 stmt Hdb Hp)).
  split; [| split].
  - intros Ht e2 err Hpl. rewrite Ht.
    rewrite (bind_outcome_throw _ _ _ _ _ _
               (Statement_pluck_throws (VStatement stmt) stmt VUndefined e1 e2 err
                  eq_refl Hpl)).
    reflexivity.
  - intros Ht e2 e3 u err Hpl Hg. rewrite Ht.
    rewrite (bind_outcome_normal _ _ _ _ _ _
               (Statement_pluck_returns stmt VUndefined e1 e2 u Hpl)).
    pose proof (facade_call_throws (Execute Get (VStatement stmt) []) stmt e2 e3 err
                  eq_refl Hg) as Hx.
    cbn [facade_call engine_event] in Hx. unfold Statement_get. rewrite Hx.
    reflexivity.
  - intros Ht e2 err Ha. rewrite Ht.
    pose proof (facade_call_throws (Execute All (VStatement stmt) []) stmt e1 e2 err
                  eq_refl Ha) as Hx.
    cbn [facade_call engine_event] in Hx. unfold Statement_all. rewrite Hx.
    reflexivity.
Qed.

(** X10.  The calls of [pragma], whatever the engine does and whatever it is
    given: none, when an argument is refused; or the PRAGMA statement is
    prepared and, when that succeeds, either pluck mode is turned on and,
    when that succeeds, [get] is called, or [all] is called.  So [pragma]
    prepares at most once, never calls both [get] and [all], and calls [get]
    only after the engine has accepted pluck mode. *)
Theorem pragma_calls_have_five_shapes this conn source options e :
  lookup_prop (heap e) this (js "db") = Some conn ->
  trace (Database_pragma this source options e) = []
  \/ exists src,
       source = VStr src
       /\ (trace (Database_pragma this source options e)
           = [EPrepare conn (VStr (js "PRAGMA " ++ src))]
           \/ exists stmt,
                trace (Database_pragma this source options e)
                = [EPrepare conn (VStr (js "PRAGMA " ++ src)); EPluck stmt VUndefined]
                \/ trace (Database_pragma this source options e)
                   = [EPrepare conn (VStr (js "PRAGMA " ++ src)); EPluck stmt VUndefined;
                      EStmt Get stmt []]
                \/ trace (Database_pragma this source options e)
                   = [EPrepare conn (VStr (js "PRAGMA " ++ src)); EStmt All stmt []]).
Proof.
  intros Hdb.
  destruct (is_string (type_of (heap e) source)) eqn:Hs.
  2:{ left. rewrite (Database_pragma_rejects_source this source options e Hs).
      reflexivity. }
  apply is_string_inv in Hs as [src ->].
  destruct (is_object (type_of (heap e) (default_options options))) eqn:Ho.
  2:{ left. rewrite (Database_pragma_rejects_options this src options e Ho).
      reflexivity. }
  right. exists src. split; [reflexivity |].
  assert (nullish (default_options options) = false) as Hnn.
  { unfold default_options. destruct (nullish options) eqn:Hn; [reflexivity | exact Hn]. }
  destruct (lookup_prop_total (heap e) (default_options options) (js "simple") Hnn)
    as [simple Hsimple].
  rewrite (Database_pragma_accepted this src options simple e Ho Hsimple).
  destruct (native_prepare conn (VStr (js "PRAGMA " ++ src)) e) as [e1 [stmt | err]] eqn:Hp.
  2:{ left. rewrite (bind_outcome_throw _ _ _ _ _ _
                       (facade_call_throws (Prepare this (VStr (js "PRAGMA " ++ src)))
                          conn e e1 err Hdb Hp)).
      reflexivity. }
  right. exists stmt.
  rewrite (bind_outcome_normal _ _ _ _ _ _
             (Database_prepare_returns this _ conn e e1 stmt Hdb Hp)).
  destruct (truthy simple).
  - destruct (native_pluck stmt VUndefined e1) as [e2 [u | err]] eqn:Hpl.
    + right. left.
      rewrite (bind_outcome_normal _ _ _ _ _ _
                 (Statement_pluck_returns stmt VUndefined e1 e2 u Hpl)).
      unfold Statement_get.
      destruct (native_stmt Get stmt [] e2) as [e3 [x | err]] eqn:Hg.
      * rewrite (Statement_execute_returns Get stmt [] e2 e3 x Hg). reflexivity.
      * pose proof (facade_call_throws (Execute Get (VStatement stmt) []) stmt e2 e3 err
                      eq_refl Hg) as Hx.
        cbn [facade_call engine_event] in Hx. rewrite Hx. reflexivity.
    + left.
      rewrite (bind_outcome_throw _ _ _ _ _ _
                 (Statement_pluck_throws (VStatement stmt) stmt VUndefined e1 e2 err
                    eq_refl Hpl)).
      reflexivity.
  - right. right. unfold Statement_all.
    destruct (native_stmt All stmt [] e1) as [e2 [x | err]] eqn:Ha.
    + rewrite (Statement_execute_returns All stmt [] e1 e2 x Ha). reflexivity.
    + pose proof (facade_call_throws (Execute All (VStatement stmt) []) stmt e1 e2 err
                    eq_refl Ha) as Hx.
      cbn [facade_call engine_event] in Hx. rewrite Hx. reflexivity.
Qed.

End EntryCoverage.

(** ** Transaction functions *)

Section TransactionCoverage.
Context {W : Type} `{Host W}.
Implicit Types (e : env W) (err this fn : value).

(** X11.  When the engine refuses COMMIT after [fn] has returned, a
    transaction function issues ROLLBACK and throws what [exec] threw for
    the failure of COMMIT; the value [fn] returned is lost.  When the engine
    refuses that ROLLBACK as well, what [exec] throws for the failure of
    ROLLBACK goes to the caller instead. *)
Theorem commit_failure_rolls_back f conn fn mode args e e1 e2 e3 e4 u1 v failure r :
  closure_of (heap e) f = Some (WrapTxn (VDatabase conn) fn mode) ->
  native_exec conn (VStr (js "BEGIN " ++ mode)) e = (e1, Normal u1) ->
  call fn args e1 = (e2, Normal v) ->
  native_exec conn (VStr (js "COMMIT")) e2 = (e3, Throw failure) ->
  native_exec conn (VStr (js "ROLLBACK")) (final (convertError failure e3)) = (e4, r) ->
  invoke f args e
  = match r with
    | Normal _ =>
        Outcome [EExec conn (VStr (js "BEGIN " ++ mode)); ECall fn args;
                 EExec conn (VStr (js "COMMIT")); EExec conn (VStr (js "ROLLBACK"))]
                e4 (Throw (rethrown (convertError failure e3)))
    | Throw failure' =>
        Outcome [EExec conn (VStr (js "BEGIN " ++ mode)); ECall fn args;
                 EExec conn (VStr (js "COMMIT")); EExec conn (VStr (js "ROLLBACK"))]
                (final (convertError failure' e4))
                (Throw (rethrown (convertError failure' e4)))
    end.
Proof.
  intros Hf Hb Hc Hk Hr. rewrite (invoke_variant _ _ _ _ _ _ Hf).
  exact (wrapTxn_commit_refused conn fn mode args e e1 e2 e3 e4 u1 v failure r
           Hb Hc Hk Hr).
Qed.

(** X12.  The calls of a transaction function, whatever the engine and [fn]
    do:  BEGIN alone; or BEGIN, [fn], COMMIT; or BEGIN, [fn], COMMIT,
    ROLLBACK; or BEGIN, [fn], ROLLBACK.  It returns in the second case only
    and throws in the three others.  So BEGIN comes first and once, [fn] is
    called at most once and only after BEGIN, COMMIT is issued at most once
    and only after [fn], and ROLLBACK at most once, last. *)
Theorem transaction_calls_have_four_shapes f conn fn mode args e :
  closure_of (heap e) f = Some (WrapTxn (VDatabase conn) fn mode) ->
  (trace (invoke f args e) = [EExec conn (VStr (js "BEGIN " ++ mode))]
   /\ exists x, result (invoke f args e) = Throw x)
  \/ (trace (invoke f args e)
      = [EExec conn (VStr (js "BEGIN " ++ mode)); ECall fn args;
         EExec conn (VStr (js "COMMIT"))]
      /\ exists v, result (invoke f args e) = Normal v)
  \/ (trace (invoke f args e)
      = [EExec conn (VStr (js "BEGIN " ++ mode)); ECall fn args;
         EExec conn (VStr (js "COMMIT")); EExec conn (VStr (js "ROLLBACK"))]
      /\ exists x, result (invoke f args e) = Throw x)
  \/ (trace (invoke f args e)
      = [EExec conn (VStr (js "BEGIN " ++ mode)); ECall fn args;
         EExec conn (VStr (js "ROLLBACK"))]
      /\ exists x, result (invoke f args e) = Throw x).
Proof.
  intros Hf. rewrite (invoke_variant _ _ _ _ _ _ Hf).
  destruct (native_exec conn (VStr (js "BEGIN " ++ mode)) e) as [e1 [u1 | err]] eqn:Hb.
  - destruct (call fn args e1) as [e2 [v | err]] eqn:Hc.
    + destruct (native_exec conn (VStr (js "COMMIT")) e2) as [e3 [u3 | failure]] eqn:Hk.
      * right. left.
        rewrite (wrapTxn_commits conn fn mode args e e1 e2 e3 u1 v u3 Hb Hc Hk).
        cbn [trace result]. eauto.
      * right. right. left.
        destruct (native_exec conn (VStr (js "ROLLBACK")) (final (convertError failure e3)))
          as [e4 r] eqn:Hr.
        rewrite (wrapTxn_commit_refused conn fn mode args e e1 e2 e3 e4 u1 v failure r
                   Hb Hc Hk Hr).
        destruct r; cbn [trace result]; eauto.
    + right. right. right.
      destruct (native_exec conn (VStr (js "ROLLBACK")) e2) as [e3 r] eqn:Hr.
      rewrite (wrapTxn_rolls_back conn fn mode args e e1 e2 e3 u1 err r Hb Hc Hr).
      destruct r; cbn [trace result]; eauto.
  - left. rewrite (wrapTxn_begin_throws conn fn mode args e e1 err Hb).
    cbn [trace result]. eauto.
Qed.

(** X13.  A transaction function returns only what [fn] returned, and only
    once the engine has accepted COMMIT: when it returns [v], the engine
    accepted BEGIN, [fn] then returned [v], the engine then accepted COMMIT,
    these were the three calls, and the state is the one COMMIT left. *)
Theorem transaction_returns_only_committed f conn fn mode args e v :
  closure_of (heap e) f = Some (WrapTxn (VDatabase conn) fn mode) ->
  result (invoke f args e) = Normal v ->
  exists e1 e2 u1 u3,
    native_exec conn (VStr (js "BEGIN " ++ mode)) e = (e1, Normal u1)
    /\ call fn args e1 = (e2, Normal v)
    /\ native_exec conn (VStr (js "COMMIT")) e2 = (final (invoke f args e), Normal u3)
    /\ trace (invoke f args e)
       = [EExec conn (VStr (js "BEGIN " ++ mode)); ECall fn args;
          EExec conn (VStr (js "COMMIT"))].
Proof.
  intros Hf. rewrite (invoke_variant _ _ _ _ _ _ Hf).
  destruct (native_exec conn (VStr (js "BEGIN " ++ mode)) e) as [e1 [u1 | err]] eqn:Hb.
  - destruct (call fn args e1) as [e2 [v' | err]] eqn:Hc.
    + destruct (native_exec conn (VStr (js "COMMIT")) e2) as [e3 [u3 | failure]] eqn:Hk.
      * rewrite (wrapTxn_commits conn fn mode args e e1 e2 e3 u1 v' u3 Hb Hc Hk).
        cbn [trace result final]. intros [= ->]. exists e1, e2, u1, u3. auto.
      * destruct (native_exec conn (VStr (js "ROLLBACK")) (final (convertError failure e3)))
          as [e4 r] eqn:Hr.
        rewrite (wrapTxn_commit_refused conn fn mode args e e1 e2 e3 e4 u1 v' failure r
                   Hb Hc Hk Hr).
        destruct r; discriminate.
    + destruct (native_exec conn (VStr (js "ROLLBACK")) e2) as [e3 r] eqn:Hr.
      rewrite (wrapTxn_rolls_back conn fn mode args e e1 e2 e3 u1 err r Hb Hc Hr).
      destruct r; discriminate.
  - rewrite (wrapTxn_begin_throws conn fn mode args e e1 err Hb). discriminate.
Qed.

End TransactionCoverage.

Section VariantCoverage.
Context {W : Type} `{Host W}.
Implicit Types (e : env W) (fn : value) (h : gmap loc object).

(** X14.  For a function [fn], [db.transaction(fn)] returns a function whose
    properties [default], [deferred], [immediate] and [exclusive] are
    functions, [default] being the one returned.  Called with [args] in any
    later state in which it is still that function, each of them issues
    [exec] of "BEGIN " followed by its mode (nothing, DEFERRED, IMMEDIATE,
    EXCLUSIVE) on the connection of [db] and, the engine accepting it, calls
    [fn(...args)]; when [fn] returns [v] it issues COMMIT and, the engine
    accepting it, returns [v]; when [fn] throws [err] it issues ROLLBACK
    and, the engine accepting it, throws [err]; when the engine refuses
    BEGIN, [fn] is not called. *)
Theorem transaction_variants_begin_in_their_mode conn fn e :
  is_function (type_of (heap e) fn) = true ->
  exists txn,
    result (Database_transaction (VDatabase conn) fn e) = Normal txn
    /\ lookup_prop (heap (final (Database_transaction (VDatabase conn) fn e))) txn
         (js "default") = Some txn
    /\ Forall
         (fun variant : jsstring * jsstring =>
            exists f,
              lookup_prop (heap (final (Database_transaction (VDatabase conn) fn e)))
                txn (fst variant) = Some f
              /\ forall args e',
                   closure_of (heap e') f
                   = closure_of (heap (final (Database_transaction (VDatabase conn) fn e)))
                       f ->
                   (forall e1 e2 e3 u1 v u3,
                      native_exec conn (VStr (js "BEGIN " ++ snd variant)) e'
                      = (e1, Normal u1) ->
                      call fn args e1 = (e2, Normal v) ->
                      native_exec conn (VStr (js "COMMIT")) e2 = (e3, Normal u3) ->
                      invoke f args e'
                      = Outcome [EExec conn (VStr (js "BEGIN " ++ snd variant));
                                 ECall fn args; EExec conn (VStr (js "COMMIT"))]
                                e3 (Normal v))
                   /\ (forall e1 e2 e3 u1 err u3,
                         native_exec conn (VStr (js "BEGIN " ++ snd variant)) e'
                         = (e1, Normal u1) ->
                         call fn args e1 = (e2, Throw err) ->
                         native_exec conn (VStr (js "ROLLBACK")) e2 = (e3, Normal u3) ->
                         invoke f args e'
                         = Outcome [EExec conn (VStr (js "BEGIN " ++ snd variant));
                                    ECall fn args; EExec conn (VStr (js "ROLLBACK"))]
                                   e3 (Throw err))
                   /\ (forall e1 failure,
                         native_exec conn (VStr (js "BEGIN " ++ snd variant)) e'
                         = (e1, Throw failure) ->
                         invoke f args e'
                         = Outcome [EExec conn (VStr (js "BEGIN " ++ snd variant))]
                                   (final (convertError failure e1))
                                   (Throw (rethrown (convertError failure e1)))))
         variants.
Proof.
  intros Ht. destruct e as [h w]. cbn [heap world] in *.
  remember (fresh (dom h)) as l1 eqn:E1.
  remember (<[l1 := function_object (WrapTxn (VDatabase conn) fn (js ""))]> h)
    as h1 eqn:Eh1.
  remember (fresh (dom h1)) as l2 eqn:E2.
  remember (<[l2 := function_object (WrapTxn (VDatabase conn) fn (js "DEFERRED"))]> h1)
    as h2 eqn:Eh2.
  remember (fresh (dom h2)) as l3 eqn:E3.
  remember (<[l3 := function_object (WrapTxn (VDatabase conn) fn (js "IMMEDIATE"))]> h2)
    as h3 eqn:Eh3.
  remember (fresh (dom h3)) as l4 eqn:E4.
  remember (<[l4 := function_object (WrapTxn (VDatabase conn) fn (js "EXCLUSIVE"))]> h3)
    as h4 eqn:Eh4.
  destruct (Database_transaction_outcome (VDatabase conn) fn h w l1 l2 l3 l4 h1 h2 h3 h4
              Ht E1 Eh1 E2 Eh2 E3 Eh3 E4 Eh4) as (ND & _ & Heq).
  rewrite Heq. clear Heq E1 E2 E3 E4 Eh1 Eh2 Eh3 Eh4.
  cbn [result final heap].
  apply NoDup_cons in ND as [N1 ND]. apply NoDup_cons in ND as [N2 ND].
  apply NoDup_cons in ND as [N3 _].
  apply not_elem_of_cons in N1 as [N12 N1]. apply not_elem_of_cons in N1 as [N13 N1].
  apply not_elem_of_cons in N1 as [N14 _].
  apply not_elem_of_cons in N2 as [N23 N2]. apply not_elem_of_cons in N2 as [N24 _].
  apply not_elem_of_cons in N3 as [N34 _].
  set (made := <[l4 := _]> _).
  assert (closure_of made (VRef l1) = Some (WrapTxn (VDatabase conn) fn (js ""))) as C1.
  { unfold closure_of, made.
    rewrite !lookup_insert_ne, lookup_insert_eq by congruence. reflexivity. }
  assert (closure_of made (VRef l2)
          = Some (WrapTxn (VDatabase conn) fn (js "DEFERRED"))) as C2.
  { unfold closure_of, made.
    rewrite !lookup_insert_ne, lookup_insert_eq by congruence. reflexivity. }
  assert (closure_of made (VRef l3)
          = Some (WrapTxn (VDatabase conn) fn (js "IMMEDIATE"))) as C3.
  { unfold closure_of, made.
    rewrite !lookup_insert_ne, lookup_insert_eq by congruence. reflexivity. }
  assert (closure_of made (VRef l4)
          = Some (WrapTxn (VDatabase conn) fn (js "EXCLUSIVE"))) as C4.
  { unfold closure_of, made. rewrite lookup_insert_eq. reflexivity. }
  assert (made !! l1
          = Some (linked_object (WrapTxn (VDatabase conn) fn (js "")) (VDatabase conn)
                    (VRef l1) (VRef l2) (VRef l3) (VRef l4))) as L1.
  { unfold made. rewrite !lookup_insert_ne, lookup_insert_eq by congruence.
    reflexivity. }
  assert (forall f mode,
            closure_of made f = Some (WrapTxn (VDatabase conn) fn mode) ->
            forall args e',
              closure_of (heap e') f = closure_of made f ->
              (forall e1 e2 e3 u1 v u3,
                 native_exec conn (VStr (js "BEGIN " ++ mode)) e' = (e1, Normal u1) ->
                 call fn args e1 = (e2, Normal v) ->
                 native_exec conn (VStr (js "COMMIT")) e2 = (e3, Normal u3) ->
                 invoke f args e'
                 = Outcome [EExec conn (VStr (js "BEGIN " ++ mode));
                            ECall fn args; EExec conn (VStr (js "COMMIT"))]
                           e3 (Normal v))
              /\ (forall e1 e2 e3 u1 err u3,
                    native_exec conn (VStr (js "BEGIN " ++ mode)) e' = (e1, Normal u1) ->
                    call fn args e1 = (e2, Throw err) ->
                    native_exec conn (VStr (js "ROLLBACK")) e2 = (e3, Normal u3) ->
                    invoke f args e'
                    = Outcome [EExec conn (VStr (js "BEGIN " ++ mode));
                               ECall fn args; EExec conn (VStr (js "ROLLBACK"))]
                              e3 (Throw err))
              /\ (forall e1 failure,
                    native_exec conn (VStr (js "BEGIN " ++ mode)) e' = (e1, Throw failure) ->
                    invoke f args e'
                    = Outcome [EExec conn (VStr (js "BEGIN " ++ mode))]
                              (final (convertError failure e1))
                              (Throw (rethrown (convertError failure e1))))) as Hrun.
  { intros f mode Hc args e' Hkept. rewrite Hc in Hkept.
    rewrite (invoke_variant _ _ _ _ _ _ Hkept). unfold wrapTxn. split; [| split].
    - intros e1 e2 e3 u1 v u3 Hb Hf Hk.
      rewrite (bind_outcome_normal _ _ e' _ e1 VUndefined
                 (Database_exec_returns _ _ conn e' e1 u1 (database_handle _ _) Hb)).
      rewrite (try_catch_outcome_normal _ _ e1
                 [ECall fn args; EExec conn (VStr (js "COMMIT"))] e3 v);
        [reflexivity |].
      rewrite (bind_outcome_normal _ _ e1 _ e2 v (boundary_outcome _ _ _ _ _ Hf)).
      rewrite (bind_outcome_normal _ _ e2 _ e3 VUndefined
                 (Database_exec_returns _ _ conn e2 e3 u3 (database_handle _ _) Hk)).
      reflexivity.
    - intros e1 e2 e3 u1 err u3 Hb Hf Hr.
      rewrite (bind_outcome_normal _ _ e' _ e1 VUndefined
                 (Database_exec_returns _ _ conn e' e1 u1 (database_handle _ _) Hb)).
      rewrite (try_catch_outcome_throw _ _ e1 [ECall fn args] e2 err)
        by (apply bind_outcome_throw, boundary_outcome, Hf).
      rewrite (bind_outcome_normal _ _ e2 _ e3 VUndefined
                 (Database_exec_returns _ _ conn e2 e3 u3 (database_handle _ _) Hr)).
      reflexivity.
    - intros e1 failure Hb. apply bind_outcome_throw.
      exact (Database_exec_throws _ _ conn e' e1 failure (database_handle _ _) Hb). }
  exists (VRef l1). split; [reflexivity |].
  split; [cbn [lookup_prop]; rewrite L1; reflexivity |].
  unfold variants. repeat constructor; cbn [fst snd lookup_prop]; rewrite L1.
  - exists (VRef l1). split; [reflexivity |]. exact (Hrun _ _ C1).
  - exists (VRef l2). split; [reflexivity |]. exact (Hrun _ _ C2).
  - exists (VRef l3). split; [reflexivity |]. exact (Hrun _ _ C3).
  - exists (VRef l4). split; [reflexivity |]. exact (Hrun _ _ C4).
Qed.

End VariantCoverage.

(** ** Methods that hand over to the engine *)

Section HandoverCoverage.
Context {W : Type} `{Engine W}.
Implicit Types (e : env W) (this handle : value).

Lemma hand_over_outcome this (field : jsstring) (method : value -> T W value) handle e :
  lookup_prop (heap e) this field = Some handle ->
  hand_over this field method e = method handle e.
Proof.
  intros Hl. unfold hand_over, settled.
  rewrite (get_prop_some this field e handle Hl). reflexivity.
Qed.

Lemma then_return_outcome (m : T W value) (v : value) e e' r :
  m e = (e', r) ->
  then_return m v e
  = (e', match r with
         | Normal _ => Normal v
         | Throw err => Throw err
         end).
Proof. intros Hm. unfold then_return. rewrite Hm. destruct r; reflexivity. Qed.

(** X15.  Each of [interrupt], [close] and [defaultSafeIntegers] of
    [Database] and of [raw], [interrupt], [columns] and [safeIntegers] of
    [Statement] leaves the state as the native method of its name left it,
    called on the handle with the argument as it was given.  When the engine
    returns, [interrupt] and [close] of [Database] return undefined,
    [columns] returns what the engine returned, and the four others return
    the object they were called on.  When the engine throws, the method
    throws the same value: none of the seven converts an error. *)
Theorem hand_over_methods_add_nothing this handle arg e e' r :
  (lookup_prop (heap e) this (js "db") = Some handle ->
   (native_interrupt handle e = (e', r) ->
    Database_interrupt this e
    = (e', match r with Normal _ => Normal VUndefined | Throw err => Throw err end))
   /\ (native_close handle e = (e', r) ->
       Database_close this e
       = (e', match r with Normal _ => Normal VUndefined | Throw err => Throw err end))
   /\ (native_defaultSafeIntegers handle arg e = (e', r) ->
       Database_defaultSafeIntegers this arg e
       = (e', match r with Normal _ => Normal this | Throw err => Throw err end)))
  /\ (lookup_prop (heap e) this (js "stmt") = Some handle ->
      (native_raw handle arg e = (e', r) ->
       Statement_raw this arg e
       = (e', match r with Normal _ => Normal this | Throw err => Throw err end))
      /\ (native_stmt_interrupt handle e = (e', r) ->
          Statement_interrupt this e
          = (e', match r with Normal _ => Normal this | Throw err => Throw err end))
      /\ (native_columns handle e = (e', r) ->
          Statement_columns this e = (e', r))
      /\ (native_safeIntegers handle arg e = (e', r) ->
          Statement_safeIntegers this arg e
          = (e', match r with Normal _ => Normal this | Throw err => Throw err end))).
Proof.
  split; intros Hl; repeat split; intros Hf;
    unfold Database_interrupt, Database_close, Database_defaultSafeIntegers,
      Statement_raw, Statement_interrupt, Statement_columns, Statement_safeIntegers;
    first [ apply then_return_outcome; rewrite (hand_over_outcome _ _ _ _ _ Hl); exact Hf
          | rewrite (hand_over_outcome _ _ _ _ _ Hl); exact Hf ].
Qed.

(** X16.  The settings of a statement chain:
    [stmt.raw(r).safeIntegers(t).columns()] calls the three native methods
    in this order on the one handle of [stmt] and returns what [columns]
    returns.  When the engine refuses [safeIntegers], [columns] is not
    called and the refusal is thrown as it is. *)
Theorem statement_settings_chain stmt raw toggle e e1 e2 u1 r2 :
  native_raw stmt raw e = (e1, Normal u1) ->
  native_safeIntegers stmt toggle e1 = (e2, r2) ->
  and_then (Statement_raw (VStatement stmt) raw)
    (fun s => and_then (Statement_safeIntegers s toggle) Statement_columns) e
  = match r2 with
    | Normal _ => native_columns stmt e2
    | Throw err => (e2, Throw err)
    end.
Proof.
  intros Hr Hs. unfold and_then at 1.
  unfold Statement_raw at 1.
  rewrite (then_return_outcome _ (VStatement stmt) e e1 (Normal u1))
    by (rewrite (hand_over_outcome (VStatement stmt) (js "stmt") _ stmt e eq_refl);
        exact Hr).
  unfold and_then, Statement_safeIntegers.
  rewrite (then_return_outcome _ (VStatement stmt) e1 e2 r2)
    by (rewrite (hand_over_outcome (VStatement stmt) (js "stmt") _ stmt e1 eq_refl);
        exact Hs).
  destruct r2 as [u2 | err]; [| reflexivity].
  unfold Statement_columns.
  apply (hand_over_outcome (VStatement stmt) (js "stmt") _ stmt e2 eq_refl).
Qed.

End HandoverCoverage.

(** * The properties at concrete inputs *)

Module Witnesses.
Import Examples.

Lemma convertError_builds_SqliteError_witness :
  lookup_prop (heap start) busy (js "message") = Some (VStr busy_text)
  /\ JSON.stringify (payload (js "database is locked") (js "SQLITE_BUSY") 5)
     = Some busy_text
  /\ converted (convertError busy start) start
       (VStr (js "database is locked")) (VStr (js "SQLITE_BUSY")) (VInt 5).
Proof.
  split; [reflexivity |]. split; [vm_compute; reflexivity |].
  apply (proj2 (convertError_builds_SqliteError start busy busy_text eq_refl)
           (js "database is locked") (js "SQLITE_BUSY") 5%Z).
  vm_compute. reflexivity.
Defined.

Lemma convertError_returns_err_itself_witness :
  lookup_prop (heap start) boom (js "message") = Some (VStr (js "boom"))
  /\ JSON.parse (js "boom") = None
  /\ result (convertError boom start) = Normal boom
  /\ heap start ⊆ heap (final (convertError boom start))
  /\ world (final (convertError boom start)) = world start
  /\ trace (convertError boom start) = [].
Proof.
  split; [reflexivity |]. split; [vm_compute; reflexivity |].
  apply (convertError_returns_err_itself start boom (VStr (js "boom")));
    [reflexivity |].
  right. left. exists (js "boom"). split; [reflexivity | vm_compute; reflexivity].
Defined.

Lemma engine_error_normalised_once_witness :
  lookup_prop (heap start) statement (js "stmt") = Some (VInt 2)
  /\ @engine_call nat statements_fail (Execute Run statement []) (VInt 2) start
     = (Env objects 1%nat, Throw busy)
  /\ @facade_call nat statements_fail (Execute Run statement []) start
     = Outcome [EStmt Run (VInt 2) []]
               (final (convertError busy (Env objects 1%nat)))
               (Throw (rethrown (convertError busy (Env objects 1%nat)))).
Proof.
  split; [reflexivity |]. split; [reflexivity |].
  apply (proj1 (@engine_error_normalised_once nat statements_fail
                  (Execute Run statement []) (VInt 2) start (Env objects 1%nat) busy
                  eq_refl eq_refl)).
Defined.

Lemma convertError_total_but_nullish_witness :
  @get_property nat ReadExamples.getter_throws boom (js "message") start
  = Outcome [] start (Normal (VStr (js "boom")))
  /\ (exists v,
        result (@Reading.convertError nat ReadExamples.getter_throws boom start)
        = Normal v)
  /\ lookup_prop (heap start) statement (js "stmt") = Some (VInt 2)
  /\ @engine_call nat throws_null (Execute Get statement []) (VInt 2) start
     = (Env objects 1%nat, Throw VNull)
  /\ nullish VNull = true
  /\ exists l,
       result (@facade_call nat throws_null (Execute Get statement []) start)
       = Throw (VRef l)
       /\ heap (Env objects 1%nat) !! l = None
       /\ instance_of
            (heap (final (@facade_call nat throws_null (Execute Get statement []) start)))
            (VRef l)
          = Some CTypeError.
Proof.
  split; [reflexivity |].
  split; [apply (proj1 (@convertError_total_but_nullish nat throws_null)
                   ReadExamples.getter_throws start boom [] start (VStr (js "boom")));
          reflexivity |].
  split; [reflexivity |]. split; [reflexivity |]. split; [reflexivity |].
  apply (proj2 (@convertError_total_but_nullish nat throws_null)
           (Execute Get statement []) (VInt 2) start (Env objects 1%nat) VNull);
    reflexivity.
Defined.

(** C10 as stated fails for an error whose [message] is an accessor
    property: the error is an object, neither undefined nor null, the read
    of [err.message] in the test of the [if] runs the getter, the getter
    throws, and so does [convertError]. *)
Lemma convertError_raises_on_getter :
  nullish ReadExamples.guarded = false
  /\ type_of (heap ReadExamples.guarded_start) ReadExamples.guarded = TObject
  /\ result (@get_property nat ReadExamples.getter_throws ReadExamples.guarded
               (js "message") ReadExamples.guarded_start)
     = Throw boom
  /\ result (@Reading.convertError nat ReadExamples.getter_throws ReadExamples.guarded
               ReadExamples.guarded_start)
     = Throw boom
  /\ ~ (exists v,
          result (@Reading.convertError nat ReadExamples.getter_throws
                    ReadExamples.guarded ReadExamples.guarded_start)
          = Normal v).
Proof.
  split; [reflexivity |]. split; [vm_compute; reflexivity |].
  split; [vm_compute; reflexivity |]. split; [vm_compute; reflexivity |].
  intros [v Hv]. vm_compute in Hv. discriminate Hv.
Qed.

Lemma transaction_commits_witness :
  closure_of (heap ready) default_variant
  = Some (WrapTxn (VDatabase (VInt 1)) user_fn (js ""))
  /\ @native_exec nat quiet (VInt 1) (VStr (js "BEGIN " ++ js "")) ready
     = (Env (heap ready) 1%nat, Normal VUndefined)
  /\ @call nat quiet user_fn [VInt 3] (Env (heap ready) 1%nat)
     = (Env (heap ready) 1%nat, Normal (VInt 42))
  /\ @native_exec nat quiet (VInt 1) (VStr (js "COMMIT")) (Env (heap ready) 1%nat)
     = (Env (heap ready) 2%nat, Normal VUndefined)
  /\ @invoke nat quiet default_variant [VInt 3] ready
     = Outcome [EExec (VInt 1) (VStr (js "BEGIN " ++ js ""));
                ECall user_fn [VInt 3];
                EExec (VInt 1) (VStr (js "COMMIT"))]
               (Env (heap ready) 2%nat) (Normal (VInt 42)).
Proof.
  split; [vm_compute; reflexivity |]. split; [reflexivity |].
  split; [reflexivity |]. split; [reflexivity |].
  apply (@transaction_commits nat quiet default_variant (VInt 1) user_fn (js "")
           [VInt 3] ready (Env (heap ready) 1%nat) (Env (heap ready) 1%nat)
           (Env (heap ready) 2%nat) VUndefined (VInt 42) VUndefined);
    [vm_compute; reflexivity | reflexivity | reflexivity | reflexivity].
Defined.

(** C2 as stated fails where the engine refuses COMMIT: the user's function
    has returned 42, and the transaction function goes on to issue ROLLBACK
    and throws the failure of COMMIT, converted. *)
Lemma transaction_commit_refused :
  @native_exec nat commit_fails (VInt 1) (VStr (js "BEGIN ")) ready
  = (Env (heap ready) 1%nat, Normal VUndefined)
  /\ @call nat commit_fails user_fn [] (Env (heap ready) 1%nat)
     = (Env (heap ready) 1%nat, Normal (VInt 42))
  /\ trace (@invoke nat commit_fails default_variant [] ready)
     = [EExec (VInt 1) (VStr (js "BEGIN "));
        ECall user_fn [];
        EExec (VInt 1) (VStr (js "COMMIT"));
        EExec (VInt 1) (VStr (js "ROLLBACK"))]
  /\ (exists l,
        result (@invoke nat commit_fails default_variant [] ready) = Throw (VRef l)
        /\ instance_of (heap (final (@invoke nat commit_fails default_variant [] ready)))
             (VRef l) = Some CSqliteError
        /\ lookup_prop (heap (final (@invoke nat commit_fails default_variant [] ready)))
             (VRef l) (js "code") = Some (VStr (js "SQLITE_BUSY")))
  /\ ~ (trace (@invoke nat commit_fails default_variant [] ready)
        = [EExec (VInt 1) (VStr (js "BEGIN "));
           ECall user_fn [];
           EExec (VInt 1) (VStr (js "COMMIT"))]
        /\ result (@invoke nat commit_fails default_variant [] ready)
           = Normal (VInt 42)).
Proof.
  split; [reflexivity |]. split; [reflexivity |].
  split; [vm_compute; reflexivity |].
  split.
  - eexists. split; [vm_compute; reflexivity |].
    split; vm_compute; reflexivity.
  - intros [_ Hr]. vm_compute in Hr. discriminate Hr.
Qed.

Lemma transaction_rolls_back_witness :
  closure_of (heap ready) default_variant
  = Some (WrapTxn (VDatabase (VInt 1)) user_fn (js ""))
  /\ @native_exec nat fn_throws (VInt 1) (VStr (js "BEGIN " ++ js "")) ready
     = (Env (heap ready) 1%nat, Normal VUndefined)
  /\ @call nat fn_throws user_fn [] (Env (heap ready) 1%nat)
     = (Env (heap ready) 1%nat, Throw boom)
  /\ @native_exec nat fn_throws (VInt 1) (VStr (js "ROLLBACK")) (Env (heap ready) 1%nat)
     = (Env (heap ready) 2%nat, Normal VUndefined)
  /\ @invoke nat fn_throws default_variant [] ready
     = Outcome [EExec (VInt 1) (VStr (js "BEGIN " ++ js ""));
                ECall user_fn [];
                EExec (VInt 1) (VStr (js "ROLLBACK"))]
               (Env (heap ready) 2%nat) (Throw boom).
Proof.
  split; [vm_compute; reflexivity |]. split; [reflexivity |].
  split; [reflexivity |]. split; [reflexivity |].
  apply (@transaction_rolls_back nat fn_throws default_variant (VInt 1) user_fn (js "")
           [] ready (Env (heap ready) 1%nat) (Env (heap ready) 1%nat)
           (Env (heap ready) 2%nat) VUndefined boom (Normal VUndefined));
    [vm_compute; reflexivity | reflexivity | reflexivity | reflexivity].
Defined.

Lemma transaction_begin_refused_witness :
  closure_of (heap ready) immediate_variant
  = Some (WrapTxn (VDatabase (VInt 1)) user_fn (js "IMMEDIATE"))
  /\ @native_exec nat begin_fails (VInt 1) (VStr (js "BEGIN " ++ js "IMMEDIATE")) ready
     = (Env (heap ready) 1%nat, Throw busy)
  /\ @invoke nat begin_fails immediate_variant [] ready
     = Outcome [EExec (VInt 1) (VStr (js "BEGIN " ++ js "IMMEDIATE"))]
               (final (convertError busy (Env (heap ready) 1%nat)))
               (Throw (rethrown (convertError busy (Env (heap ready) 1%nat)))).
Proof.
  split; [vm_compute; reflexivity |]. split; [vm_compute; reflexivity |].
  apply (@transaction_begin_refused nat begin_fails immediate_variant (VInt 1) user_fn
           (js "IMMEDIATE") [] ready (Env (heap ready) 1%nat) busy);
    vm_compute; reflexivity.
Defined.

Lemma transaction_links_four_variants_witness :
  is_function (type_of (heap start) user_fn) = true
  /\ exists l1 l2 l3 l4,
       let o := Database_transaction connection user_fn start in
       NoDup [l1; l2; l3; l4]
       /\ Forall (fun l => heap start !! l = None) [l1; l2; l3; l4]
       /\ result o = Normal (VRef l1)
       /\ trace o = []
       /\ world (final o) = world start
       /\ heap start ⊆ heap (final o)
       /\ closure_of (heap (final o)) (VRef l1) = Some (WrapTxn connection user_fn (js ""))
       /\ closure_of (heap (final o)) (VRef l2)
          = Some (WrapTxn connection user_fn (js "DEFERRED"))
       /\ closure_of (heap (final o)) (VRef l3)
          = Some (WrapTxn connection user_fn (js "IMMEDIATE"))
       /\ closure_of (heap (final o)) (VRef l4)
          = Some (WrapTxn connection user_fn (js "EXCLUSIVE"))
       /\ Forall (fun l => linked (heap (final o)) (VRef l) connection
                             (VRef l1) (VRef l2) (VRef l3) (VRef l4))
                 [l1; l2; l3; l4].
Proof.
  split; [reflexivity |].
  apply (transaction_links_four_variants connection user_fn start). reflexivity.
Defined.

Lemma argument_errors_come_first_witness :
  is_function (type_of (heap start) (VInt 3)) = false
  /\ argument_error (@Database_transaction nat connection (VInt 3) start) start
       (js "Expected first argument to be a function")
  /\ is_string (type_of (heap start) (VInt 1)) = false
  /\ argument_error (@Database_pragma nat quiet connection (VInt 1) VUndefined start)
       start (js "Expected first argument to be a string")
  /\ is_object (type_of (heap start) (default_options (VStr (js "simple")))) = false
  /\ argument_error
       (@Database_pragma nat quiet connection (VStr (js "busy_timeout"))
          (VStr (js "simple")) start)
       start (js "Expected second argument to be an options object").
Proof.
  pose proof (@argument_errors_come_first nat quiet connection start) as (Ht & Hs & Ho).
  split; [reflexivity |]. split; [apply Ht; reflexivity |].
  split; [reflexivity |]. split; [apply Hs; reflexivity |].
  split; [reflexivity |].
  apply (Ho (VStr (js "busy_timeout")) (VStr (js "simple"))). reflexivity.
Defined.

Lemma pragma_prepares_and_reads_witness :
  lookup_prop (heap start) connection (js "db") = Some (VInt 1)
  /\ @Database_pragma nat quiet connection (VStr (js "busy_timeout"))
       (VData (JObject [(js "simple", JBool true)])) start
     = Outcome [EPrepare (VInt 1) (VStr (js "PRAGMA " ++ js "busy_timeout"));
                EPluck (VInt 2) VUndefined; EStmt Get (VInt 2) []]
               (Env objects 3%nat) (Normal (VInt 7))
  /\ @Database_pragma nat quiet connection (VStr (js "table_info(users)")) VUndefined start
     = Outcome [EPrepare (VInt 1) (VStr (js "PRAGMA " ++ js "table_info(users)"));
                EStmt All (VInt 2) []]
               (Env objects 2%nat) (Normal (VInt 7)).
Proof.
  pose proof (@pragma_prepares_and_reads nat quiet connection (VInt 1) start eq_refl)
    as (Hrun & _).
  split; [reflexivity |]. split.
  - apply (proj1 (proj2 (Hrun (js "busy_timeout")
                           (VData (JObject [(js "simple", JBool true)]))
                           (VData (JBool true)) eq_refl eq_refl))
             (Env objects 1%nat) (Env objects 2%nat) (Env objects 3%nat)
             (VInt 2) VUndefined (VInt 7));
      reflexivity.
  - apply (proj2 (proj2 (Hrun (js "table_info(users)") VUndefined VUndefined
                           eq_refl eq_refl))
             (Env objects 1%nat) (Env objects 2%nat) (VInt 2) (VInt 7));
      reflexivity.
Defined.

(** A failure of ROLLBACK takes the place of the error of the user's
    function. *)
Example rollback_failure_supersedes :
  result (@invoke nat rollback_fails default_variant [] ready) = Throw fault
  /\ trace (@invoke nat rollback_fails default_variant [] ready)
     = [EExec (VInt 1) (VStr (js "BEGIN "));
        ECall user_fn [];
        EExec (VInt 1) (VStr (js "ROLLBACK"))].
Proof. split; vm_compute; reflexivity. Qed.

(** An error with a structured message thrown by [prepare] reaches the
    caller as a [SqliteError] with the code of the engine. *)
Example prepare_failure_is_converted :
  exists l,
    result (@Database_prepare nat statements_fail connection (VStr (js "SELECT 1")) start)
    = Throw (VRef l)
    /\ lookup_prop
         (heap (final (@Database_prepare nat statements_fail connection
                         (VStr (js "SELECT 1")) start)))
         (VRef l) (js "code")
       = Some (VStr (js "SQLITE_BUSY"))
    /\ lookup_prop
         (heap (final (@Database_prepare nat statements_fail connection
                         (VStr (js "SELECT 1")) start)))
         (VRef l) (js "rawCode")
       = Some (VInt 5).
Proof. eexists. repeat split; vm_compute; reflexivity. Qed.

(** The first revision of [convertError] (wrapper.js) looks for the marker
    on the error, not in its message: the same error passes unconverted. *)
Example first_revision_does_not_parse :
  result (@Wrapper.convertError nat busy start) = Normal busy.
Proof. vm_compute. reflexivity. Qed.

(** [JSON.parse] on a few texts. *)
Example parse_nested :
  JSON.parse (js " [1, -2.50e3, true, null, [], {} ] ")
  = Some (JArray [JNumber (Finite false 1 0); JNumber (Finite true 250 1);
                  JBool true; JNull; JArray []; JObject []]).
Proof. vm_compute. reflexivity. Qed.

Example parse_escapes :
  JSON.parse ([34] ++ js "a\u0041\n\/" ++ [34]) = Some (JString (js "aA" ++ [10; 47])).
Proof. vm_compute. reflexivity. Qed.

Example parse_last_duplicate_wins :
  JSON.parse ([123] ++ JSON.quote (js "a") ++ js ":1," ++ JSON.quote (js "b")
              ++ js ":2," ++ JSON.quote (js "a") ++ js ":3}")
  = Some (JObject [(js "a", JNumber (Finite false 3 0));
                   (js "b", JNumber (Finite false 2 0))]).
Proof. vm_compute. reflexivity. Qed.

(** [JSON.stringify], and the reading back of what it wrote. *)
Example stringify_nested :
  JSON.stringify (JArray [JObject [(js "a", JNumber (Finite true 7 0)); (js "b", JArray [])];
                          JString (js "x"); JNull])
  = Some ([91; 123] ++ JSON.quote (js "a") ++ js ":-7," ++ JSON.quote (js "b")
          ++ js ":[]}," ++ JSON.quote (js "x") ++ js ",null]").
Proof. vm_compute. reflexivity. Qed.

Example minus_zero_is_not_read_back :
  JSON.stringify (JNumber (Finite true 0 0)) = Some (js "0")
  /\ JSON.parse (js "0") = Some (JNumber (Finite false 0 0)).
Proof. vm_compute. split; reflexivity. Qed.

Example parse_rejects :
  JSON.parse (js "[1,]") = None
  /\ JSON.parse (js "01") = None
  /\ JSON.parse (js "1.") = None
  /\ JSON.parse (js "tru") = None
  /\ JSON.parse (js "boom") = None
  /\ JSON.parse (js "") = None
  /\ JSON.parse ([34; 9; 34]) = None.
Proof. repeat split; vm_compute; reflexivity. Qed.

(** A magnitude binary64 rounds to zero is falsy, however it is written. *)
Example underflow_is_falsy :
  let text := [123] ++ JSON.quote (js "libsqlError") ++ [58] ++ js "1e-400" ++ [125] in
  option_map marker_of (JSON.parse text)
  = Some (VData (JNumber (Finite false 1 (-400))))
  /\ carries_marker (VStr text) = false.
Proof. split; vm_compute; reflexivity. Qed.

End Witnesses.

(** * The further properties at concrete inputs *)

Module CoverageWitnesses.
Import Examples MoreExamples.


Lemma convertError_accepts_any_truthy_marker_witness :
  lookup_prop (heap later) unusual (js "message") = Some (VStr unusual_text)
  /\ JSON.parse unusual_text
     = Some (JObject [(js "libsqlError", JNumber (Finite false 1 0));
                      (js "message", JString (js "disk full"));
                      (js "code", JString (js "SQLITE_FULL"))])
  /\ converted (convertError unusual later) later
       (VStr (js "disk full")) (VStr (js "SQLITE_FULL")) VUndefined.
Proof.
  split; [reflexivity |]. split; [vm_compute; reflexivity |].
  apply (convertError_accepts_any_truthy_marker later unusual unusual_text
           [(js "libsqlError", JNumber (Finite false 1 0));
            (js "message", JString (js "disk full"));
            (js "code", JString (js "SQLITE_FULL"))]
           (JNumber (Finite false 1 0)) (js "disk full") (js "SQLITE_FULL"));
    vm_compute; reflexivity.
Defined.

Lemma revisions_differ_on_engine_errors_witness :
  lookup_prop (heap start) busy (js "libsqlError") = Some VUndefined
  /\ truthy VUndefined = false
  /\ lookup_prop (heap start) busy (js "message")
     = Some (VStr (payload_text (js "database is locked") (js "SQLITE_BUSY") 5))
  /\ Wrapper.convertError busy start = Outcome [] start (Normal busy)
  /\ converted (convertError busy start) start
       (VStr (js "database is locked")) (VStr (js "SQLITE_BUSY")) (VInt 5)
  /\ result (convertError busy start) <> Normal busy.
Proof.
  split; [reflexivity |]. split; [reflexivity |]. split; [reflexivity |].
  apply (revisions_differ_on_engine_errors start busy VUndefined
           (js "database is locked") (js "SQLITE_BUSY") 5%Z);
    reflexivity.
Defined.

Lemma entries_hand_back_the_engine_result_witness :
  lookup_prop (heap start) connection (js "db") = Some (VInt 1)
  /\ @engine_call nat quiet (Prepare connection (VStr (js "SELECT 1"))) (VInt 1) start
     = (Env objects 1%nat, Normal (VInt 2))
  /\ @facade_call nat quiet (Prepare connection (VStr (js "SELECT 1"))) start
     = Outcome [EPrepare (VInt 1) (VStr (js "SELECT 1"))] (Env objects 1%nat)
               (Normal (VStatement (VInt 2))).
Proof.
  split; [reflexivity |]. split; [reflexivity |].
  apply (@entries_hand_back_the_engine_result nat quiet
           (Prepare connection (VStr (js "SELECT 1"))) (VInt 1) start
           (Env objects 1%nat) (VInt 2));
    reflexivity.
Defined.

Lemma prepared_statement_runs_on_its_handle_witness :
  lookup_prop (heap start) connection (js "db") = Some (VInt 1)
  /\ @native_prepare nat statements_fail (VInt 1) (VStr (js "SELECT 1")) start
     = (Env objects 1%nat, Throw busy)
  /\ @native_prepare nat quiet (VInt 1) (VStr (js "SELECT 1")) start
     = (Env objects 1%nat, Normal (VInt 2))
  /\ @native_stmt nat quiet All (VInt 2) [VInt 3] (Env objects 1%nat)
     = (Env objects 2%nat, Normal (VInt 7))
  /\ (do s <- @Database_prepare nat quiet connection (VStr (js "SELECT 1"));
      @Statement_execute nat quiet All s [VInt 3]) start
     = Outcome [EPrepare (VInt 1) (VStr (js "SELECT 1")); EStmt All (VInt 2) [VInt 3]]
               (Env objects 2%nat) (Normal (VInt 7)).
Proof.
  split; [reflexivity |]. split; [reflexivity |]. split; [reflexivity |].
  split; [reflexivity |].
  apply (@prepared_statement_runs_on_its_handle nat quiet connection (VInt 1)
           (VStr (js "SELECT 1")) All [VInt 3] start (Env objects 1%nat)
           (Env objects 2%nat) (VInt 2) (Normal (VInt 7)));
    reflexivity.
Defined.

Lemma pluck_hands_over_witness :
  lookup_prop (heap start) statement (js "stmt") = Some (VInt 2)
  /\ @native_pluck nat pluck_fails (VInt 2) (VData (JBool true)) start
     = (Env objects 1%nat, Throw busy)
  /\ @Statement_pluck nat pluck_fails statement (VData (JBool true)) start
     = Outcome [EPluck (VInt 2) (VData (JBool true))] (Env objects 1%nat) (Throw busy).
Proof.
  split; [reflexivity |]. split; [reflexivity |].
  apply (@pluck_hands_over nat pluck_fails statement (VInt 2) (VData (JBool true))
           start (Env objects 1%nat) (Throw busy));
    reflexivity.
Defined.

Lemma pragma_failures_witness :
  lookup_prop (heap start) connection (js "db") = Some (VInt 1)
  /\ is_object (type_of (heap start)
                  (default_options (VData (JObject [(js "simple", JBool true)])))) = true
  /\ lookup_prop (heap start)
       (default_options (VData (JObject [(js "simple", JBool true)]))) (js "simple")
     = Some (VData (JBool true))
  /\ @native_prepare nat pluck_fails (VInt 1) (VStr (js "PRAGMA " ++ js "busy_timeout"))
       start
     = (Env objects 1%nat, Normal (VInt 2))
  /\ @native_pluck nat pluck_fails (VInt 2) VUndefined (Env objects 1%nat)
     = (Env objects 2%nat, Throw busy)
  /\ @Database_pragma nat pluck_fails connection (VStr (js "busy_timeout"))
       (VData (JObject [(js "simple", JBool true)])) start
     = Outcome [EPrepare (VInt 1) (VStr (js "PRAGMA " ++ js "busy_timeout"));
                EPluck (VInt 2) VUndefined]
               (Env objects 2%nat) (Throw busy).
Proof.
  split; [reflexivity |]. split; [reflexivity |]. split; [reflexivity |].
  split; [reflexivity |]. split; [reflexivity |].
  apply (proj1 (@pragma_failures nat pluck_fails connection (VInt 1) (js "busy_timeout")
                  (VData (JObject [(js "simple", JBool true)])) (VData (JBool true))
                  start (Env objects 1%nat) (VInt 2)
                  eq_refl eq_refl eq_refl eq_refl)
           eq_refl (Env objects 2%nat) busy).
  reflexivity.
Defined.

Lemma pragma_calls_have_five_shapes_witness :
  lookup_prop (heap start) connection (js "db") = Some (VInt 1)
  /\ (trace (@Database_pragma nat quiet connection (VStr (js "busy_timeout")) VNull start)
      = []
      \/ exists src,
           VStr (js "busy_timeout") = VStr src
           /\ (trace (@Database_pragma nat quiet connection (VStr (js "busy_timeout"))
                        VNull start)
               = [EPrepare (VInt 1) (VStr (js "PRAGMA " ++ src))]
               \/ exists stmt,
                    trace (@Database_pragma nat quiet connection
                             (VStr (js "busy_timeout")) VNull start)
                    = [EPrepare (VInt 1) (VStr (js "PRAGMA " ++ src));
                       EPluck stmt VUndefined]
                    \/ trace (@Database_pragma nat quiet connection
                                (VStr (js "busy_timeout")) VNull start)
                       = [EPrepare (VInt 1) (VStr (js "PRAGMA " ++ src));
                          EPluck stmt VUndefined; EStmt Get stmt []]
                    \/ trace (@Database_pragma nat quiet connection
                                (VStr (js "busy_timeout")) VNull start)
                       = [EPrepare (VInt 1) (VStr (js "PRAGMA " ++ src));
                          EStmt All stmt []])).
Proof.
  split; [reflexivity |].
  apply (@pragma_calls_have_five_shapes nat quiet connection (VInt 1)
           (VStr (js "busy_timeout")) VNull start).
  reflexivity.
Defined.

Lemma commit_failure_rolls_back_witness :
  closure_of (heap ready) default_variant
  = Some (WrapTxn (VDatabase (VInt 1)) user_fn (js ""))
  /\ @native_exec nat commit_fails (VInt 1) (VStr (js "BEGIN " ++ js "")) ready
     = (Env (heap ready) 1%nat, Normal VUndefined)
  /\ @call nat commit_fails user_fn [] (Env (heap ready) 1%nat)
     = (Env (heap ready) 1%nat, Normal (VInt 42))
  /\ @native_exec nat commit_fails (VInt 1) (VStr (js "COMMIT")) (Env (heap ready) 1%nat)
     = (Env (heap ready) 2%nat, Throw busy)
  /\ @native_exec nat commit_fails (VInt 1) (VStr (js "ROLLBACK"))
       (final (convertError busy (Env (heap ready) 2%nat)))
     = (Env (heap (final (convertError busy (Env (heap ready) 2%nat)))) 3%nat,
        Normal VUndefined)
  /\ @invoke nat commit_fails default_variant [] ready
     = Outcome [EExec (VInt 1) (VStr (js "BEGIN " ++ js "")); ECall user_fn [];
                EExec (VInt 1) (VStr (js "COMMIT")); EExec (VInt 1) (VStr (js "ROLLBACK"))]
               (Env (heap (final (convertError busy (Env (heap ready) 2%nat)))) 3%nat)
               (Throw (rethrown (convertError busy (Env (heap ready) 2%nat)))).
Proof.
  split; [vm_compute; reflexivity |]. split; [reflexivity |].
  split; [reflexivity |]. split; [vm_compute; reflexivity |].
  split; [vm_compute; reflexivity |].
  apply (@commit_failure_rolls_back nat commit_fails default_variant (VInt 1) user_fn
           (js "") [] ready (Env (heap ready) 1%nat) (Env (heap ready) 1%nat)
           (Env (heap ready) 2%nat)
           (Env (heap (final (convertError busy (Env (heap ready) 2%nat)))) 3%nat)
           VUndefined (VInt 42) busy (Normal VUndefined));
    vm_compute; reflexivity.
Defined.

Lemma transaction_calls_have_four_shapes_witness :
  closure_of (heap ready) default_variant
  = Some (WrapTxn (VDatabase (VInt 1)) user_fn (js ""))
  /\ ((trace (@invoke nat fn_throws default_variant [] ready)
       = [EExec (VInt 1) (VStr (js "BEGIN " ++ js ""))]
       /\ exists x, result (@invoke nat fn_throws default_variant [] ready) = Throw x)
      \/ (trace (@invoke nat fn_throws default_variant [] ready)
          = [EExec (VInt 1) (VStr (js "BEGIN " ++ js "")); ECall user_fn [];
             EExec (VInt 1) (VStr (js "COMMIT"))]
          /\ exists v, result (@invoke nat fn_throws default_variant [] ready) = Normal v)
      \/ (trace (@invoke nat fn_throws default_variant [] ready)
          = [EExec (VInt 1) (VStr (js "BEGIN " ++ js "")); ECall user_fn [];
             EExec (VInt 1) (VStr (js "COMMIT")); EExec (VInt 1) (VStr (js "ROLLBACK"))]
          /\ exists x, result (@invoke nat fn_throws default_variant [] ready) = Throw x)
      \/ (trace (@invoke nat fn_throws default_variant [] ready)
          = [EExec (VInt 1) (VStr (js "BEGIN " ++ js "")); ECall user_fn [];
             EExec (VInt 1) (VStr (js "ROLLBACK"))]
          /\ exists x, result (@invoke nat fn_throws default_variant [] ready) = Throw x)).
Proof.
  split; [vm_compute; reflexivity |].
  apply (@transaction_calls_have_four_shapes nat fn_throws default_variant (VInt 1)
           user_fn (js "") [] ready).
  vm_compute; reflexivity.
Defined.

Lemma transaction_returns_only_committed_witness :
  closure_of (heap ready) default_variant
  = Some (WrapTxn (VDatabase (VInt 1)) user_fn (js ""))
  /\ result (@invoke nat quiet default_variant [VInt 3] ready) = Normal (VInt 42)
  /\ exists e1 e2 u1 u3,
       @native_exec nat quiet (VInt 1) (VStr (js "BEGIN " ++ js "")) ready
       = (e1, Normal u1)
       /\ @call nat quiet user_fn [VInt 3] e1 = (e2, Normal (VInt 42))
       /\ @native_exec nat quiet (VInt 1) (VStr (js "COMMIT")) e2
          = (final (@invoke nat quiet default_variant [VInt 3] ready), Normal u3)
       /\ trace (@invoke nat quiet default_variant [VInt 3] ready)
          = [EExec (VInt 1) (VStr (js "BEGIN " ++ js "")); ECall user_fn [VInt 3];
             EExec (VInt 1) (VStr (js "COMMIT"))].
Proof.
  split; [vm_compute; reflexivity |]. split; [vm_compute; reflexivity |].
  apply (@transaction_returns_only_committed nat quiet default_variant (VInt 1) user_fn
           (js "") [VInt 3] ready (VInt 42));
    vm_compute; reflexivity.
Defined.

Lemma transaction_variants_begin_in_their_mode_witness :
  is_function (type_of (heap start) user_fn) = true
  /\ exists txn,
       result (Database_transaction (VDatabase (VInt 1)) user_fn start) = Normal txn
       /\ lookup_prop (heap (final (Database_transaction (VDatabase (VInt 1)) user_fn
                                      start)))
            txn (js "default") = Some txn
       /\ Forall
            (fun variant : jsstring * jsstring =>
               exists f,
                 lookup_prop (heap (final (Database_transaction (VDatabase (VInt 1))
                                             user_fn start)))
                   txn (fst variant) = Some f
                 /\ forall args e',
                      closure_of (heap e') f
                      = closure_of (heap (final (Database_transaction
                                                   (VDatabase (VInt 1)) user_fn start)))
                          f ->
                      (forall e1 e2 e3 u1 v u3,
                         @native_exec nat quiet (VInt 1)
                           (VStr (js "BEGIN " ++ snd variant)) e'
                         = (e1, Normal u1) ->
                         @call nat quiet user_fn args e1 = (e2, Normal v) ->
                         @native_exec nat quiet (VInt 1) (VStr (js "COMMIT")) e2
                         = (e3, Normal u3) ->
                         @invoke nat quiet f args e'
                         = Outcome [EExec (VInt 1) (VStr (js "BEGIN " ++ snd variant));
                                    ECall user_fn args;
                                    EExec (VInt 1) (VStr (js "COMMIT"))]
                                   e3 (Normal v))
                      /\ (forall e1 e2 e3 u1 err u3,
                            @native_exec nat quiet (VInt 1)
                              (VStr (js "BEGIN " ++ snd variant)) e'
                            = (e1, Normal u1) ->
                            @call nat quiet user_fn args e1 = (e2, Throw err) ->
                            @native_exec nat quiet (VInt 1) (VStr (js "ROLLBACK")) e2
                            = (e3, Normal u3) ->
                            @invoke nat quiet f args e'
                            = Outcome [EExec (VInt 1)
                                         (VStr (js "BEGIN " ++ snd variant));
                                       ECall user_fn args;
                                       EExec (VInt 1) (VStr (js "ROLLBACK"))]
                                      e3 (Throw err))
                      /\ (forall e1 failure,
                            @native_exec nat quiet (VInt 1)
                              (VStr (js "BEGIN " ++ snd variant)) e'
                            = (e1, Throw failure) ->
                            @invoke nat quiet f args e'
                            = Outcome [EExec (VInt 1)
                                         (VStr (js "BEGIN " ++ snd variant))]
                                      (final (convertError failure e1))
                                      (Throw (rethrown (convertError failure e1)))))
            variants.
Proof.
  split; [reflexivity |].
  apply (@transaction_variants_begin_in_their_mode nat quiet (VInt 1) user_fn start).
  reflexivity.
Defined.

(** The function found under [immediate], called where the engine accepts
    everything: BEGIN IMMEDIATE, the user's function, COMMIT. *)
Example immediate_variant_begins_immediate :
  @invoke nat quiet immediate_variant [VInt 3] ready
  = Outcome [EExec (VInt 1) (VStr (js "BEGIN IMMEDIATE")); ECall user_fn [VInt 3];
             EExec (VInt 1) (VStr (js "COMMIT"))]
            (Env (heap ready) 2%nat) (Normal (VInt 42)).
Proof. vm_compute. reflexivity. Qed.

Lemma statement_settings_chain_witness :
  @native_raw nat counting (VInt 2) (VData (JBool true)) start
  = (Env objects 1%nat, Normal VUndefined)
  /\ @native_safeIntegers nat counting (VInt 2) (VData (JBool false)) (Env objects 1%nat)
     = (Env objects 2%nat, Normal VUndefined)
  /\ and_then (@Statement_raw nat counting statement (VData (JBool true)))
       (fun s => and_then (@Statement_safeIntegers nat counting s (VData (JBool false)))
                   (@Statement_columns nat counting))
       start
     = (Env objects 3%nat,
        Normal (VData (JArray [JString (js "id"); JString (js "name")]))).
Proof.
  split; [reflexivity |]. split; [reflexivity |].
  apply (@statement_settings_chain nat counting (VInt 2) (VData (JBool true))
           (VData (JBool false)) start (Env objects 1%nat) (Env objects 2%nat)
           VUndefined (Normal VUndefined));
    reflexivity.
Defined.



(** With the reads of data properties the later revision converts the
    structured error of the engine as [convertError] does. *)
Example reading_convertError_converts :
  @Reading.convertError nat ReadExamples.getter_throws busy start
  = convertError busy start.
Proof. vm_compute. reflexivity. Qed.

Lemma first_revision_reads_the_marker_off_the_error_witness :
  lookup_prop (heap later) marked (js "libsqlError") = Some (VData (JBool true))
  /\ converted (@Wrapper.convertError nat marked later) later
       (VStr (js "disk full")) (VStr (js "SQLITE_FULL")) (VInt 13)
  /\ lookup_prop (heap start) boom (js "libsqlError") = Some VUndefined
  /\ @Wrapper.convertError nat boom start = Outcome [] start (Normal boom).
Proof.
  split; [reflexivity |]. split.
  - apply (proj1 (proj2 (first_revision_reads_the_marker_off_the_error later marked))
             (VData (JBool true)) (js "disk full") (js "SQLITE_FULL") (VInt 13));
      reflexivity.
  - split; [reflexivity |].
    apply (proj1 (first_revision_reads_the_marker_off_the_error start boom) VUndefined);
      reflexivity.
Defined.

Lemma hand_over_methods_add_nothing_witness :
  lookup_prop (heap start) connection (js "db") = Some (VInt 1)
  /\ @native_close nat counting (VInt 1) start = (Env objects 1%nat, Throw busy)
  /\ @Database_close nat counting connection start = (Env objects 1%nat, Throw busy)
  /\ @native_defaultSafeIntegers nat counting (VInt 1) (VData (JBool true)) start
     = (Env objects 1%nat, Normal VUndefined)
  /\ @Database_defaultSafeIntegers nat counting connection (VData (JBool true)) start
     = (Env objects 1%nat, Normal connection).
Proof.
  split; [reflexivity |]. split; [reflexivity |]. split.
  - apply (proj1 (proj2 (proj1 (@hand_over_methods_add_nothing nat counting connection
                                  (VInt 1) VUndefined start (Env objects 1%nat)
                                  (Throw busy))
                           eq_refl)));
      reflexivity.
  - split; [reflexivity |].
    apply (proj2 (proj2 (proj1 (@hand_over_methods_add_nothing nat counting connection
                                  (VInt 1) (VData (JBool true)) start (Env objects 1%nat)
                                  (Normal VUndefined))
                           eq_refl)));
      reflexivity.
Defined.

(** The later revision leaves an error that bears the marker itself as it
    is: it reads the marker from the message only. *)
Example later_revision_ignores_own_marker :
  result (@convertError nat marked later) = Normal marked.
Proof. vm_compute. reflexivity. Qed.

(** [close] throws the structured error of the engine as it is, where
    [exec] makes a [SqliteError] of the same error. *)
Example close_does_not_convert :
  @Database_close nat counting connection start = (Env objects 1%nat, Throw busy)
  /\ exists l,
       result (@Database_exec nat commit_fails connection (VStr (js "COMMIT")) start)
       = Throw (VRef l)
       /\ VRef l <> busy
       /\ instance_of
            (heap (final (@Database_exec nat commit_fails connection
                            (VStr (js "COMMIT")) start)))
            (VRef l)
          = Some CSqliteError.
Proof.
  split; [reflexivity |]. eexists. split; [vm_compute; reflexivity |].
  split; [discriminate | vm_compute; reflexivity].
Qed.

End CoverageWitnesses.
